(** * FlowMaker diagram editor: model of [src/app.js] and its properties

    The development embeds the state and the handlers of [src/app.js]
    (first listing of the file) as pure functions over an explicit
    application state, and proves the properties of the history manager,
    the graph model, the pointer gestures and the label editor.

    Conventions of the embedding
    - JavaScript numbers are exact: pointer coordinates and the zoom factor
      are rationals ([Q]); the numeric fields of a node are integers ([Z]),
      every value the program stores there being [snap _], [Math.max] of an
      integer and [snap _], or an integer literal.  The zoom factor is a
      product of 1.2s and 0.8s and never zero; division by it is [Qdiv].
      The code rounds each quotient and difference to a double: what a
      gesture does is stated on the point [getSVGCoords] returns and on the
      offset recorded at the press, not as a closed form in pixels.
    - Strings are [string]; [toUpperCase] acts on the letters a-z.
    - Node objects live in a store addressed by references ([ref]): the
      array [nodes] holds references, and so does [state.targetItem], which
      aliases an element of [nodes] for the time of a gesture.
    - [JSON.stringify] produces a JSON value ([json]), the text of which is
      not modelled; [JSON.parse] reads one back.  Two snapshots are the same
      string exactly when they are the same JSON value.
    - A handler that would throw ([TypeError] on a [null] target, failure
      of [JSON.parse]) returns [None].
    - [Date.now()] is an argument [now] of the operations that read it.
    - [render] and the other DOM output are left out: they do not write the
      state modelled here. *)

From Stdlib Require Import ZArith QArith Qround List String Ascii Bool Lia.
From Stdlib Require Import DecimalString.
From Stdlib Require Import Lqa.
From Stdlib Require DecimalPos DecimalZ.
Import ListNotations.

Set Warnings "-register-all".

Local Open Scope string_scope.
Local Open Scope Z_scope.

(** ** JavaScript primitives *)

Module JS.

(** [Math.round]: nearest integer, ties towards plus infinity. *)
Definition Math_round (q : Q) : Z := Qfloor (q + (1 # 2)).

Definition Math_max (a b : Z) : Z := Z.max a b.

(** [a < b] on numbers. *)
Definition lt (a b : Q) : bool := negb (Qle_bool b a).

(** Number to string, as a template literal prints an integer. *)
Definition toString (n : Z) : string := NilZero.string_of_int (Z.to_int n).

Definition upper_ascii (c : ascii) : ascii :=
  let n := nat_of_ascii c in
  if (Nat.leb 97 n && Nat.leb n 122)%bool then ascii_of_nat (n - 32) else c.

Fixpoint toUpperCase (s : string) : string :=
  match s with
  | EmptyString => EmptyString
  | String c r => String (upper_ascii c) (toUpperCase r)
  end.

(** [s.charAt(0)] *)
Definition charAt0 (s : string) : string :=
  match s with
  | EmptyString => EmptyString
  | String c _ => String c EmptyString
  end.

(** [s.slice(1)] *)
Definition slice1 (s : string) : string :=
  match s with
  | EmptyString => EmptyString
  | String _ r => r
  end.

(** Truthiness of a value that is a string, [null] or [undefined]. *)
Definition truthy (v : option string) : bool :=
  match v with
  | None => false
  | Some s => negb (s =? EmptyString)%string
  end.

(** [array.findIndex(p)], [None] standing for [-1]. *)
Fixpoint findIndex {A} (p : A -> bool) (l : list A) : option nat :=
  match l with
  | [] => None
  | a :: r => if p a then Some O else option_map S (findIndex p r)
  end.

(** [array.splice(i, 1)] *)
Fixpoint splice1 {A} (i : nat) (l : list A) : list A :=
  match l, i with
  | [], _ => []
  | _ :: r, O => r
  | a :: r, S j => a :: splice1 j r
  end.

(** [array.shift()] *)
Definition shift {A} (l : list A) : list A := tl l.

(** [array.push(v)] *)
Definition push {A} (l : list A) (v : A) : list A := l ++ [v].

(** [array.pop()]: the removed element and the remaining array. *)
Definition pop {A} (l : list A) : option (A * list A) :=
  match rev l with
  | [] => None
  | a :: r => Some (a, rev r)
  end.

(** [array[array.length - 1]] *)
Definition top {A} (l : list A) : option A :=
  match rev l with
  | [] => None
  | a :: _ => Some a
  end.

(** JSON values. *)
Inductive json : Type :=
| JNull
| JNum (n : Z)
| JStr (s : string)
| JArr (items : list json)
| JObj (fields : list (string * json)).

(** [a === b] on the strings that [JSON.stringify] returns. *)
Fixpoint json_eqb (a b : json) {struct a} : bool :=
  match a, b with
  | JNull, JNull => true
  | JNum n, JNum m => Z.eqb n m
  | JStr s, JStr t => String.eqb s t
  | JArr l, JArr m =>
      (fix items (l m : list json) {struct l} : bool :=
         match l, m with
         | [], [] => true
         | u :: l', v :: m' => json_eqb u v && items l' m'
         | _, _ => false
         end) l m
  | JObj l, JObj m =>
      (fix fields (l m : list (string * json)) {struct l} : bool :=
         match l, m with
         | [], [] => true
         | (k, u) :: l', (k', v) :: m' =>
             String.eqb k k' && json_eqb u v && fields l' m'
         | _, _ => false
         end) l m
  | _, _ => false
  end.

(** Induction on JSON values, through arrays and objects. *)
Fixpoint json_induction (P : json -> Prop)
    (HNull : P JNull) (HNum : forall n, P (JNum n))
    (HStr : forall s, P (JStr s))
    (HArr : forall l, Forall P l -> P (JArr l))
    (HObj : forall l, Forall (fun kv => P (snd kv)) l -> P (JObj l))
    (j : json) {struct j} : P j :=
  match j with
  | JNull => HNull
  | JNum n => HNum n
  | JStr s => HStr s
  | JArr l =>
      HArr l ((fix all (l : list json) : Forall P l :=
                 match l with
                 | [] => Forall_nil P
                 | u :: r =>
                     Forall_cons u
                       (json_induction P HNull HNum HStr HArr HObj u) (all r)
                 end) l)
  | JObj l =>
      HObj l ((fix all (l : list (string * json))
                 : Forall (fun kv => P (snd kv)) l :=
                 match l with
                 | [] => Forall_nil _
                 | kv :: r =>
                     Forall_cons kv
                       (json_induction P HNull HNum HStr HArr HObj (snd kv))
                       (all r)
                 end) l)
  end.

(** [obj[k]] on a parsed object; [None] is [undefined]. *)
Fixpoint get (k : string) (fields : list (string * json)) : option json :=
  match fields with
  | [] => None
  | (k', v) :: r => if String.eqb k k' then Some v else get k r
  end.

End JS.

Import JS.

(** The error monad of the handlers. *)
Definition bind {A B} (m : option A) (k : A -> option B) : option B :=
  match m with
  | Some a => k a
  | None => None
  end.

Notation "x <- m ;; k" := (bind m (fun x => k))
  (at level 61, m at next level, right associativity).

Fixpoint mapM {A B} (f : A -> option B) (l : list A) : option (list B) :=
  match l with
  | [] => Some []
  | a :: r => b <- f a ;; bs <- mapM f r ;; Some (b :: bs)
  end.

(** ** Configuration *)

Definition GRID_SIZE : Z := 10.
Definition HISTORY_LIMIT : nat := 50.

(** ** Data model *)

Module Node.
Record t : Type := mk {
  id : string;
  type : string;
  x : Z;
  y : Z;
  width : Z;
  height : Z;
  label : string
}.

Definition set_x (v : Z) (n : t) : t :=
  mk (id n) (type n) v (y n) (width n) (height n) (label n).
Definition set_y (v : Z) (n : t) : t :=
  mk (id n) (type n) (x n) v (width n) (height n) (label n).
Definition set_width (v : Z) (n : t) : t :=
  mk (id n) (type n) (x n) (y n) v (height n) (label n).
Definition set_height (v : Z) (n : t) : t :=
  mk (id n) (type n) (x n) (y n) (width n) v (label n).
Definition set_label (v : string) (n : t) : t :=
  mk (id n) (type n) (x n) (y n) (width n) (height n) v.

(** The object as [JSON.stringify] writes it, keys in creation order. *)
Definition to_json (n : t) : json :=
  JObj [("id", JStr (id n)); ("type", JStr (type n));
        ("x", JNum (x n)); ("y", JNum (y n));
        ("width", JNum (width n)); ("height", JNum (height n));
        ("label", JStr (label n))].

Definition str (v : option json) : option string :=
  match v with Some (JStr s) => Some s | _ => None end.
Definition num (v : option json) : option Z :=
  match v with Some (JNum n) => Some n | _ => None end.

Definition of_json (j : json) : option t :=
  match j with
  | JObj o =>
      i <- str (get "id" o) ;;
      ty <- str (get "type" o) ;;
      vx <- num (get "x" o) ;;
      vy <- num (get "y" o) ;;
      w <- num (get "width" o) ;;
      h <- num (get "height" o) ;;
      l <- str (get "label" o) ;;
      Some (mk i ty vx vy w h l)
  | _ => None
  end.
End Node.

Module Edge.
Record t : Type := mk {
  id : string;
  source : string;
  target : string;
  label : string
}.

Definition set_label (v : string) (e : t) : t :=
  mk (id e) (source e) (target e) v.

Definition to_json (e : t) : json :=
  JObj [("id", JStr (id e)); ("source", JStr (source e));
        ("target", JStr (target e)); ("label", JStr (label e))].

Definition of_json (j : json) : option t :=
  match j with
  | JObj o =>
      i <- Node.str (get "id" o) ;;
      s <- Node.str (get "source" o) ;;
      d <- Node.str (get "target" o) ;;
      l <- Node.str (get "label" o) ;;
      Some (mk i s d l)
  | _ => None
  end.
End Edge.

(** The diagram: what a snapshot records. *)
Record Diagram : Type := mkDiagram {
  d_nodes : list Node.t;
  d_edges : list Edge.t
}.

(** [JSON.stringify({ nodes, edges })] *)
Definition stringify (d : Diagram) : json :=
  JObj [("nodes", JArr (map Node.to_json (d_nodes d)));
        ("edges", JArr (map Edge.to_json (d_edges d)))].

Definition arr (v : option json) : option (list json) :=
  match v with Some (JArr l) => Some l | _ => None end.

(** [JSON.parse(s)], read as [{ nodes, edges }]. *)
Definition parse (j : json) : option Diagram :=
  match j with
  | JObj o =>
      ns <- arr (get "nodes" o) ;;
      es <- arr (get "edges" o) ;;
      ns' <- mapM Node.of_json ns ;;
      es' <- mapM Edge.of_json es ;;
      Some (mkDiagram ns' es')
  | _ => None
  end.

(** ** Application state *)

Inductive InteractionMode : Type :=
| IDLE | DRAGGING | RESIZING | CONNECTING | PANNING.

Definition mode_eqb (m1 m2 : InteractionMode) : bool :=
  match m1, m2 with
  | IDLE, IDLE | DRAGGING, DRAGGING | RESIZING, RESIZING
  | CONNECTING, CONNECTING | PANNING, PANNING => true
  | _, _ => false
  end.

(** [state.activeTool]: ['select' | 'connector'] *)
Inductive Tool : Type := select | connector.

(** [state.editingItem.type]: ['node' | 'edge'] *)
Inductive ItemType : Type := node_item | edge_item.

Record EditingItem : Type := mkEditing {
  item_type : ItemType;
  item_id : string
}.

(** A reference to a node object. *)
Definition ref : Type := nat.

Record Point : Type := mkPoint { px : Q; py : Q }.

(** The object [state]. *)
Record State : Type := mkState {
  mode : InteractionMode;
  selectedId : option string;
  targetItem : option ref;
  isSpacePressed : bool;
  activeTool : Tool;
  zoom : Q;
  projectName : string;
  editingItem : option EditingItem;
  dragOffset : Point
}.

Definition set_mode (v : InteractionMode) (s : State) : State :=
  mkState v (selectedId s) (targetItem s) (isSpacePressed s) (activeTool s)
          (zoom s) (projectName s) (editingItem s) (dragOffset s).
Definition set_selectedId (v : option string) (s : State) : State :=
  mkState (mode s) v (targetItem s) (isSpacePressed s) (activeTool s)
          (zoom s) (projectName s) (editingItem s) (dragOffset s).
Definition set_targetItem (v : option ref) (s : State) : State :=
  mkState (mode s) (selectedId s) v (isSpacePressed s) (activeTool s)
          (zoom s) (projectName s) (editingItem s) (dragOffset s).
Definition set_editingItem (v : option EditingItem) (s : State) : State :=
  mkState (mode s) (selectedId s) (targetItem s) (isSpacePressed s)
          (activeTool s) (zoom s) (projectName s) v (dragOffset s).
Definition set_dragOffset (v : Point) (s : State) : State :=
  mkState (mode s) (selectedId s) (targetItem s) (isSpacePressed s)
          (activeTool s) (zoom s) (projectName s) (editingItem s) v.

(** The text inputs [node-editor] and [edge-editor]: whether
    [style.display] is ['block'], and [value]. *)
Record Editor : Type := mkEditor {
  shown : bool;
  value : string
}.

(** The whole application: the node objects, the module-level variables,
    the two editors and the item of [localStorage]. *)
Record App : Type := mkApp {
  store : ref -> Node.t;
  fresh : ref;
  nodes : list ref;
  edges : list Edge.t;
  historyStack : list json;
  redoStack : list json;
  state : State;
  nodeEditor : Editor;
  edgeEditor : Editor;
  localStorage : option json
}.

Definition set_store (v : ref -> Node.t) (a : App) : App :=
  mkApp v (fresh a) (nodes a) (edges a) (historyStack a) (redoStack a)
        (state a) (nodeEditor a) (edgeEditor a) (localStorage a).
Definition set_fresh (v : ref) (a : App) : App :=
  mkApp (store a) v (nodes a) (edges a) (historyStack a) (redoStack a)
        (state a) (nodeEditor a) (edgeEditor a) (localStorage a).
Definition set_nodes (v : list ref) (a : App) : App :=
  mkApp (store a) (fresh a) v (edges a) (historyStack a) (redoStack a)
        (state a) (nodeEditor a) (edgeEditor a) (localStorage a).
Definition set_edges (v : list Edge.t) (a : App) : App :=
  mkApp (store a) (fresh a) (nodes a) v (historyStack a) (redoStack a)
        (state a) (nodeEditor a) (edgeEditor a) (localStorage a).
Definition set_historyStack (v : list json) (a : App) : App :=
  mkApp (store a) (fresh a) (nodes a) (edges a) v (redoStack a)
        (state a) (nodeEditor a) (edgeEditor a) (localStorage a).
Definition set_redoStack (v : list json) (a : App) : App :=
  mkApp (store a) (fresh a) (nodes a) (edges a) (historyStack a) v
        (state a) (nodeEditor a) (edgeEditor a) (localStorage a).
Definition set_state (v : State) (a : App) : App :=
  mkApp (store a) (fresh a) (nodes a) (edges a) (historyStack a)
        (redoStack a) v (nodeEditor a) (edgeEditor a) (localStorage a).
Definition set_nodeEditor (v : Editor) (a : App) : App :=
  mkApp (store a) (fresh a) (nodes a) (edges a) (historyStack a)
        (redoStack a) (state a) v (edgeEditor a) (localStorage a).
Definition set_edgeEditor (v : Editor) (a : App) : App :=
  mkApp (store a) (fresh a) (nodes a) (edges a) (historyStack a)
        (redoStack a) (state a) (nodeEditor a) v (localStorage a).
Definition set_localStorage (v : option json) (a : App) : App :=
  mkApp (store a) (fresh a) (nodes a) (edges a) (historyStack a)
        (redoStack a) (state a) (nodeEditor a) (edgeEditor a) v.

(** Assignment to a field of the node object behind [r]. *)
Definition write (r : ref) (f : Node.t -> Node.t) (a : App) : App :=
  set_store (fun r' => if Nat.eqb r' r then f (store a r) else store a r') a.

(** The node objects of the array [nodes], in order. *)
Definition node_objects (a : App) : list Node.t := map (store a) (nodes a).

(** The live diagram. *)
Definition diagram (a : App) : Diagram :=
  mkDiagram (node_objects a) (edges a).

(** The module-level variables as the script declares them. *)
Definition initial : App :=
  mkApp (fun _ => Node.mk EmptyString EmptyString 0 0 0 0 EmptyString)
        O [] [] [] []
        (mkState IDLE None None false select 1%Q "My Flowchart" None
                 (mkPoint 0%Q 0%Q))
        (mkEditor false EmptyString) (mkEditor false EmptyString) None.

(** ** Geometry *)

(** A mouse event, and [canvas.getBoundingClientRect()] at the time the
    handler runs. *)
Record MouseEvent : Type := mkEvent { clientX : Q; clientY : Q }.
Record DOMRect : Type := mkRect { left : Q; top_ : Q }.

Definition getSVGCoords (rect : DOMRect) (e : MouseEvent) (a : App) : Point :=
  mkPoint ((clientX e - left rect) / zoom (state a))%Q
          ((clientY e - top_ rect) / zoom (state a))%Q.

Definition snap (val : Q) : Z :=
  Math_round (val / inject_Z GRID_SIZE)%Q * GRID_SIZE.

(** ** Data operations *)

(** [JSON.stringify({ nodes, edges, projectName: state.projectName })] *)
Definition stringify_project (a : App) : json :=
  JObj [("nodes", JArr (map Node.to_json (node_objects a)));
        ("edges", JArr (map Edge.to_json (edges a)));
        ("projectName", JStr (projectName (state a)))].

Definition persistToBrowser (a : App) : App :=
  set_localStorage (Some (stringify_project a)) a.

(** [historyStack[historyStack.length - 1] !== data], [undefined] being
    different from every string. *)
Definition top_differs (h : list json) (data : json) : bool :=
  match top h with
  | None => true
  | Some t => negb (json_eqb t data)
  end.

Definition saveHistory (a : App) : App :=
  let data := stringify (diagram a) in
  if (Nat.eqb (List.length (historyStack a)) 0 || top_differs (historyStack a) data)%bool
  then
    let a1 := set_historyStack (push (historyStack a) data) a in
    let a2 := set_redoStack [] a1 in
    let a3 := if Nat.ltb HISTORY_LIMIT (List.length (historyStack a2))
              then set_historyStack (shift (historyStack a2)) a2
              else a2 in
    persistToBrowser a3
  else a.

(** [nodes = data.nodes; edges = data.edges]: the parsed nodes are new
    objects, stored at the references [fresh a], [fresh a + 1], ... *)
Definition applyState (data : Diagram) (a : App) : App :=
  let ns := d_nodes data in
  let base := fresh a in
  let st := fun r =>
    if (Nat.leb base r && Nat.ltb r (base + List.length ns))%bool
    then nth (r - base) ns (store a r)
    else store a r in
  set_edges (d_edges data)
    (set_nodes (seq base (List.length ns))
       (set_fresh (base + List.length ns)%nat (set_store st a))).

Definition undo (a : App) : option App :=
  if Nat.leb (List.length (historyStack a)) 1 then Some a
  else
    p <- pop (historyStack a) ;;
    let a1 := set_historyStack (snd p) a in
    let a2 := set_redoStack (push (redoStack a1) (fst p)) a1 in
    t <- top (historyStack a2) ;;
    data <- parse t ;;
    Some (applyState data a2).

Definition redo (a : App) : option App :=
  if Nat.eqb (List.length (redoStack a)) 0 then Some a
  else
    p <- pop (redoStack a) ;;
    let next := fst p in
    let a1 := set_redoStack (snd p) a in
    let a2 := set_historyStack
                (push (historyStack a1) (stringify (diagram a1))) a1 in
    data <- parse next ;;
    Some (applyState data a2).

(** The width and height that [createNode] gives a node of a type. *)
Definition default_size (type : string) : Z * Z :=
  let w := 160 in
  let h := 60 in
  if (type =? "decision")%string then (160, 120)
  else if (type =? "lead-source")%string then (180, 50)
  else if (type =? "database")%string then (160, 70)
  else if (type =? "api")%string then (180, 50)
  else if (type =? "user")%string then (140, 60)
  else if (type =? "document")%string then (140, 80)
  else if (type =? "cloud")%string then (160, 100)
  else (w, h).

(** The label that [createNode] gives when none is provided. *)
Definition default_label (type : string) : string :=
  if (type =? "lead-source")%string then "Trigger"
  else if (type =? "database")%string then "Database"
  else if (type =? "api")%string then "API Request"
  else if (type =? "user")%string then "User Input"
  else if (type =? "document")%string then "Document"
  else if (type =? "cloud")%string then "Cloud"
  else toUpperCase (charAt0 type) ++ slice1 type.

(** [createNode(type, x, y, label)]; a [label] that is [null] or
    [undefined] is [None].  Returns the new object and the new state. *)
Definition createNode (type : string) (x y : Q) (label : option string)
    (now : Z) (a : App) : ref * App :=
  let id := "node-" ++ toString now in
  let (w, h) := default_size type in
  let label :=
    if negb (truthy label) then default_label type
    else match label with Some l => l | None => EmptyString end in
  let node := Node.mk id type (snap x) (snap y) w h label in
  let r := fresh a in
  let a1 := set_fresh (S r)
              (set_store (fun r' => if Nat.eqb r' r then node else store a r') a) in
  (r, set_nodes (push (nodes a1) r) a1).

(** [item.label = v] on the first edge that satisfies [p]. *)
Fixpoint relabel_first (p : Edge.t -> bool) (v : string) (l : list Edge.t)
  : list Edge.t :=
  match l with
  | [] => []
  | e :: r => if p e then Edge.set_label v e :: r
              else e :: relabel_first p v r
  end.

Definition hide (ed : Editor) : Editor := mkEditor false (value ed).

Definition closeEditors (a : App) : App :=
  let a1 :=
    match editingItem (state a) with
    | Some it =>
        match item_type it with
        | node_item =>
            match find (fun r => (Node.id (store a r) =? item_id it)%string)
                       (nodes a) with
            | Some r =>
                saveHistory (write r (Node.set_label (value (nodeEditor a))) a)
            | None => a
            end
        | edge_item =>
            match find (fun e => (Edge.id e =? item_id it)%string) (edges a) with
            | Some _ =>
                saveHistory
                  (set_edges
                     (relabel_first
                        (fun e => (Edge.id e =? item_id it)%string)
                        (value (edgeEditor a)) (edges a)) a)
            | None => a
            end
        end
    | None => a
    end in
  let a2 := set_nodeEditor (hide (nodeEditor a1)) a1 in
  let a3 := set_edgeEditor (hide (edgeEditor a2)) a2 in
  set_state (set_editingItem None (state a3)) a3.

Definition deleteSelected (a : App) : App :=
  if negb (truthy (selectedId (state a))) then a
  else
    let sel := match selectedId (state a) with
               | Some s => s | None => EmptyString end in
    let a1 :=
      match findIndex (fun n => (Node.id n =? sel)%string) (node_objects a) with
      | Some nodeIdx =>
          let a' := set_nodes (splice1 nodeIdx (nodes a)) a in
          set_edges
            (filter (fun e => (negb (Edge.source e =? sel)%string
                               && negb (Edge.target e =? sel)%string)%bool)
                    (edges a')) a'
      | None =>
          match findIndex (fun e => (Edge.id e =? sel)%string) (edges a) with
          | Some edgeIdx => set_edges (splice1 edgeIdx (edges a)) a
          | None => a
          end
      end in
    let a2 := set_state (set_selectedId None (state a1)) a1 in
    saveHistory (closeEditors a2).

(** ** Interaction engine *)

Definition startDragging (rect : DOMRect) (e : MouseEvent) (node : ref)
    (a : App) : App :=
  let s1 := set_targetItem (Some node) (set_mode DRAGGING (state a)) in
  let a1 := set_state s1 a in
  let coords := getSVGCoords rect e a1 in
  let off := mkPoint (px coords - inject_Z (Node.x (store a1 node)))%Q
                     (py coords - inject_Z (Node.y (store a1 node)))%Q in
  set_state (set_dragOffset off (state a1)) a1.

Definition startResizing (node : ref) (a : App) : App :=
  set_state (set_targetItem (Some node) (set_mode RESIZING (state a))) a.

Definition startConnecting (node : ref) (a : App) : App :=
  set_state (set_targetItem (Some node) (set_mode CONNECTING (state a))) a.

(** [g.onmousedown] of the group drawn for [node], outside its icons. *)
Definition node_mousedown (rect : DOMRect) (e : MouseEvent) (node : ref)
    (a : App) : App :=
  let a1 := set_state
              (set_selectedId (Some (Node.id (store a node))) (state a)) a in
  match activeTool (state a1) with
  | connector => startConnecting node a1
  | select => startDragging rect e node a1
  end.

(** The [mousemove] listener of the window. *)
Definition mousemove (rect : DOMRect) (e : MouseEvent) (a : App)
  : option App :=
  if mode_eqb (mode (state a)) IDLE then Some a
  else
    let coords := getSVGCoords rect e a in
    if mode_eqb (mode (state a)) DRAGGING then
      t <- targetItem (state a) ;;
      let a1 := write t (Node.set_x
                  (snap (px coords - px (dragOffset (state a)))%Q)) a in
      Some (write t (Node.set_y
                  (snap (py coords - py (dragOffset (state a1)))%Q)) a1)
    else if mode_eqb (mode (state a)) RESIZING then
      t <- targetItem (state a) ;;
      let a1 := write t (Node.set_width
                  (Math_max 80
                     (snap (px coords - inject_Z (Node.x (store a t)))%Q))) a in
      Some (write t (Node.set_height
                  (Math_max 40
                     (snap (py coords - inject_Z (Node.y (store a1 t)))%Q))) a1)
    else if mode_eqb (mode (state a)) CONNECTING then
      (* drawTempLine reads the target and writes the DOM only *)
      t <- targetItem (state a) ;; Some a
    else Some a.

(** The test of [finalizeConnection] on a node [n], [src] being
    [state.targetItem]. *)
Definition hit (src : Node.t) (coords : Point) (n : Node.t) : bool :=
  (negb (Node.id n =? Node.id src)%string
   && lt (inject_Z (Node.x n)) (px coords)
   && lt (px coords) (inject_Z (Node.x n + Node.width n))
   && lt (inject_Z (Node.y n)) (py coords)
   && lt (py coords) (inject_Z (Node.y n + Node.height n)))%bool.

Definition finalizeConnection (rect : DOMRect) (e : MouseEvent) (now : Z)
    (a : App) : option App :=
  let coords := getSVGCoords rect e a in
  match targetItem (state a) with
  | Some t =>
      let src := store a t in
      match find (hit src coords) (node_objects a) with
      | Some target =>
          let edge := Edge.mk ("edge-" ++ toString now) (Node.id src)
                              (Node.id target) EmptyString in
          Some (saveHistory (set_edges (push (edges a) edge) a))
      | None => Some a
      end
  | None =>
      (* the callback of [find] reads [state.targetItem.id] *)
      match nodes a with
      | [] => Some a
      | _ :: _ => None
      end
  end.

(** The [mouseup] listener of the window. *)
Definition mouseup (rect : DOMRect) (e : MouseEvent) (now : Z) (a : App)
  : option App :=
  a1 <- (if mode_eqb (mode (state a)) CONNECTING
         then finalizeConnection rect e now a else Some a) ;;
  let a2 := if negb (mode_eqb (mode (state a1)) IDLE)
            then saveHistory a1 else a1 in
  Some (set_state (set_targetItem None (set_mode IDLE (state a2))) a2).

(** ** Editing layer *)

Definition same_item (a : App) (id : string) : bool :=
  match editingItem (state a) with
  | Some it => (item_id it =? id)%string
  | None => false
  end.

Definition openNodeEditor (node : ref) (a : App) : App :=
  if same_item a (Node.id (store a node)) then a
  else
    let a1 := closeEditors a in
    let n := store a1 node in
    let s := set_editingItem (Some (mkEditing node_item (Node.id n)))
               (set_selectedId (Some (Node.id n)) (state a1)) in
    set_nodeEditor (mkEditor true (Node.label n)) (set_state s a1).

(** [edge] is the object the label was drawn for. *)
Definition openEdgeEditor (edge : Edge.t) (a : App) : App :=
  if same_item a (Edge.id edge) then a
  else
    let a1 := closeEditors a in
    let s := set_editingItem (Some (mkEditing edge_item (Edge.id edge)))
               (set_selectedId (Some (Edge.id edge)) (state a1)) in
    set_edgeEditor (mkEditor true (Edge.label edge)) (set_state s a1).

(** The user's typing in an editor. *)
Definition type_node_text (v : string) (a : App) : App :=
  set_nodeEditor (mkEditor (shown (nodeEditor a)) v) a.
Definition type_edge_text (v : string) (a : App) : App :=
  set_edgeEditor (mkEditor (shown (edgeEditor a)) v) a.

(** [Escape] in an editor: [state.editingItem = null; closeEditors()]. *)
Definition editor_escape (a : App) : App :=
  closeEditors (set_state (set_editingItem None (state a)) a).

(** ** Controls *)

(** [container.ondrop] *)
Definition drop (rect : DOMRect) (e : MouseEvent) (type : string) (now : Z)
    (a : App) : App :=
  let coords := getSVGCoords rect e a in
  saveHistory (snd (createNode type (px coords - 80)%Q (py coords - 20)%Q
                               None now a)).

(** The handler of [clear-btn], once confirmed. *)
Definition clear (a : App) : App :=
  saveHistory (set_edges [] (set_nodes [] a)).

(** [init()] when [localStorage] holds no project. *)
Definition init (now : Z) (a : App) : App :=
  let a1 := if Nat.eqb (List.length (nodes a)) 0
            then snd (createNode "lead-source" 320 150 (Some "Start Source")
                                 now a)
            else a in
  saveHistory a1.

(** ** Runs of commits *)

(** Changes that leave the two stacks alone: everything the program does
    between two calls of [saveHistory]. *)
Definition same_stacks (a b : App) : Prop :=
  historyStack b = historyStack a /\ redoStack b = redoStack a.

(** The snapshots a run of commits records: a commit adds the diagram it
    sees unless it is the one recorded last. *)
Definition record (log : list json) (data : json) : list json :=
  match top log with
  | Some t => if json_eqb t data then log else log ++ [data]
  | None => log ++ [data]
  end.

(** [committed log a]: [a] is reached from the declared (empty) stacks by
    calls of [saveHistory], with any change of the rest of the state in
    between; [log] lists the snapshots recorded on the way. *)
Inductive committed : list json -> App -> Prop :=
| committed_start : forall a,
    historyStack a = [] -> redoStack a = [] -> committed [] a
| committed_step : forall log a b,
    committed log a -> same_stacks a b ->
    committed (record log (stringify (diagram b))) (saveHistory b).

(** The release point [p] lies inside the bounding box of [n]. *)
Definition inside (p : Point) (n : Node.t) : Prop :=
  (inject_Z (Node.x n) < px p /\ px p < inject_Z (Node.x n + Node.width n) /\
   inject_Z (Node.y n) < py p /\ py p < inject_Z (Node.y n + Node.height n))%Q.

(** What identifies an edge apart from its label. *)
Definition endpoints (e : Edge.t) : string * string * string :=
  (Edge.id e, Edge.source e, Edge.target e).

(** ** Sample sessions *)

Definition rect0 : DOMRect := mkRect 0 0.

(** Start-up at time 1000 without a stored project: the seeded node
    [node-1000] at (320,150). *)
Definition app0 : App := init 1000 initial.

(** A [decision] dropped so that the new node lands at (500,400). *)
Definition app1 : App := drop rect0 (mkEvent 580 420) "decision" 2000 app0.

(** The references of the two nodes. *)
Definition N0 : ref := 0%nat.
Definition N1 : ref := 1%nat.

(** The undo stack a commit leaves when it records [data]: pushed, and the
    oldest entry shifted out beyond the limit. *)
Definition pushed (h : list json) (data : json) : list json :=
  if Nat.ltb HISTORY_LIMIT (List.length (push h data))
  then shift (push h data) else push h data.

(** [undo()] followed by [redo()]. *)
Definition undo_redo (a : App) : option App := a1 <- undo a ;; redo a1.

(** [app1] after [undo()], and after [undo()] then [redo()]. *)
Definition app2 : App :=
  match undo app1 with Some a => a | None => app1 end.
Definition app3 : App :=
  match redo app2 with Some a => a | None => app2 end.

(** The fixed default labels, by type. *)
Definition label_table : list (string * string) :=
  [("lead-source", "Trigger"); ("database", "Database");
   ("api", "API Request"); ("user", "User Input");
   ("document", "Document"); ("cloud", "Cloud")].

Fixpoint assoc (k : string) (t : list (string * string)) : option string :=
  match t with
  | [] => None
  | (k', v) :: r => if String.eqb k k' then Some v else assoc k r
  end.

(** The type with its first character in upper case. *)
Definition capitalized (type : string) : string :=
  toUpperCase (charAt0 type) ++ slice1 type.

(** The node object that a call of [createNode] returns. *)
Definition created (c : ref * App) : Node.t := store (snd c) (fst c).


(** A run of [mousemove] events. *)
Fixpoint moves (es : list (DOMRect * MouseEvent)) (a : App) : option App :=
  match es with
  | [] => Some a
  | (rect, e) :: r => a1 <- mousemove rect e a ;; moves r a1
  end.

(** What the history manager owns: the two stacks and the stored project. *)
Definition history (a : App) : list json * list json * option json :=
  (historyStack a, redoStack a, localStorage a).

(** A node that the connect gesture started on [src] may end on: another
    id, and the release point [p] inside its box. *)
Definition candidate (src : Node.t) (p : Point) (n : Node.t) : Prop :=
  Node.id n <> Node.id src /\ inside p n.

(** The handler of [connector-tool]. *)
Definition toggle_connector (a : App) : App :=
  let s := state a in
  set_state
    (mkState (mode s) (selectedId s) (targetItem s) (isSpacePressed s)
             (match activeTool s with connector => select | select => connector end)
             (zoom s) (projectName s) (editingItem s) (dragOffset s)) a.

(** With the connector tool, a press on [N0] ... *)
Definition app_connecting : App :=
  node_mousedown rect0 (mkEvent 330 160) N0 (toggle_connector app1).

(** ... and a release inside [N1]: the edge [edge-3000]. *)
Definition app_linked : App :=
  match mouseup rect0 (mkEvent 510 410) 3000 app_connecting with
  | Some a => a
  | None => app_connecting
  end.

(** The label of that edge under edit, [Yes] typed. *)
Definition app_editing : App :=
  type_edge_text "Yes"
    (openEdgeEditor
       (Edge.mk "edge-3000" "node-1000" "node-2000" EmptyString) app_linked).

(** [n] more nodes dropped on [a], one commit each. *)
Fixpoint drops (n : nat) (a : App) : App :=
  match n with
  | O => a
  | S k => drop rect0 (mkEvent 580 420) "user" (3000 + Z.of_nat k) (drops k a)
  end.

(** Every entry of [l] is the serialization of a diagram that satisfies
    [P]. *)
Definition stack_of (P : Diagram -> Prop) (l : list json) : Prop :=
  Forall (fun j => exists d, j = stringify d /\ P d) l.

(** Every entry of [l] is the serialization of a diagram. *)
Definition snapshots (l : list json) : Prop := stack_of (fun _ => True) l.

(** No entry of [l] is followed by an equal one. *)
Definition no_repeat (l : list json) : Prop :=
  forall l1 u v l2, l = (l1 ++ u :: v :: l2)%list -> u <> v.

(** [redo()] followed by [undo()]. *)
Definition redo_undo (a : App) : option App := a1 <- redo a ;; undo a1.

(** ** The remaining handlers *)

Definition set_isSpacePressed (v : bool) (s : State) : State :=
  mkState (mode s) (selectedId s) (targetItem s) v (activeTool s)
          (zoom s) (projectName s) (editingItem s) (dragOffset s).
Definition set_zoom (v : Q) (s : State) : State :=
  mkState (mode s) (selectedId s) (targetItem s) (isSpacePressed s)
          (activeTool s) v (projectName s) (editingItem s) (dragOffset s).
Definition set_projectName (v : string) (s : State) : State :=
  mkState (mode s) (selectedId s) (targetItem s) (isSpacePressed s)
          (activeTool s) (zoom s) v (editingItem s) (dragOffset s).

(** [state.selectedId = v] *)
Definition select_id (v : option string) (a : App) : App :=
  set_state (set_selectedId v (state a)) a.

(** The delete icon of the group drawn for [node]. *)
Definition delete_icon (node : ref) (a : App) : App :=
  deleteSelected (select_id (Some (Node.id (store a node))) a).

(** [path.onclick] of the curve drawn for [edge]. *)
Definition edge_click (edge : Edge.t) (a : App) : App :=
  select_id (Some (Edge.id edge)) a.

(** [labelGroup.onmousedown] of the label drawn for [edge]. *)
Definition edge_label_mousedown (edge : Edge.t) (a : App) : App :=
  openEdgeEditor edge (select_id (Some (Edge.id edge)) a).

(** [container.onmousedown] on the canvas itself. *)
Definition background_mousedown (a : App) : App :=
  select_id None (closeEditors a).

(** A keyboard event, and [document.activeElement.tagName]. *)
Record KeyEvent : Type := mkKey {
  code : string;
  key : string;
  ctrlKey : bool;
  metaKey : bool;
  shiftKey : bool
}.

(** [window.onkeydown] *)
Definition keydown (ev : KeyEvent) (active : string) (a : App) : option App :=
  let a1 := if (code ev =? "Space")%string
            then set_state (set_isSpacePressed true (state a)) a else a in
  let a2 :=
    if (((key ev =? "Delete") || (key ev =? "Backspace"))%string
        && match editingItem (state a1) with Some _ => false | None => true end)%bool
    then
      if (negb (active =? "INPUT")%string && negb (active =? "TEXTAREA")%string)%bool
      then deleteSelected a1 else a1
    else a1 in
  if (ctrlKey ev || metaKey ev)%bool then
    a3 <- (if (key ev =? "z")%string then undo a2 else Some a2) ;;
    a4 <- (if (key ev =? "y")%string then redo a3 else Some a3) ;;
    Some (if (key ev =? "s")%string then persistToBrowser a4 else a4)
  else Some a2.

(** [window.onkeyup] *)
Definition keyup (ev : KeyEvent) (a : App) : App :=
  if (code ev =? "Space")%string
  then set_state (set_isSpacePressed false (state a)) a else a.

(** [el.onkeydown] of the editor [el]: [node_item] for [node-editor],
    [edge_item] for [edge-editor]. *)
Definition editor_keydown (el : ItemType) (ev : KeyEvent) (a : App) : App :=
  let a1 :=
    if (key ev =? "Enter")%string then
      if (match el with edge_item => true | node_item => false end
          || negb (shiftKey ev))%bool
      then closeEditors a else a
    else a in
  if (key ev =? "Escape")%string then editor_escape a1 else a1.

(** The handlers of [zoom-in], [zoom-out] and [reset-view]. *)
Definition zoom_in (a : App) : App :=
  set_state (set_zoom (zoom (state a) * (12 # 10))%Q (state a)) a.
Definition zoom_out (a : App) : App :=
  set_state (set_zoom (zoom (state a) * (8 # 10))%Q (state a)) a.
Definition reset_view (a : App) : App :=
  set_state (set_zoom 1%Q (state a)) a.

(** [nameInput.oninput], [v] being the text of the input. *)
Definition rename (v : string) (a : App) : App :=
  persistToBrowser
    (set_state
       (set_projectName (if (v =? EmptyString)%string then "My Flowchart" else v)
                        (state a)) a).

(** The events of a session. *)
Inductive Event : Type :=
| DropNode (rect : DOMRect) (e : MouseEvent) (type : string) (now : Z)
| NodeDown (rect : DOMRect) (e : MouseEvent) (node : ref)
| ResizeDown (node : ref)
| DeleteIcon (node : ref)
| EditNode (node : ref)
| EdgeClick (edge : Edge.t)
| EdgeLabelDown (edge : Edge.t)
| Move (rect : DOMRect) (e : MouseEvent)
| Up (rect : DOMRect) (e : MouseEvent) (now : Z)
| BackgroundDown
| KeyDown (ev : KeyEvent) (active : string)
| KeyUp (ev : KeyEvent)
| EditorKeyDown (el : ItemType) (ev : KeyEvent)
| EditorBlur
| TypeNode (v : string)
| TypeEdge (v : string)
| UndoButton
| RedoButton
| ZoomIn
| ZoomOut
| ResetView
| ClearConfirmed
| ConnectorTool
| Rename (v : string)
| Save.

(** The handler that an event runs. *)
Definition handle (ev : Event) (a : App) : option App :=
  match ev with
  | DropNode rect e type now => Some (drop rect e type now a)
  | NodeDown rect e node => Some (node_mousedown rect e node a)
  | ResizeDown node => Some (startResizing node a)
  | DeleteIcon node => Some (delete_icon node a)
  | EditNode node => Some (openNodeEditor node a)
  | EdgeClick edge => Some (edge_click edge a)
  | EdgeLabelDown edge => Some (edge_label_mousedown edge a)
  | Move rect e => mousemove rect e a
  | Up rect e now => mouseup rect e now a
  | BackgroundDown => Some (background_mousedown a)
  | KeyDown ev active => keydown ev active a
  | KeyUp ev => Some (keyup ev a)
  | EditorKeyDown el ev => Some (editor_keydown el ev a)
  | EditorBlur => Some (closeEditors a)
  | TypeNode v => Some (type_node_text v a)
  | TypeEdge v => Some (type_edge_text v a)
  | UndoButton => undo a
  | RedoButton => redo a
  | ZoomIn => Some (zoom_in a)
  | ZoomOut => Some (zoom_out a)
  | ResetView => Some (reset_view a)
  | ClearConfirmed => Some (clear a)
  | ConnectorTool => Some (toggle_connector a)
  | Rename v => Some (rename v a)
  | Save => Some (persistToBrowser a)
  end.

(** A run of events. *)
Fixpoint run (evs : list Event) (a : App) : option App :=
  match evs with
  | [] => Some a
  | ev :: r => a1 <- handle ev a ;; run r a1
  end.

(** A session started at time [now] without a stored project. *)
Definition session (now : Z) (evs : list Event) : option App :=
  run evs (init now initial).

(** On the grid, and not below the minimum size. *)
Definition well_sized (n : Node.t) : Prop :=
  (GRID_SIZE | Node.x n) /\ (GRID_SIZE | Node.y n) /\
  (GRID_SIZE | Node.width n) /\ (GRID_SIZE | Node.height n) /\
  80 <= Node.width n /\ 40 <= Node.height n.

Definition well_sized_diagram (d : Diagram) : Prop :=
  Forall well_sized (d_nodes d).

(** Every entry is the serialization of a diagram of well-sized nodes. *)
Definition well_sized_stack (l : list json) : Prop :=
  stack_of well_sized_diagram l.

(** The editor shown is the one of the open session. *)
Definition editors_follow (a : App) : Prop :=
  match editingItem (state a) with
  | None => shown (nodeEditor a) = false /\ shown (edgeEditor a) = false
  | Some it =>
      match item_type it with
      | node_item => shown (nodeEditor a) = true /\ shown (edgeEditor a) = false
      | edge_item => shown (nodeEditor a) = false /\ shown (edgeEditor a) = true
      end
  end.

(** What every state of a session satisfies. *)
Record Inv (a : App) : Prop := mkInv {
  inv_refs : Forall (fun r => (r < fresh a)%nat) (nodes a);
  inv_target : mode (state a) <> IDLE ->
               exists t, targetItem (state a) = Some t;
  inv_idle : mode (state a) = IDLE -> targetItem (state a) = None;
  inv_mode : mode (state a) <> PANNING;
  inv_history : historyStack a <> [];
  inv_undo : well_sized_stack (historyStack a);
  inv_redo : well_sized_stack (redoStack a);
  inv_nodes : well_sized_diagram (diagram a);
  inv_editors : editors_follow a;
  inv_name : projectName (state a) <> EmptyString
}.

(** The end of [closeEditors]: both editors hidden, no session. *)
Definition end_session (a : App) : App :=
  set_state (set_editingItem None (state a))
    (set_edgeEditor (hide (edgeEditor a))
       (set_nodeEditor (hide (nodeEditor a)) a)).

(** The events that lead from start-up to [app1], and on to a connect
    gesture whose source is deleted before the release. *)
Definition events1 : list Event :=
  [DropNode rect0 (mkEvent 580 420) "decision" 2000].

Definition key_delete : KeyEvent := mkKey "Delete" "Delete" false false false.

Definition events_orphan : list Event :=
  events1 ++ [ConnectorTool; NodeDown rect0 (mkEvent 330 160) N0;
              KeyDown key_delete "BODY"].

(** The ids of the nodes of the diagram, in order. *)
Definition node_ids (a : App) : list string := map Node.id (node_objects a).

(** Every edge starts and ends at the id of a node of the diagram. *)
Definition no_dangling (a : App) : Prop :=
  forall e, In e (edges a) ->
            In (Edge.source e) (node_ids a) /\ In (Edge.target e) (node_ids a).

(** The types that [createNode] gives a size of their own. *)
Definition sized_types : list string :=
  ["decision"; "lead-source"; "database"; "api"; "user"; "document"; "cloud"].

(** The state in which the source of a connect gesture has been deleted. *)
Definition app_orphan : App :=
  match session 1000 events_orphan with Some a => a | None => initial end.

(** [app_linked] with its edge selected by a click on the curve. *)
Definition app_edge_selected : App :=
  edge_click (Edge.mk "edge-3000" "node-1000" "node-2000" EmptyString)
             app_linked.

(** [app1] with a drag of [N0] under way. *)
Definition app_dragging : App :=
  node_mousedown rect0 (mkEvent 330 160) N0 app1.

(** An edit of a node label: the editor opened on [node], [v] typed. *)
Definition node_edit (node : ref) (v : string) (a : App) : App :=
  type_node_text v (openNodeEditor node a).


(** ** Start-up with a stored project *)

(** Truthiness of a value read from a parsed object. *)
Definition json_truthy (j : json) : bool :=
  match j with
  | JNull => false
  | JNum n => negb (n =? 0)
  | JStr s => negb (s =? EmptyString)%string
  | JArr _ | JObj _ => true
  end.

(** [data[k] || dflt], read with [read]: [None] when the value is
    truthy and [read] does not take it. *)
Definition field_or {A} (data : json) (k : string) (dflt : A)
    (read : json -> option A) : option A :=
  match (match data with JObj o => get k o | _ => None end) with
  | Some j => if json_truthy j then read j else Some dflt
  | None => Some dflt
  end.

Definition read_nodes (j : json) : option (list Node.t) :=
  match j with JArr l => mapM Node.of_json l | _ => None end.
Definition read_edges (j : json) : option (list Edge.t) :=
  match j with JArr l => mapM Edge.of_json l | _ => None end.
Definition read_name (j : json) : option string :=
  match j with JStr s => Some s | _ => None end.

(** What the [try] block of [init] does with the parsed value [data]. *)
Inductive Stored : Type :=
| Stored_project (ns : list Node.t) (es : list Edge.t) (name : string)
| Stored_nothing
| Stored_unmodelled.

(** [Stored_nothing]: [data] is [null], reading [data.nodes] throws and the
    [catch] leaves the state as it is.  [Stored_unmodelled]: [nodes], [edges]
    or [projectName] would get a value that is not an array of nodes, an
    array of edges or a string. *)
Definition read_stored (data : json) : Stored :=
  match data with
  | JNull => Stored_nothing
  | _ =>
      match field_or data "nodes" [] read_nodes,
            field_or data "edges" [] read_edges,
            field_or data "projectName" "My Flowchart" read_name with
      | Some ns, Some es, Some name => Stored_project ns es name
      | _, _, _ => Stored_unmodelled
      end
  end.

(** [init()], reading the item of [localStorage]; [None] when the stored
    value is [Stored_unmodelled]. *)
Definition init_stored (now : Z) (a : App) : option App :=
  a1 <- match localStorage a with
        | Some data =>
            match read_stored data with
            | Stored_project ns es name =>
                let a' := applyState (mkDiagram ns es) a in
                Some (set_state (set_projectName name (state a')) a')
            | Stored_nothing => Some a
            | Stored_unmodelled => None
            end
        | None => Some a
        end ;;
  let a2 := if Nat.eqb (List.length (nodes a1)) 0
            then snd (createNode "lead-source" 320 150 (Some "Start Source")
                                 now a1)
            else a1 in
  Some (saveHistory a2).

(** The page loaded again: the declared state, with the stored item of
    [a]. *)
Definition reloaded (a : App) : App :=
  set_localStorage (localStorage a) initial.

(** ** Drawing the edges *)

(** What [renderEdges] draws for an edge: the end points and the control
    ordinate of the curve, whether it is drawn selected, and the place, the
    text and the box width of the label. *)
Record EdgeView : Type := mkView {
  view_edge : Edge.t;
  x1 : Q; y1 : Q; x2 : Q; y2 : Q;
  cpY : Q;
  view_selected : bool;
  midX : Q; midY : Q;
  text : string;
  box_width : Z
}.

Definition edge_view (a : App) (edge : Edge.t) (s t : Node.t) : EdgeView :=
  let x1 := (inject_Z (Node.x s) + inject_Z (Node.width s) / 2)%Q in
  let y1 := inject_Z (Node.y s + Node.height s) in
  let x2 := (inject_Z (Node.x t) + inject_Z (Node.width t) / 2)%Q in
  let y2 := inject_Z (Node.y t) in
  let cpY := (y1 + (y2 - y1) / 2)%Q in
  let midX := ((x1 + x2) / 2)%Q in
  let midY := ((1 # 8) * y1 + (3 # 4) * cpY + (1 # 8) * y2)%Q in
  let label := if (Edge.label edge =? EmptyString)%string then "+"
               else Edge.label edge in
  let w := Math_max 24 (Z.of_nat (String.length label) * 9 + 12) in
  mkView edge x1 y1 x2 y2 cpY
         (match selectedId (state a) with
          | Some i => (i =? Edge.id edge)%string
          | None => false
          end)
         midX midY label w.

Definition renderEdges (a : App) : list EdgeView :=
  flat_map
    (fun edge =>
       match find (fun n => (Node.id n =? Edge.source edge)%string)
                  (node_objects a),
             find (fun n => (Node.id n =? Edge.target edge)%string)
                  (node_objects a) with
       | Some s, Some t => [edge_view a edge s t]
       | _, _ => []
       end)
    (edges a).

(** ** Node ids *)

(** The id of [n] is one that [createNode] gives: [node-] and a time. *)
Definition issued (n : Node.t) : Prop :=
  exists t, Node.id n = ("node-" ++ toString t)%string.

Definition issued_diagram (d : Diagram) : Prop := Forall issued (d_nodes d).

(** The nodes of the diagram and of every snapshot carry ids that
    [createNode] gave. *)
Record Ids (a : App) : Prop := mkIds {
  ids_nodes : issued_diagram (diagram a);
  ids_undo : stack_of issued_diagram (historyStack a);
  ids_redo : stack_of issued_diagram (redoStack a)
}.

(** * Properties *)

(** ** Arrays *)

Lemma top_push {A} (l : list A) (v : A) : top (push l v) = Some v.
Proof. unfold top, push. now rewrite rev_unit. Qed.

Lemma pop_push {A} (l : list A) (v : A) : pop (push l v) = Some (v, l).
Proof. unfold pop, push. now rewrite rev_unit, rev_involutive. Qed.

Lemma length_push {A} (l : list A) (v : A) :
  List.length (push l v) = S (List.length l).
Proof. unfold push. rewrite length_app. simpl. lia. Qed.

Lemma top_nil_iff {A} (l : list A) : top l = None <-> l = [].
Proof.
  unfold top. split.
  - destruct (rev l) eqn:E; [| discriminate]. intros _.
    apply (f_equal (@rev A)) in E. now rewrite rev_involutive in E.
  - now intros ->.
Qed.

Lemma top_Some_push {A} (l : list A) (v : A) :
  top l = Some v -> exists l', l = push l' v.
Proof.
  unfold top, push. destruct (rev l) as [|u r] eqn:E; [discriminate|].
  intros [= ->]. exists (rev r).
  apply (f_equal (@rev A)) in E. now rewrite rev_involutive in E.
Qed.

Lemma top_shift {A} (l : list A) :
  (2 <= List.length l)%nat -> top (shift l) = top l.
Proof.
  destruct l as [|u [|v r]]; simpl; try lia. intros _.
  unfold top. simpl.
  destruct (rev r) as [|w r'] eqn:E; simpl; [reflexivity|].
  reflexivity.
Qed.

Lemma pop_Some {A} (l : list A) (v : A) (r : list A) :
  pop l = Some (v, r) -> l = push r v.
Proof.
  unfold pop, push. destruct (rev l) as [|u t] eqn:E; [discriminate|].
  intros [= -> <-]. apply (f_equal (@rev A)) in E.
  now rewrite rev_involutive in E.
Qed.

(** ** JSON values *)

Lemma json_eqb_refl (j : json) : json_eqb j j = true.
Proof.
  induction j as [| n | s | l IH | l IH] using json_induction; simpl.
  - reflexivity.
  - apply Z.eqb_refl.
  - apply String.eqb_refl.
  - induction IH as [| u r Hu _ IHr]; [reflexivity|].
    now rewrite Hu, IHr.
  - induction IH as [| [k u] r Hu _ IHr]; [reflexivity|].
    simpl in Hu. now rewrite String.eqb_refl, Hu, IHr.
Qed.

Lemma json_eqb_eq (a b : json) : json_eqb a b = true -> a = b.
Proof.
  revert b.
  induction a as [| n | s | l IH | l IH] using json_induction;
    intros [| m | t | l2 | l2]; simpl; try discriminate.
  - reflexivity.
  - intros H. apply Z.eqb_eq in H. now subst.
  - intros H. apply String.eqb_eq in H. now subst.
  - intros H. f_equal. revert l2 H.
    induction IH as [| u r Hu _ IHr]; intros [| v r2]; try discriminate.
    + reflexivity.
    + intros H. apply andb_true_iff in H as [H1 H2].
      f_equal; [now apply Hu | now apply IHr].
  - intros H. f_equal. revert l2 H.
    induction IH as [| [k u] r Hu _ IHr]; intros [| [k2 v] r2];
      try discriminate.
    + reflexivity.
    + intros H. apply andb_true_iff in H as [H1 H3].
      apply andb_true_iff in H1 as [H1 H2].
      apply String.eqb_eq in H1. simpl in Hu. apply Hu in H2.
      subst. f_equal. now apply IHr.
Qed.

Lemma json_eqb_spec (a b : json) : json_eqb a b = true <-> a = b.
Proof.
  split; [apply json_eqb_eq | intros ->; apply json_eqb_refl].
Qed.

Lemma json_eqb_neq (a b : json) : json_eqb a b = false <-> a <> b.
Proof.
  rewrite <- json_eqb_spec. destruct (json_eqb a b); split; congruence.
Qed.

(** ** Snapshots *)

Lemma node_roundtrip (n : Node.t) : Node.of_json (Node.to_json n) = Some n.
Proof. now destruct n. Qed.

Lemma edge_roundtrip (e : Edge.t) : Edge.of_json (Edge.to_json e) = Some e.
Proof. now destruct e. Qed.

Lemma mapM_roundtrip {A} (enc : A -> json) (dec : json -> option A) :
  (forall v, dec (enc v) = Some v) ->
  forall l, mapM dec (map enc l) = Some l.
Proof.
  intros H. induction l as [| v r IH]; simpl; [reflexivity|].
  now rewrite H, IH.
Qed.

(** [JSON.parse] reads back what [JSON.stringify] wrote. *)
Lemma parse_stringify (d : Diagram) : parse (stringify d) = Some d.
Proof.
  destruct d as [ns es]. unfold parse, stringify. simpl.
  rewrite (mapM_roundtrip _ _ node_roundtrip). simpl.
  now rewrite (mapM_roundtrip _ _ edge_roundtrip).
Qed.

Lemma stringify_inj (d1 d2 : Diagram) :
  stringify d1 = stringify d2 -> d1 = d2.
Proof.
  intros H. apply (f_equal parse) in H.
  rewrite !parse_stringify in H. congruence.
Qed.

Lemma skipn_push {A} (k : nat) (l : list A) (v : A) :
  (k <= List.length l)%nat -> skipn k (push l v) = push (skipn k l) v.
Proof.
  intros H. unfold push. rewrite skipn_app.
  replace (k - List.length l)%nat with O by lia. reflexivity.
Qed.

Lemma top_skipn {A} (k : nat) (l : list A) :
  (k < List.length l)%nat -> top (skipn k l) = top l.
Proof.
  intros H. destruct (top l) as [v|] eqn:E.
  - apply top_Some_push in E as [l' ->]. rewrite length_push in H.
    rewrite skipn_push by lia. apply top_push.
  - apply top_nil_iff in E. subst. simpl in H. lia.
Qed.

(** ** The history manager *)

Lemma commit_test (h : list json) (data : json) :
  (Nat.eqb (List.length h) 0 || top_differs h data)%bool = top_differs h data.
Proof.
  destruct h as [| u r]; [reflexivity|]. reflexivity.
Qed.

Lemma top_differs_false (h : list json) (data : json) :
  top_differs h data = false <-> top h = Some data.
Proof.
  unfold top_differs. destruct (top h) as [t|]; split; try discriminate.
  - intros H. apply negb_false_iff, json_eqb_eq in H. now subst.
  - intros [= ->]. now rewrite json_eqb_refl.
Qed.

Lemma top_differs_true (h : list json) (data : json) :
  top_differs h data = true <-> top h <> Some data.
Proof.
  rewrite <- top_differs_false. destruct (top_differs h data); split; congruence.
Qed.

Lemma saveHistory_skip (a : App) :
  top (historyStack a) = Some (stringify (diagram a)) -> saveHistory a = a.
Proof.
  intros H. unfold saveHistory. rewrite commit_test.
  apply top_differs_false in H. now rewrite H.
Qed.

Lemma saveHistory_record (a : App) :
  top (historyStack a) <> Some (stringify (diagram a)) ->
  saveHistory a =
  persistToBrowser
    (set_historyStack (pushed (historyStack a) (stringify (diagram a)))
       (set_redoStack [] a)).
Proof.
  intros H. unfold saveHistory. rewrite commit_test.
  apply top_differs_true in H. rewrite H. unfold pushed. simpl.
  destruct (Nat.ltb HISTORY_LIMIT _); reflexivity.
Qed.

Lemma saveHistory_diagram (a : App) : diagram (saveHistory a) = diagram a.
Proof.
  unfold saveHistory.
  destruct (_ || _)%bool; [| reflexivity]. simpl.
  destruct (Nat.ltb HISTORY_LIMIT _); reflexivity.
Qed.

Lemma top_pushed (h : list json) (data : json) : top (pushed h data) = Some data.
Proof.
  unfold pushed. destruct (Nat.ltb HISTORY_LIMIT _) eqn:E.
  - apply Nat.ltb_lt in E. unfold HISTORY_LIMIT in E.
    rewrite top_shift by lia. apply top_push.
  - apply top_push.
Qed.

(** After a commit the top of the undo stack is the live diagram. *)
Lemma saveHistory_top (a : App) :
  top (historyStack (saveHistory a)) = Some (stringify (diagram (saveHistory a))).
Proof.
  rewrite saveHistory_diagram.
  destruct (top_differs (historyStack a) (stringify (diagram a))) eqn:E.
  - apply top_differs_true in E. rewrite saveHistory_record by assumption.
    simpl. apply top_pushed.
  - apply top_differs_false in E. now rewrite saveHistory_skip.
Qed.

Lemma pushed_within (h : list json) (data : json) :
  (List.length h <= HISTORY_LIMIT)%nat ->
  pushed h data = skipn (S (List.length h) - HISTORY_LIMIT) (push h data).
Proof.
  intros H. unfold pushed. rewrite length_push.
  destruct (Nat.ltb HISTORY_LIMIT (S (List.length h))) eqn:E.
  - apply Nat.ltb_lt in E.
    replace (S (List.length h) - HISTORY_LIMIT)%nat with 1%nat by lia.
    reflexivity.
  - apply Nat.ltb_ge in E.
    replace (S (List.length h) - HISTORY_LIMIT)%nat with 0%nat by lia.
    reflexivity.
Qed.

Lemma committed_invariant (log : list json) (a : App) :
  committed log a ->
  historyStack a = skipn (List.length log - HISTORY_LIMIT) log.
Proof.
  induction 1 as [a H0 _ | log a b _ IH [Hh _]].
  - now rewrite H0.
  - rewrite <- Hh in IH.
    assert (Hlen : (List.length (historyStack b) <= HISTORY_LIMIT)%nat).
    { rewrite IH, length_skipn. lia. }
    assert (Htop : top (historyStack b) = top log).
    { destruct log as [| u r] eqn:El; [now rewrite IH|].
      rewrite IH. apply top_skipn. simpl. unfold HISTORY_LIMIT. lia. }
    remember (stringify (diagram b)) as data eqn:Ed.
    unfold record. rewrite <- Htop.
    destruct (top (historyStack b)) as [t|] eqn:Et.
    + destruct (json_eqb t data) eqn:E.
      * apply json_eqb_eq in E. subst t.
        rewrite saveHistory_skip by (rewrite Et, Ed; reflexivity). exact IH.
      * apply json_eqb_neq in E.
        rewrite saveHistory_record by (rewrite Et, <- Ed; congruence). simpl.
        rewrite <- Ed, pushed_within by assumption.
        fold (push log data). rewrite length_push.
        rewrite IH at 2. rewrite <- skipn_push by lia.
        rewrite skipn_skipn. f_equal. rewrite IH, length_skipn. lia.
    + symmetry in Htop. apply top_nil_iff in Htop. subst log.
      rewrite saveHistory_record by (rewrite Et; discriminate).
      apply top_nil_iff in Et. simpl. now rewrite Et, <- Ed.
Qed.

(** C3: in every run of commits from the declared stacks the undo stack
    holds at most 50 entries after each commit, and it is the run's record
    without its oldest entries: the last 50 snapshots recorded, in the order
    they were pushed. *)
Theorem history_capacity (log : list json) (a : App) :
  committed log a ->
  (List.length (historyStack a) <= 50)%nat /\
  historyStack a = skipn (List.length log - 50) log.
Proof.
  intros H. apply committed_invariant in H. split; [| exact H].
  rewrite H, length_skipn. unfold HISTORY_LIMIT. lia.
Qed.

Lemma history_capacity_witness :
  committed (record (record [] (stringify (diagram app0)))
                    (stringify (diagram app1))) app1 /\
  (List.length (historyStack app1) <= 50)%nat /\
  historyStack app1 =
  skipn (List.length (record (record [] (stringify (diagram app0)))
                             (stringify (diagram app1))) - 50)
        (record (record [] (stringify (diagram app0)))
                (stringify (diagram app1))).
Proof.
  assert (H : committed (record (record [] (stringify (diagram app0)))
                                (stringify (diagram app1))) app1).
  { unfold app1, drop. rewrite saveHistory_diagram.
    apply committed_step with (a := app0); [| split; reflexivity].
    unfold app0, init. rewrite saveHistory_diagram.
    apply committed_step with (a := initial); [| split; reflexivity].
    apply committed_start; reflexivity. }
  split; [exact H | exact (history_capacity _ _ H)].
Defined.

(** C4: a commit that finds the serialized diagram on top of the undo stack
    changes nothing (no push, redo stack and stored project untouched), and
    a commit right after a commit adds no entry. *)
Theorem commit_collapses (a : App) :
  (top (historyStack a) = Some (stringify (diagram a)) -> saveHistory a = a) /\
  saveHistory (saveHistory a) = saveHistory a.
Proof.
  split; [apply saveHistory_skip|].
  apply saveHistory_skip, saveHistory_top.
Qed.

Lemma commit_collapses_witness :
  top (historyStack app1) = Some (stringify (diagram app1)) /\
  saveHistory app1 = app1.
Proof.
  assert (H : top (historyStack app1) = Some (stringify (diagram app1)))
    by (vm_compute; reflexivity).
  split; [exact H | exact (proj1 (commit_collapses app1) H)].
Defined.

(** ** Undo and redo *)

Lemma map_seq_nth {A} (f : nat -> A) (l : list A) (d : A) (b : nat) :
  (forall i, (i < List.length l)%nat -> f (b + i)%nat = nth i l d) ->
  map f (seq b (List.length l)) = l.
Proof.
  revert b. induction l as [| u r IH]; intros b H; simpl; [reflexivity|].
  f_equal.
  - specialize (H O). simpl in H. rewrite Nat.add_0_r in H. apply H. lia.
  - apply IH. intros i Hi. specialize (H (S i)). simpl in H.
    rewrite Nat.add_succ_r in H. apply H. lia.
Qed.

Lemma applyState_diagram (data : Diagram) (a : App) :
  diagram (applyState data a) = data.
Proof.
  destruct data as [ns es]. unfold diagram, node_objects, applyState. simpl.
  f_equal.
  apply map_seq_nth with (d := store a (fresh a)). intros i Hi.
  replace (Nat.leb (fresh a) (fresh a + i)) with true
    by (symmetry; apply Nat.leb_le; lia).
  replace (Nat.ltb (fresh a + i) (fresh a + List.length ns)) with true
    by (symmetry; apply Nat.ltb_lt; lia).
  simpl. replace (fresh a + i - fresh a)%nat with i by lia.
  now apply nth_indep.
Qed.

Lemma top_pop {A} (l : list A) (v : A) :
  top l = Some v -> exists r, pop l = Some (v, r) /\ l = push r v.
Proof.
  intros H. apply top_Some_push in H as [r ->]. exists r.
  split; [apply pop_push | reflexivity].
Qed.

Lemma redo_step (a : App) (next : json) (d : Diagram) :
  top (redoStack a) = Some next -> parse next = Some d ->
  exists r,
    redoStack a = push r next /\
    redo a =
    Some (applyState d
            (set_historyStack
               (push (historyStack a) (stringify (diagram a)))
               (set_redoStack r a))).
Proof.
  intros Ht Hp. apply top_pop in Ht as (r & Hpop & Hr). exists r.
  split; [exact Hr|]. unfold redo.
  rewrite Hr at 1. rewrite length_push. simpl.
  rewrite Hpop. simpl. now rewrite Hp.
Qed.

(** C9: a redo that changes the diagram leaves the snapshot of the diagram
    it replaced on top of the undo stack, not the one it restored, so that a
    commit issued right after it records a new entry. *)
Theorem redo_leaves_stale_top (a : App) (next : json) (d : Diagram) :
  top (redoStack a) = Some next ->
  parse next = Some d ->
  d <> diagram a ->
  exists a',
    redo a = Some a' /\
    diagram a' = d /\
    top (historyStack a') = Some (stringify (diagram a)) /\
    top (historyStack a') <> Some (stringify (diagram a')) /\
    historyStack (saveHistory a') =
    pushed (historyStack a') (stringify (diagram a')).
Proof.
  intros Ht Hp Hd.
  destruct (redo_step a next d Ht Hp) as (r & _ & Hredo).
  eexists. split; [exact Hredo|].
  rewrite applyState_diagram.
  assert (Htop : top (push (historyStack a) (stringify (diagram a)))
                 <> Some (stringify d)).
  { rewrite top_push. intros E. apply Hd. symmetry.
    apply stringify_inj. congruence. }
  repeat split.
  - simpl. apply top_push.
  - exact Htop.
  - rewrite saveHistory_record
      by (rewrite applyState_diagram; exact Htop).
    simpl. now rewrite applyState_diagram.
Qed.

Lemma redo_leaves_stale_top_witness :
  top (redoStack app2) = Some (stringify (diagram app1)) /\
  parse (stringify (diagram app1)) = Some (diagram app1) /\
  diagram app1 <> diagram app2 /\
  exists a',
    redo app2 = Some a' /\
    diagram a' = diagram app1 /\
    top (historyStack a') = Some (stringify (diagram app2)) /\
    top (historyStack a') <> Some (stringify (diagram a')) /\
    historyStack (saveHistory a') =
    pushed (historyStack a') (stringify (diagram a')).
Proof.
  assert (H1 : top (redoStack app2) = Some (stringify (diagram app1)))
    by (vm_compute; reflexivity).
  assert (H2 : diagram app1 <> diagram app2)
    by (intros E; vm_compute in E; discriminate E).
  split; [exact H1|]. split; [apply parse_stringify|]. split; [exact H2|].
  exact (redo_leaves_stale_top app2 _ _ H1 (parse_stringify _) H2).
Defined.

Lemma undo_step (a : App) (h : list json) (s0 s : json) (d0 : Diagram) :
  historyStack a = push (push h s0) s -> parse s0 = Some d0 ->
  undo a =
  Some (applyState d0
          (set_redoStack (push (redoStack a) s)
             (set_historyStack (push h s0) a))).
Proof.
  intros Hh Hp. unfold undo. rewrite Hh, !length_push, pop_push. simpl.
  rewrite top_push. simpl. now rewrite Hp.
Qed.

(** Right after a commit, undo then redo brings the diagram back, and
    leaves the snapshot below it twice on the undo stack. *)
Lemma undo_redo_after_commit (a : App) (h : list json) (d0 : Diagram) :
  historyStack a = push (push h (stringify d0)) (stringify (diagram a)) ->
  exists a',
    undo_redo a = Some a' /\
    diagram a' = diagram a /\
    historyStack a' = push (push h (stringify d0)) (stringify d0).
Proof.
  intros Hh. unfold undo_redo.
  rewrite (undo_step a _ _ _ d0 Hh (parse_stringify d0)). simpl.
  edestruct (redo_step
               (applyState d0
                  (set_redoStack (push (redoStack a) (stringify (diagram a)))
                     (set_historyStack (push h (stringify d0)) a)))
               (stringify (diagram a)) (diagram a))
    as (r & Hr & Hredo).
  - simpl. apply top_push.
  - apply parse_stringify.
  - eexists. split; [exact Hredo|]. split.
    + apply applyState_diagram.
    + simpl. now rewrite applyState_diagram.
Qed.

(** C1 (evaluation at the failing session): start-up, one node dropped,
    undo, redo; the undo stack then has depth 2, the diagram shows both
    nodes, and a further undo followed by redo shows the start-up diagram
    instead of restoring the one with both nodes. *)
Theorem undo_redo_loses_diagram :
  redo app2 = Some app3 /\
  List.length (historyStack app3) = 2%nat /\
  diagram app3 = diagram app1 /\
  exists a',
    undo_redo app3 = Some a' /\
    diagram a' = diagram app0 /\
    diagram a' <> diagram app3.
Proof.
  split; [vm_compute; reflexivity|].
  split; [vm_compute; reflexivity|].
  split; [vm_compute; reflexivity|].
  eexists. split; [vm_compute; reflexivity|].
  split; [vm_compute; reflexivity|].
  intros E. vm_compute in E. discriminate E.
Qed.

(** ** The graph model *)

Lemma capitalized_empty (type : string) :
  capitalized type = EmptyString <-> type = EmptyString.
Proof.
  destruct type as [| c r]; simpl; split; try reflexivity; discriminate.
Qed.

Lemma default_label_table (type : string) :
  default_label type =
  match assoc type label_table with
  | Some l => l
  | None => capitalized type
  end.
Proof.
  unfold default_label, label_table, assoc, capitalized.
  repeat match goal with
         | |- context [String.eqb type ?k] => destruct (String.eqb type k)
         end; reflexivity.
Qed.

Lemma default_label_empty (type : string) :
  default_label type = EmptyString <-> type = EmptyString.
Proof.
  split.
  - unfold default_label.
    repeat match goal with
           | |- context [String.eqb type ?k] => destruct (String.eqb type k)
           end; try discriminate.
    apply capitalized_empty.
  - now intros ->.
Qed.

Lemma createNode_label (type : string) (x y : Q) (label : option string)
    (now : Z) (a : App) :
  Node.label (created (createNode type x y label now a)) =
  if truthy label then match label with Some l => l | None => EmptyString end
  else default_label type.
Proof.
  unfold created, createNode. destruct (default_size type) as [w h].
  simpl. rewrite Nat.eqb_refl. simpl. now destruct (truthy label).
Qed.

(** C10 as stated fails: created without a label, a node of the empty type
    (what the drop handler reads when the dragged data carries no type) has
    the empty label. *)
Lemma createNode_label_counterexample :
  truthy None = false /\
  Node.label (created (createNode EmptyString 0 0 None 0 initial))
  = EmptyString.
Proof. split; reflexivity. Qed.

(** C10, amended: called with a label that is empty or absent, [createNode]
    gives the node the default label of its type, the fixed name for the
    six types of the table and the capitalized type otherwise; that label
    is empty only for the empty type. *)
Theorem createNode_default_label (type : string) (x y : Q)
    (label : option string) (now : Z) (a : App) :
  truthy label = false ->
  Node.label (created (createNode type x y label now a)) =
    match assoc type label_table with
    | Some l => l
    | None => capitalized type
    end /\
  (Node.label (created (createNode type x y label now a)) = EmptyString
   <-> type = EmptyString).
Proof.
  intros H. rewrite createNode_label, H. split.
  - apply default_label_table.
  - apply default_label_empty.
Qed.

Lemma createNode_default_label_witness :
  truthy None = false /\
  Node.label (created (createNode "decision" 0 0 None 5 initial)) =
    match assoc "decision" label_table with
    | Some l => l
    | None => capitalized "decision"
    end /\
  (Node.label (created (createNode "decision" 0 0 None 5 initial)) = EmptyString
   <-> "decision" = EmptyString).
Proof.
  split; [reflexivity|].
  exact (createNode_default_label "decision" 0 0 None 5 initial eq_refl).
Defined.

Lemma saveHistory_nodes (a : App) : nodes (saveHistory a) = nodes a.
Proof.
  unfold saveHistory. destruct (_ || _)%bool; [| reflexivity]. simpl.
  destruct (Nat.ltb HISTORY_LIMIT _); reflexivity.
Qed.

Lemma saveHistory_edges (a : App) : edges (saveHistory a) = edges a.
Proof.
  unfold saveHistory. destruct (_ || _)%bool; [| reflexivity]. simpl.
  destruct (Nat.ltb HISTORY_LIMIT _); reflexivity.
Qed.

Lemma saveHistory_store (a : App) : store (saveHistory a) = store a.
Proof.
  unfold saveHistory. destruct (_ || _)%bool; [| reflexivity]. simpl.
  destruct (Nat.ltb HISTORY_LIMIT _); reflexivity.
Qed.

Lemma saveHistory_state (a : App) : state (saveHistory a) = state a.
Proof.
  unfold saveHistory. destruct (_ || _)%bool; [| reflexivity]. simpl.
  destruct (Nat.ltb HISTORY_LIMIT _); reflexivity.
Qed.

Lemma relabel_first_endpoints (p : Edge.t -> bool) (v : string)
    (l : list Edge.t) :
  map endpoints (relabel_first p v l) = map endpoints l.
Proof.
  induction l as [| e r IH]; simpl; [reflexivity|].
  destruct (p e); simpl; [reflexivity | now rewrite IH].
Qed.

Lemma closeEditors_nodes (a : App) : nodes (closeEditors a) = nodes a.
Proof.
  unfold closeEditors. simpl.
  destruct (editingItem (state a)) as [[[|] i]|]; simpl; try reflexivity.
  - destruct (find _ (nodes a)); [| reflexivity].
    now rewrite saveHistory_nodes.
  - destruct (find _ (edges a)); [| reflexivity].
    now rewrite saveHistory_nodes.
Qed.

Lemma closeEditors_endpoints (a : App) :
  map endpoints (edges (closeEditors a)) = map endpoints (edges a).
Proof.
  unfold closeEditors. simpl.
  destruct (editingItem (state a)) as [[[|] i]|]; simpl; try reflexivity.
  - destruct (find _ (nodes a)); [| reflexivity].
    now rewrite saveHistory_edges.
  - destruct (find _ (edges a)); [| reflexivity].
    rewrite saveHistory_edges. simpl. apply relabel_first_endpoints.
Qed.

Lemma findIndex_In {A} (p : A -> bool) (l : list A) (v : A) :
  In v l -> p v = true -> exists k, findIndex p l = Some k.
Proof.
  induction l as [| u r IH]; simpl; [tauto|]. intros [-> | H] Hp.
  - rewrite Hp. now exists O.
  - destruct (p u); [now exists O|].
    destruct (IH H Hp) as [k ->]. now exists (S k).
Qed.




Example app_linked_edges :
  edges app_linked = [Edge.mk "edge-3000" "node-1000" "node-2000" EmptyString]
  /\ edges (deleteSelected app_linked) = []
  /\ map Node.id (node_objects (deleteSelected app_linked)) = ["node-2000"].
Proof. vm_compute. repeat split. Qed.

(** ** The connect gesture *)

Lemma lt_spec (a b : Q) : JS.lt a b = true <-> (a < b)%Q.
Proof.
  unfold JS.lt. rewrite negb_true_iff. split.
  - intros H. apply Qnot_le_lt. intros Hle.
    apply Qle_bool_iff in Hle. congruence.
  - intros H. destruct (Qle_bool b a) eqn:E; [| reflexivity].
    apply Qle_bool_iff in E. exfalso. now apply (Qlt_not_le a b).
Qed.

Lemma hit_spec (src : Node.t) (p : Point) (n : Node.t) :
  hit src p n = true <-> candidate src p n.
Proof.
  unfold hit, candidate, inside.
  rewrite !andb_true_iff, !lt_spec, negb_true_iff, String.eqb_neq. tauto.
Qed.

Lemma find_first {A} (p : A -> bool) (l : list A) (v : A) :
  find p l = Some v ->
  exists l1 l2, l = (l1 ++ v :: l2)%list /\ p v = true /\
                forall m, In m l1 -> p m = false.
Proof.
  induction l as [| u r IH]; simpl; [discriminate|].
  destruct (p u) eqn:E.
  - intros [= ->]. exists [], r. simpl. tauto.
  - intros H. destruct (IH H) as (l1 & l2 & -> & Hv & Hl).
    exists (u :: l1), l2. simpl. repeat split; [exact Hv|].
    intros m [-> | Hm]; [exact E | now apply Hl].
Qed.

Lemma mouseup_connecting (rect : DOMRect) (e : MouseEvent) (now : Z)
    (a : App) (t : ref) :
  mode (state a) = CONNECTING -> targetItem (state a) = Some t ->
  exists a',
    mouseup rect e now a = Some a' /\
    edges a' =
    match find (hit (store a t) (getSVGCoords rect e a)) (node_objects a) with
    | Some n =>
        (edges a ++ [Edge.mk ("edge-" ++ toString now)%string (Node.id (store a t))
                             (Node.id n) EmptyString])%list
    | None => edges a
    end.
Proof.
  intros Hm Ht. unfold mouseup, finalizeConnection. rewrite Hm, Ht. simpl.
  destruct (find _ (node_objects a)) as [n|]; simpl.
  - rewrite saveHistory_state. simpl. rewrite Hm. simpl.
    eexists. split; [reflexivity|]. simpl.
    now rewrite !saveHistory_edges.
  - rewrite Hm. simpl. eexists. split; [reflexivity|]. simpl.
    now rewrite saveHistory_edges.
Qed.

(** C5: when a connect gesture is released, if the release point lies
    inside the box of some node with another id than the source, exactly one
    edge is appended, from the source to the first such node in the order of
    [nodes], with the empty label; if it lies inside no such node, the edges
    are as before. *)
Theorem connect_release (rect : DOMRect) (e : MouseEvent) (now : Z)
    (a : App) (t : ref) :
  mode (state a) = CONNECTING ->
  targetItem (state a) = Some t ->
  exists a',
    mouseup rect e now a = Some a' /\
    ((exists n, In n (node_objects a) /\
                candidate (store a t) (getSVGCoords rect e a) n) ->
     exists l1 n l2,
       node_objects a = (l1 ++ n :: l2)%list /\
       candidate (store a t) (getSVGCoords rect e a) n /\
       (forall m, In m l1 ->
                  ~ candidate (store a t) (getSVGCoords rect e a) m) /\
       edges a' =
       (edges a ++ [Edge.mk ("edge-" ++ toString now)%string (Node.id (store a t))
                            (Node.id n) EmptyString])%list) /\
    ((forall n, In n (node_objects a) ->
                ~ candidate (store a t) (getSVGCoords rect e a) n) ->
     edges a' = edges a).
Proof.
  intros Hm Ht.
  destruct (mouseup_connecting rect e now a t Hm Ht) as (a' & Hup & He).
  exists a'. split; [exact Hup|].
  destruct (find _ (node_objects a)) as [n|] eqn:Ef.
  - split.
    + intros _. apply find_first in Ef as (l1 & l2 & Hl & Hn & Hl1).
      exists l1, n, l2. split; [exact Hl|].
      split; [now apply hit_spec|]. split; [| exact He].
      intros m Hin Hc. apply hit_spec in Hc.
      rewrite (Hl1 m Hin) in Hc. discriminate.
    + intros Hnone. apply find_some in Ef as [Hin Hn].
      apply hit_spec in Hn. now destruct (Hnone n Hin).
  - split; [| intros _; exact He].
    intros (n & Hin & Hc). apply hit_spec in Hc.
    rewrite (find_none _ _ Ef n Hin) in Hc. discriminate.
Qed.

Lemma connect_release_witness :
  mode (state app_connecting) = CONNECTING /\
  targetItem (state app_connecting) = Some N0 /\
  exists a',
    mouseup rect0 (mkEvent 510 410) 3000 app_connecting = Some a' /\
    ((exists n, In n (node_objects app_connecting) /\
                candidate (store app_connecting N0)
                  (getSVGCoords rect0 (mkEvent 510 410) app_connecting) n) ->
     exists l1 n l2,
       node_objects app_connecting = (l1 ++ n :: l2)%list /\
       candidate (store app_connecting N0)
         (getSVGCoords rect0 (mkEvent 510 410) app_connecting) n /\
       (forall m, In m l1 ->
                  ~ candidate (store app_connecting N0)
                      (getSVGCoords rect0 (mkEvent 510 410) app_connecting) m) /\
       edges a' =
       (edges app_connecting ++
        [Edge.mk ("edge-" ++ toString 3000)%string
                 (Node.id (store app_connecting N0)) (Node.id n) EmptyString])%list) /\
    ((forall n, In n (node_objects app_connecting) ->
                ~ candidate (store app_connecting N0)
                    (getSVGCoords rect0 (mkEvent 510 410) app_connecting) n) ->
     edges a' = edges app_connecting).
Proof.
  split; [reflexivity|]. split; [reflexivity|].
  exact (connect_release rect0 (mkEvent 510 410) 3000 app_connecting N0
                         eq_refl eq_refl).
Defined.

(** ** Drag and resize *)

Lemma store_write (r : ref) (f : Node.t -> Node.t) (a : App) :
  store (write r f a) r = f (store a r).
Proof. unfold write. simpl. now rewrite Nat.eqb_refl. Qed.

Lemma store_write_other (r r' : ref) (f : Node.t -> Node.t) (a : App) :
  r' <> r -> store (write r f a) r' = store a r'.
Proof.
  intros H. unfold write. simpl. apply Nat.eqb_neq in H. now rewrite H.
Qed.

Lemma mousemove_dragging (rect : DOMRect) (e : MouseEvent) (a : App)
    (t : ref) :
  mode (state a) = DRAGGING -> targetItem (state a) = Some t ->
  exists a',
    mousemove rect e a = Some a' /\
    state a' = state a /\
    store a' t =
    Node.set_y (snap (py (getSVGCoords rect e a) - py (dragOffset (state a))))
      (Node.set_x
         (snap (px (getSVGCoords rect e a) - px (dragOffset (state a))))
         (store a t)).
Proof.
  intros Hm Ht. unfold mousemove. rewrite Hm, Ht. simpl.
  eexists. split; [reflexivity|]. split; [reflexivity|].
  rewrite !store_write. reflexivity.
Qed.

Lemma mousemove_resizing (rect : DOMRect) (e : MouseEvent) (a : App)
    (t : ref) :
  mode (state a) = RESIZING -> targetItem (state a) = Some t ->
  exists a',
    mousemove rect e a = Some a' /\
    state a' = state a /\
    store a' t =
    Node.set_height
      (Math_max 40 (snap (py (getSVGCoords rect e a)
                          - inject_Z (Node.y (store a t)))))
      (Node.set_width
         (Math_max 80 (snap (px (getSVGCoords rect e a)
                             - inject_Z (Node.x (store a t)))))
         (store a t)).
Proof.
  intros Hm Ht. unfold mousemove. rewrite Hm, Ht. simpl.
  eexists. split; [reflexivity|]. split; [reflexivity|].
  simpl. rewrite !Nat.eqb_refl. reflexivity.
Qed.

Lemma moves_dragging (es : list (DOMRect * MouseEvent)) (a : App) (t : ref) :
  mode (state a) = DRAGGING -> targetItem (state a) = Some t ->
  exists a', moves es a = Some a' /\ state a' = state a.
Proof.
  revert a. induction es as [| [rect e] r IH]; intros a Hm Ht; simpl.
  - now exists a.
  - destruct (mousemove_dragging rect e a t Hm Ht) as (a1 & -> & Hs & _).
    simpl. destruct (IH a1) as (a' & Hr & Hs'); try congruence.
    exists a'. split; [exact Hr | congruence].
Qed.

Lemma moves_resizing (es : list (DOMRect * MouseEvent)) (a : App) (t : ref) :
  mode (state a) = RESIZING -> targetItem (state a) = Some t ->
  exists a',
    moves es a = Some a' /\ state a' = state a /\
    Node.x (store a' t) = Node.x (store a t) /\
    Node.y (store a' t) = Node.y (store a t).
Proof.
  revert a. induction es as [| [rect e] r IH]; intros a Hm Ht; simpl.
  - now exists a.
  - destruct (mousemove_resizing rect e a t Hm Ht) as (a1 & -> & Hs & Hst).
    simpl. destruct (IH a1) as (a' & Hr & Hs' & Hx & Hy); try congruence.
    exists a'. split; [exact Hr|]. split; [congruence|].
    rewrite Hx, Hy, Hst. split; reflexivity.
Qed.

Lemma getSVGCoords_state (rect : DOMRect) (e : MouseEvent) (a b : App) :
  zoom (state b) = zoom (state a) ->
  getSVGCoords rect e b = getSVGCoords rect e a.
Proof. intros H. unfold getSVGCoords. now rewrite H. Qed.

Lemma snap_comp (u v : Q) : (u == v)%Q -> snap u = snap v.
Proof.
  intros H. unfold snap, Math_round. now rewrite H.
Qed.

(** C6: all through a drag, whatever moves came before, a pointer move
    puts the target node at [snap] of the pointer's model position minus
    the offset recorded when the drag started, in x and in y; and a node at
    (320,150) dragged at zoom 1 by the pointer delta (13,27) ends at
    (330,180). *)
Theorem drag_follows_pointer :
  (forall (rect0 : DOMRect) (e0 : MouseEvent) (t : ref) (a : App)
          (es : list (DOMRect * MouseEvent)) (rect : DOMRect) (e : MouseEvent),
     exists a2 a3,
       moves es (startDragging rect0 e0 t a) = Some a2 /\
       mousemove rect e a2 = Some a3 /\
       dragOffset (state a2) =
         mkPoint (px (getSVGCoords rect0 e0 a) - inject_Z (Node.x (store a t)))
                 (py (getSVGCoords rect0 e0 a) - inject_Z (Node.y (store a t))) /\
       Node.x (store a3 t) =
         snap (px (getSVGCoords rect e a) - px (dragOffset (state a2))) /\
       Node.y (store a3 t) =
         snap (py (getSVGCoords rect e a) - py (dragOffset (state a2)))) /\
  (forall (rect : DOMRect) (e0 : MouseEvent) (t : ref) (a : App),
     (zoom (state a) == 1)%Q ->
     Node.x (store a t) = 320 -> Node.y (store a t) = 150 ->
     exists a',
       mousemove rect (mkEvent (clientX e0 + 13) (clientY e0 + 27))
                 (startDragging rect e0 t a) = Some a' /\
       Node.x (store a' t) = 330 /\ Node.y (store a' t) = 180).
Proof.
  split.
  - intros rect0 e0 t a es rect e.
    destruct (moves_dragging es (startDragging rect0 e0 t a) t eq_refl eq_refl)
      as (a2 & Hmv & Hs).
    assert (Hm : mode (state a2) = DRAGGING) by now rewrite Hs.
    assert (Ht : targetItem (state a2) = Some t) by now rewrite Hs.
    destruct (mousemove_dragging rect e a2 t Hm Ht) as (a3 & Hmove & _ & Hst).
    exists a2, a3. split; [exact Hmv|]. split; [exact Hmove|].
    assert (Hc : getSVGCoords rect e a2 = getSVGCoords rect e a)
      by (apply getSVGCoords_state; now rewrite Hs).
    rewrite Hst, Hc, Hs. repeat split.
  - intros rect e0 t a Hz Hx Hy.
    destruct (mousemove_dragging rect
                (mkEvent (clientX e0 + 13) (clientY e0 + 27))
                (startDragging rect e0 t a) t eq_refl eq_refl)
      as (a' & Hmove & _ & Hst).
    exists a'. split; [exact Hmove|]. rewrite Hst. simpl.
    rewrite Hx, Hy. split.
    + transitivity (snap 333); [| reflexivity]. apply snap_comp.
      rewrite Hz. change (inject_Z 320) with 320%Q. field.
    + transitivity (snap 177); [| reflexivity]. apply snap_comp.
      rewrite Hz. change (inject_Z 150) with 150%Q. field.
Qed.

Lemma drag_follows_pointer_witness :
  (zoom (state app1) == 1)%Q /\
  Node.x (store app1 N0) = 320 /\ Node.y (store app1 N0) = 150 /\
  exists a',
    mousemove rect0 (mkEvent (clientX (mkEvent 330 160) + 13)
                             (clientY (mkEvent 330 160) + 27))
              (startDragging rect0 (mkEvent 330 160) N0 app1) = Some a' /\
    Node.x (store a' N0) = 330 /\ Node.y (store a' N0) = 180.
Proof.
  split; [reflexivity|]. split; [reflexivity|]. split; [reflexivity|].
  exact (proj2 drag_follows_pointer rect0 (mkEvent 330 160) N0 app1
               (Qeq_refl 1) eq_refl eq_refl).
Defined.

(** C7: all through a resize, whatever moves came before, a pointer move
    sets the width of the target node to the larger of 80 and [snap] of the
    pointer's model x minus the node's x, and its height to the larger of
    40 and [snap] of the pointer's model y minus the node's y; the width is
    then at least 80 and the height at least 40. *)
Theorem resize_keeps_minimum (t : ref) (a : App)
    (es : list (DOMRect * MouseEvent)) (rect : DOMRect) (e : MouseEvent) :
  exists a2 a3,
    moves es (startResizing t a) = Some a2 /\
    mousemove rect e a2 = Some a3 /\
    Node.width (store a3 t) =
      Z.max 80 (snap (px (getSVGCoords rect e a)
                      - inject_Z (Node.x (store a t)))) /\
    Node.height (store a3 t) =
      Z.max 40 (snap (py (getSVGCoords rect e a)
                      - inject_Z (Node.y (store a t)))) /\
    80 <= Node.width (store a3 t) /\
    40 <= Node.height (store a3 t).
Proof.
  destruct (moves_resizing es (startResizing t a) t eq_refl eq_refl)
    as (a2 & Hmv & Hs & Hx & Hy).
  assert (Hm : mode (state a2) = RESIZING) by now rewrite Hs.
  assert (Ht : targetItem (state a2) = Some t) by now rewrite Hs.
  destruct (mousemove_resizing rect e a2 t Hm Ht) as (a3 & Hmove & _ & Hst).
  exists a2, a3. split; [exact Hmv|]. split; [exact Hmove|].
  assert (Hc : getSVGCoords rect e a2 = getSVGCoords rect e a)
    by (apply getSVGCoords_state; now rewrite Hs).
  rewrite Hst, Hc, Hx, Hy. unfold Math_max. simpl.
  repeat split; lia.
Qed.

Example resize_below_minimum :
  exists a',
    mousemove rect0 (mkEvent 330 160) (startResizing N0 app1) = Some a' /\
    Node.width (store a' N0) = 80 /\ Node.height (store a' N0) = 40.
Proof.
  eexists. split; [vm_compute; reflexivity|]. vm_compute. split; reflexivity.
Qed.

(** ** The label editor *)





(** The edit of the label of [edge-3000]: closed, the label is [Yes] and
    the undo stack has one entry more; escaped, the label and the stack are
    as before. *)
Example edit_edge_label :
  edges (closeEditors app_editing) =
    [Edge.mk "edge-3000" "node-1000" "node-2000" "Yes"] /\
  List.length (historyStack (closeEditors app_editing)) =
    S (List.length (historyStack app_editing)) /\
  edges (editor_escape app_editing) = edges app_linked /\
  history (editor_escape app_editing) = history app_linked /\
  editingItem (state (editor_escape app_editing)) = None.
Proof. vm_compute. repeat split. Qed.

(** ** A session at the limit of the undo stack *)

(** The start-up commit and 49 drops fill the stack; the next drop shifts
    the start-up snapshot out and puts its own on top. *)
Example history_at_limit :
  List.length (historyStack (drops 49 app0)) = 50%nat /\
  head (historyStack (drops 49 app0)) = Some (stringify (diagram app0)) /\
  historyStack (drops 50 app0) =
    (tl (historyStack (drops 49 app0))
     ++ [stringify (diagram (drops 50 app0))])%list /\
  List.length (historyStack (drops 60 app0)) = 50%nat.
Proof. vm_compute. repeat split. Qed.

(** ** Snapping *)

Lemma Qfloor_unique (q : Q) (k : Z) :
  (inject_Z k <= q)%Q -> (q < inject_Z (k + 1))%Q -> Qfloor q = k.
Proof.
  intros H1 H2. apply Z.le_antisymm.
  - assert (H : (inject_Z (Qfloor q) < inject_Z (k + 1))%Q).
    { eapply Qle_lt_trans; [apply Qfloor_le | exact H2]. }
    rewrite <- Zlt_Qlt in H. lia.
  - apply Qfloor_resp_le in H1. now rewrite Qfloor_Z in H1.
Qed.

Lemma snap_bounds (v : Q) :
  (inject_Z (snap v) - 5 <= v /\ v < inject_Z (snap v) + 5)%Q.
Proof.
  unfold snap, Math_round, GRID_SIZE.
  pose proof (Qfloor_le (v / inject_Z 10 + (1 # 2))) as H1.
  pose proof (Qlt_floor (v / inject_Z 10 + (1 # 2))) as H2.
  rewrite inject_Z_plus in H2. rewrite inject_Z_mult.
  change (inject_Z 10) with 10%Q in *. change (inject_Z 1) with 1%Q in *.
  unfold Qdiv in *. change (/ 10)%Q with (1 # 10)%Q in *.
  split; lra.
Qed.

Lemma snap_multiple (m : Z) : snap (inject_Z (m * 10)) = m * 10.
Proof.
  unfold snap, Math_round, GRID_SIZE. f_equal.
  apply Qfloor_unique; rewrite ?inject_Z_plus, inject_Z_mult;
    change (inject_Z 10) with 10%Q; change (inject_Z 1) with 1%Q;
    unfold Qdiv; change (/ 10)%Q with (1 # 10)%Q; lra.
Qed.

Lemma divide_snap (v : Q) : (GRID_SIZE | snap v).
Proof. unfold snap. apply Z.divide_factor_r. Qed.

Lemma snap_grid_point (z : Z) : (GRID_SIZE | z) -> snap (inject_Z z) = z.
Proof. intros [m ->]. apply snap_multiple. Qed.

(** X1: [snap] returns the multiple of 10 nearest to its argument, the
    upper one when two are as near: the result is a multiple of 10 and the
    argument lies from 5 below it, included, to 5 above it, excluded. *)
Theorem snap_nearest (v : Q) :
  (10 | snap v) /\
  (inject_Z (snap v) - 5 <= v)%Q /\ (v < inject_Z (snap v) + 5)%Q.
Proof. split; [apply divide_snap | apply snap_bounds]. Qed.

(** X2: [snap] is idempotent, and it leaves every multiple of 10 where it
    is. *)
Theorem snap_idempotent (v : Q) (z : Z) :
  snap (inject_Z (snap v)) = snap v /\
  ((10 | z) -> snap (inject_Z z) = z).
Proof.
  split; [apply snap_grid_point, divide_snap | apply snap_grid_point].
Qed.

Lemma snap_idempotent_witness :
  snap (inject_Z (snap (177 # 1))) = snap (177 # 1) /\
  (10 | 180) /\ snap (inject_Z 180) = 180.
Proof.
  assert (H : (10 | 180)) by (exists 18; reflexivity).
  split; [exact (proj1 (snap_idempotent (177 # 1) 180))|].
  split; [exact H | exact (proj2 (snap_idempotent (177 # 1) 180) H)].
Defined.

(** X3: [snap] is monotone: a larger value is never snapped to a smaller
    one. *)
Theorem snap_monotone (u v : Q) : (u <= v)%Q -> snap u <= snap v.
Proof.
  intros H. unfold snap, Math_round, GRID_SIZE.
  apply Z.mul_le_mono_nonneg_r; [lia|].
  apply Qfloor_resp_le. change (inject_Z 10) with 10%Q.
  unfold Qdiv. change (/ 10)%Q with (1 # 10)%Q. lra.
Qed.

Lemma snap_monotone_witness :
  (174 # 1 <= 175 # 1)%Q /\ snap (174 # 1) <= snap (175 # 1).
Proof.
  assert (H : (174 # 1 <= 175 # 1)%Q) by (vm_compute; discriminate).
  split; [exact H | exact (snap_monotone _ _ H)].
Defined.

(** ** More on the history manager *)

Lemma pushed_two (h : list json) (s d : json) :
  top h = Some s -> exists h', pushed h d = push (push h' s) d.
Proof.
  intros H. apply top_Some_push in H as [h0 ->]. unfold pushed.
  destruct (Nat.ltb HISTORY_LIMIT _) eqn:E; [| now exists h0].
  apply Nat.ltb_lt in E. rewrite !length_push in E. unfold HISTORY_LIMIT in E.
  destruct h0 as [| u r]; [simpl in E; lia|]. now exists r.
Qed.

Lemma redo_empty (a : App) : redoStack a = [] -> redo a = Some a.
Proof. intros H. unfold redo. now rewrite H. Qed.

(** X4: a commit that records a change, made when the snapshot of the
    diagram was on top of the undo stack, is reverted by [undo]: the diagram
    of before the change is back and its snapshot is on top of the undo
    stack, the redo stack holds the snapshot of the change alone, and [redo]
    brings the change back. *)
Theorem undo_reverts_commit (a b : App) :
  top (historyStack a) = Some (stringify (diagram a)) ->
  same_stacks a b ->
  diagram b <> diagram a ->
  exists a',
    undo (saveHistory b) = Some a' /\
    diagram a' = diagram a /\
    top (historyStack a') = Some (stringify (diagram a)) /\
    redoStack a' = [stringify (diagram b)] /\
    exists a'', redo a' = Some a'' /\ diagram a'' = diagram b.
Proof.
  intros Ht [Hh _] Hd. rewrite <- Hh in Ht.
  assert (Hne : top (historyStack b) <> Some (stringify (diagram b))).
  { rewrite Ht. intros E. apply Hd. apply stringify_inj. congruence. }
  destruct (pushed_two _ _ (stringify (diagram b)) Ht) as [h' Hp].
  rewrite (saveHistory_record b Hne).
  erewrite undo_step; [| simpl; exact Hp | apply parse_stringify].
  eexists. split; [reflexivity|].
  split; [apply applyState_diagram|].
  split; [simpl; apply top_push|].
  split; [reflexivity|].
  edestruct redo_step as (r & _ & Hredo);
    [| apply (parse_stringify (diagram b)) |].
  2: { eexists. split; [exact Hredo | apply applyState_diagram]. }
  simpl. reflexivity.
Qed.

Lemma undo_reverts_commit_witness :
  top (historyStack app0) = Some (stringify (diagram app0)) /\
  same_stacks app0 (snd (createNode "decision" 500 400 None 2000 app0)) /\
  diagram (snd (createNode "decision" 500 400 None 2000 app0))
  <> diagram app0 /\
  exists a',
    undo (saveHistory (snd (createNode "decision" 500 400 None 2000 app0)))
    = Some a' /\
    diagram a' = diagram app0 /\
    top (historyStack a') = Some (stringify (diagram app0)) /\
    redoStack a'
    = [stringify (diagram (snd (createNode "decision" 500 400 None 2000
                                           app0)))] /\
    exists a'', redo a' = Some a'' /\
                diagram a''
                = diagram (snd (createNode "decision" 500 400 None 2000 app0)).
Proof.
  assert (H1 : top (historyStack app0) = Some (stringify (diagram app0)))
    by (vm_compute; reflexivity).
  assert (H2 : same_stacks app0
                 (snd (createNode "decision" 500 400 None 2000 app0)))
    by (split; reflexivity).
  assert (H3 : diagram (snd (createNode "decision" 500 400 None 2000 app0))
               <> diagram app0)
    by (intros E; vm_compute in E; discriminate E).
  split; [exact H1|]. split; [exact H2|]. split; [exact H3|].
  exact (undo_reverts_commit app0 _ H1 H2 H3).
Defined.

Lemma record_no_repeat (log : list json) (data : json) :
  no_repeat log -> no_repeat (record log data).
Proof.
  intros H. unfold record.
  destruct (top log) as [t|] eqn:Et.
  - destruct (json_eqb t data) eqn:E; [exact H|].
    apply json_eqb_neq in E. apply top_Some_push in Et as [l ->].
    intros l1 u v l2 Hl. unfold push in Hl.
    destruct l2 as [| w l2] using rev_ind.
    + replace (l1 ++ [u; v])%list with ((l1 ++ [u]) ++ [v])%list in Hl
        by now rewrite <- app_assoc.
      apply app_inj_tail in Hl as [Hl <-].
      apply app_inj_tail in Hl as [_ <-]. exact E.
    + clear IHl2.
      replace (l1 ++ u :: v :: l2 ++ [w])%list
        with ((l1 ++ u :: v :: l2) ++ [w])%list in Hl
        by (rewrite <- app_assoc; reflexivity).
      apply app_inj_tail in Hl as [Hl _]. now apply (H l1 u v l2).
  - apply top_nil_iff in Et. subst log. simpl.
    intros [| x [| y l1]] u v l2 Hl; simpl in Hl; discriminate.
Qed.

Lemma no_repeat_skipn (k : nat) (l : list json) :
  no_repeat l -> no_repeat (skipn k l).
Proof.
  intros H l1 u v l2 Hl. apply (H (firstn k l ++ l1)%list u v l2).
  rewrite <- app_assoc, <- Hl. symmetry. apply firstn_skipn.
Qed.

Lemma committed_log_no_repeat (log : list json) (a : App) :
  committed log a -> no_repeat log.
Proof.
  induction 1 as [a _ _ | log a b _ IH _].
  - intros [| x l1] u v l2 Hl; discriminate.
  - now apply record_no_repeat.
Qed.

(** X5: in a run of commits no entry of the undo stack is followed by an
    equal one: each [undo] of such a run changes the diagram. *)
Theorem committed_no_repeat (log : list json) (a : App) :
  committed log a -> no_repeat (historyStack a).
Proof.
  intros H. rewrite (committed_invariant log a H). apply no_repeat_skipn.
  exact (committed_log_no_repeat log a H).
Qed.

Lemma app1_committed :
  committed (record (record [] (stringify (diagram app0)))
                    (stringify (diagram app1))) app1.
Proof.
  unfold app1, drop. rewrite saveHistory_diagram.
  apply committed_step with (a := app0); [| split; reflexivity].
  unfold app0, init. rewrite saveHistory_diagram.
  apply committed_step with (a := initial); [| split; reflexivity].
  apply committed_start; reflexivity.
Qed.

Lemma committed_no_repeat_witness :
  committed (record (record [] (stringify (diagram app0)))
                    (stringify (diagram app1))) app1 /\
  no_repeat (historyStack app1).
Proof.
  split; [exact app1_committed|].
  exact (committed_no_repeat _ _ app1_committed).
Defined.

(** X6: [redo] followed by [undo], when the snapshot of the diagram is on
    top of the undo stack: the diagram and the undo stack are as before, but
    on the redo stack the snapshot that was redone has been replaced by the
    snapshot of the diagram. *)
Theorem redo_then_undo (a : App) (next : json) (d : Diagram) :
  top (redoStack a) = Some next ->
  parse next = Some d ->
  top (historyStack a) = Some (stringify (diagram a)) ->
  exists r a',
    redoStack a = push r next /\
    redo_undo a = Some a' /\
    diagram a' = diagram a /\
    historyStack a' = historyStack a /\
    redoStack a' = push r (stringify (diagram a)).
Proof.
  intros Hr Hp Ht.
  destruct (redo_step a next d Hr Hp) as (r & Hrs & Hredo).
  apply top_Some_push in Ht as [h Hh].
  exists r. eexists. split; [exact Hrs|].
  unfold redo_undo. rewrite Hredo. simpl.
  erewrite undo_step;
    [| simpl; rewrite Hh; reflexivity | apply parse_stringify].
  split; [reflexivity|].
  split; [apply applyState_diagram|].
  split; [simpl; now rewrite Hh | reflexivity].
Qed.

Lemma redo_then_undo_witness :
  top (redoStack app2) = Some (stringify (diagram app1)) /\
  parse (stringify (diagram app1)) = Some (diagram app1) /\
  top (historyStack app2) = Some (stringify (diagram app2)) /\
  exists r a',
    redoStack app2 = push r (stringify (diagram app1)) /\
    redo_undo app2 = Some a' /\
    diagram a' = diagram app2 /\
    historyStack a' = historyStack app2 /\
    redoStack a' = push r (stringify (diagram app2)).
Proof.
  assert (H1 : top (redoStack app2) = Some (stringify (diagram app1)))
    by (vm_compute; reflexivity).
  assert (H3 : top (historyStack app2) = Some (stringify (diagram app2)))
    by (vm_compute; reflexivity).
  split; [exact H1|]. split; [apply parse_stringify|]. split; [exact H3|].
  exact (redo_then_undo app2 _ _ H1 (parse_stringify _) H3).
Defined.

(** ** Invariants of a session *)

Lemma well_sized_label (v : string) (n : Node.t) :
  well_sized n -> well_sized (Node.set_label v n).
Proof. now destruct n. Qed.

Lemma well_sized_move (vx vy : Q) (n : Node.t) :
  well_sized n -> well_sized (Node.set_y (snap vy) (Node.set_x (snap vx) n)).
Proof.
  destruct n. unfold well_sized. simpl. intros (_ & _ & H).
  split; [apply divide_snap|]. split; [apply divide_snap | exact H].
Qed.

Lemma well_sized_resize (vx vy : Q) (n : Node.t) :
  well_sized n ->
  well_sized (Node.set_height (Math_max 40 (snap vy))
                (Node.set_width (Math_max 80 (snap vx)) n)).
Proof.
  destruct n. unfold well_sized, Math_max. simpl. intros (Hx & Hy & _).
  split; [exact Hx|]. split; [exact Hy|].
  assert (D : forall m v, (GRID_SIZE | m) -> (GRID_SIZE | Z.max m (snap v))).
  { intros m v Hm. destruct (Z.max_spec m (snap v)) as [[_ ->] | [_ ->]];
      [apply divide_snap | exact Hm]. }
  split; [apply D; now exists 8|]. split; [apply D; now exists 4|]. lia.
Qed.

Lemma default_size_ok (type : string) :
  (GRID_SIZE | fst (default_size type)) /\ (GRID_SIZE | snd (default_size type))
  /\ 80 <= fst (default_size type) /\ 40 <= snd (default_size type).
Proof.
  unfold default_size, GRID_SIZE.
  repeat match goal with
         | |- context [String.eqb type ?k] => destruct (String.eqb type k)
         end; simpl;
    (split; [apply Z.mod_divide; [discriminate | reflexivity]|]);
    (split; [apply Z.mod_divide; [discriminate | reflexivity]|]); lia.
Qed.

Lemma saveHistory_shape (a : App) :
  exists h r ls,
    saveHistory a =
    mkApp (store a) (fresh a) (nodes a) (edges a) h r (state a)
          (nodeEditor a) (edgeEditor a) ls /\
    top h = Some (stringify (diagram a)) /\
    (forall j, In j h -> In j (historyStack a) \/ j = stringify (diagram a)) /\
    (forall j, In j r -> In j (redoStack a)).
Proof.
  destruct (top_differs (historyStack a) (stringify (diagram a))) eqn:E.
  - apply top_differs_true in E. rewrite (saveHistory_record a E).
    do 3 eexists. split; [reflexivity|]. split; [apply top_pushed|].
    split; [| intros j []].
    intros j Hj. unfold pushed, shift, push in Hj.
    destruct (Nat.ltb HISTORY_LIMIT _).
    + destruct (historyStack a ++ [stringify (diagram a)])%list eqn:El;
        [destruct Hj|].
      assert (Hin : In j (historyStack a ++ [stringify (diagram a)])%list)
        by (rewrite El; now right).
      apply in_app_iff in Hin as [Hin | [<- | []]]; auto.
    + apply in_app_iff in Hj as [Hin | [<- | []]]; auto.
  - apply top_differs_false in E. rewrite (saveHistory_skip a E).
    exists (historyStack a), (redoStack a), (localStorage a).
    split; [now destruct a|]. split; [exact E|]. split; auto.
Qed.

Lemma top_not_nil {A} (l : list A) (v : A) : top l = Some v -> l <> [].
Proof. intros H ->. discriminate. Qed.

Lemma saveHistory_Inv (a : App) :
  Forall (fun r => (r < fresh a)%nat) (nodes a) ->
  (mode (state a) <> IDLE -> exists t, targetItem (state a) = Some t) ->
  (mode (state a) = IDLE -> targetItem (state a) = None) ->
  mode (state a) <> PANNING ->
  well_sized_stack (historyStack a) ->
  well_sized_stack (redoStack a) ->
  well_sized_diagram (diagram a) ->
  editors_follow a ->
  projectName (state a) <> EmptyString ->
  Inv (saveHistory a).
Proof.
  intros I1 I2 I2b I3 I5 I6 I7 I8 I9.
  destruct (saveHistory_shape a) as (h & r & ls & -> & Ht & Hh & Hr).
  constructor; simpl; try assumption.
  - eapply top_not_nil; eassumption.
  - apply Forall_forall. intros j Hj. destruct (Hh j Hj) as [Hin | ->].
    + unfold well_sized_stack, stack_of in I5. rewrite Forall_forall in I5.
      now apply I5.
    + eexists. split; [reflexivity | exact I7].
  - apply Forall_forall. intros j Hj. apply Hr in Hj.
    unfold well_sized_stack, stack_of in I6. rewrite Forall_forall in I6.
    now apply I6.
Qed.

Lemma Inv_saveHistory (a : App) : Inv a -> Inv (saveHistory a).
Proof. intros []. now apply saveHistory_Inv. Qed.

Lemma node_objects_write (r : ref) (f : Node.t -> Node.t) (a : App) :
  (forall n, well_sized n -> well_sized (f n)) ->
  well_sized_diagram (diagram a) -> well_sized_diagram (diagram (write r f a)).
Proof.
  intros Hf H. unfold well_sized_diagram, diagram, node_objects in *.
  simpl in *. rewrite Forall_map in *. rewrite Forall_forall in *.
  intros r' Hr'. destruct (Nat.eqb r' r) eqn:E.
  - apply Nat.eqb_eq in E. subst r'. apply Hf. now apply H.
  - now apply H.
Qed.

Lemma Inv_write (r : ref) (f : Node.t -> Node.t) (a : App) :
  (forall n, well_sized n -> well_sized (f n)) ->
  Inv a -> Inv (write r f a).
Proof.
  intros Hf I. pose proof (node_objects_write r f a Hf (inv_nodes a I)) as H.
  destruct I. constructor; try assumption.
Qed.

Lemma closeEditors_cases (a : App) :
  exists a1,
    closeEditors a = end_session a1 /\
    (a1 = a \/
     (exists r, a1 = saveHistory
                       (write r (Node.set_label (value (nodeEditor a))) a)) \/
     (exists p, a1 = saveHistory
                       (set_edges
                          (relabel_first p (value (edgeEditor a)) (edges a))
                          a))).
Proof.
  unfold closeEditors.
  destruct (editingItem (state a)) as [[[|] i]|]; simpl.
  - destruct (find _ (nodes a)) as [r|]; eexists; (split; [reflexivity|]);
      [right; left; now exists r | now left].
  - destruct (find _ (edges a)); eexists; (split; [reflexivity|]);
      [right; right; eexists; reflexivity | now left].
  - exists a. split; [reflexivity | now left].
Qed.

Lemma Inv_set_edges (es : list Edge.t) (a : App) : Inv a -> Inv (set_edges es a).
Proof. intros []. constructor; assumption. Qed.

Lemma Inv_end_session (a : App) : Inv a -> Inv (end_session a).
Proof.
  intros []. constructor; try assumption. unfold editors_follow. simpl. tauto.
Qed.

Lemma Inv_closeEditors (a : App) : Inv a -> Inv (closeEditors a).
Proof.
  intros I. destruct (closeEditors_cases a) as (a1 & -> & H).
  apply Inv_end_session.
  destruct H as [-> | [[r ->] | [p ->]]]; [exact I | |].
  - apply Inv_saveHistory, Inv_write; [| exact I].
    intros n. apply well_sized_label.
  - apply Inv_saveHistory, Inv_set_edges, I.
Qed.

Lemma Inv_set_state (s : State) (a : App) :
  Inv a ->
  (mode s <> IDLE -> exists t, targetItem s = Some t) ->
  (mode s = IDLE -> targetItem s = None) ->
  mode s <> PANNING ->
  editingItem s = editingItem (state a) ->
  projectName s <> EmptyString ->
  Inv (set_state s a).
Proof.
  intros [] H1 H1b H2 H3 H4. constructor; try assumption.
  unfold editors_follow in *. simpl. now rewrite H3.
Qed.

Lemma Inv_select_id (v : option string) (a : App) : Inv a -> Inv (select_id v a).
Proof. intros I. apply Inv_set_state; try apply I. reflexivity. Qed.

Lemma Inv_persist (a : App) : Inv a -> Inv (persistToBrowser a).
Proof. intros []. constructor; assumption. Qed.

Lemma Inv_set_historyStack (h : list json) (a : App) :
  Inv a -> h <> [] -> well_sized_stack h -> Inv (set_historyStack h a).
Proof. intros [] H1 H2. constructor; assumption. Qed.

Lemma Inv_set_redoStack (r : list json) (a : App) :
  Inv a -> well_sized_stack r -> Inv (set_redoStack r a).
Proof. intros [] H. constructor; assumption. Qed.

Lemma Inv_set_nodes (ns : list ref) (a : App) :
  Inv a -> (forall r, In r ns -> In r (nodes a)) -> Inv (set_nodes ns a).
Proof.
  intros [I1 I2 I2b I3 I4 I5 I6 I7 I8 I9] H. constructor; try assumption.
  - rewrite Forall_forall in *. intros r Hr. simpl. now apply I1, H.
  - unfold well_sized_diagram, diagram, node_objects in *. simpl in *.
    rewrite Forall_map in *. rewrite Forall_forall in *.
    intros r Hr. now apply I7, H.
Qed.

Lemma Inv_applyState (d : Diagram) (a : App) :
  Inv a -> well_sized_diagram d -> Inv (applyState d a).
Proof.
  intros I Hd. pose proof (applyState_diagram d a) as E.
  destruct I as [I1 I2 I2b I3 I4 I5 I6 I7 I8 I9].
  constructor; try assumption.
  - unfold applyState. simpl. apply Forall_forall. intros r Hr.
    apply in_seq in Hr. lia.
  - now rewrite E.
Qed.

Lemma stack_of_push (P : Diagram -> Prop) (l : list json) (d : Diagram) :
  stack_of P l -> P d -> stack_of P (push l (stringify d)).
Proof.
  intros Hl Hd. apply Forall_app. split; [exact Hl|].
  constructor; [| constructor]. now exists d.
Qed.

Lemma stack_of_push_inv (P : Diagram -> Prop) (l : list json) (s : json) :
  stack_of P (push l s) ->
  stack_of P l /\ exists d, s = stringify d /\ P d.
Proof.
  intros H. apply Forall_app in H as [Hl Hs]. split; [exact Hl|].
  now inversion Hs.
Qed.

Lemma undo_shape (P : Diagram -> Prop) (a : App) :
  stack_of P (historyStack a) ->
  ((List.length (historyStack a) <= 1)%nat /\ undo a = Some a) \/
  exists h d0 s,
    historyStack a = push (push h (stringify d0)) s /\
    P d0 /\
    undo a =
    Some (applyState d0
            (set_redoStack (push (redoStack a) s)
               (set_historyStack (push h (stringify d0)) a))).
Proof.
  intros H.
  destruct (historyStack a) as [| s l _] eqn:E using rev_ind.
  - left. split; [simpl; lia|]. unfold undo. now rewrite E.
  - destruct l as [| s0 h _] using rev_ind.
    + left. split; [simpl; lia|]. unfold undo. now rewrite E.
    + right. fold (push h s0) in *. fold (push (push h s0) s) in *.
      apply stack_of_push_inv in H as [H _].
      apply stack_of_push_inv in H as [_ (d0 & -> & Hd)].
      exists h, d0, s. split; [reflexivity|]. split; [exact Hd|].
      apply undo_step; [exact E | apply parse_stringify].
Qed.

Lemma redo_shape (P : Diagram -> Prop) (a : App) :
  stack_of P (redoStack a) ->
  (redoStack a = [] /\ redo a = Some a) \/
  exists r d,
    redoStack a = push r (stringify d) /\
    P d /\
    redo a =
    Some (applyState d
            (set_historyStack
               (push (historyStack a) (stringify (diagram a)))
               (set_redoStack r a))).
Proof.
  intros H.
  destruct (redoStack a) as [| s r _] eqn:E using rev_ind.
  - left. split; [reflexivity | now apply redo_empty].
  - right. fold (push r s) in *.
    apply stack_of_push_inv in H as [_ (d & -> & Hd)].
    exists r, d. split; [reflexivity|]. split; [exact Hd|].
    destruct (redo_step a (stringify d) d) as (r' & Hr & Hredo).
    + rewrite E. apply top_push.
    + apply parse_stringify.
    + rewrite E in Hr. apply app_inj_tail in Hr as [-> _]. exact Hredo.
Qed.

Lemma push_not_nil {A} (l : list A) (v : A) : push l v <> [].
Proof. unfold push. now destruct l. Qed.

Lemma undo_Inv (a : App) : Inv a -> exists a', undo a = Some a' /\ Inv a'.
Proof.
  intros I. destruct (undo_shape _ a (inv_undo a I))
    as [[_ ->] | (h & d0 & s & E & Hd & ->)]; [now exists a|].
  eexists. split; [reflexivity|].
  pose proof (inv_undo a I) as Hu. rewrite E in Hu.
  apply stack_of_push_inv in Hu as [Hu (d & -> & Hs)].
  apply Inv_applyState; [| exact Hd].
  apply Inv_set_redoStack;
    [| apply stack_of_push; [apply I | exact Hs]].
  apply Inv_set_historyStack; [exact I | apply push_not_nil | exact Hu].
Qed.

Lemma redo_Inv (a : App) : Inv a -> exists a', redo a = Some a' /\ Inv a'.
Proof.
  intros I. destruct (redo_shape _ a (inv_redo a I))
    as [[_ ->] | (r & d & E & Hd & ->)]; [now exists a|].
  eexists. split; [reflexivity|].
  pose proof (inv_redo a I) as Hr. rewrite E in Hr.
  apply stack_of_push_inv in Hr as [Hr _].
  apply Inv_applyState; [| exact Hd].
  apply Inv_set_historyStack; [| apply push_not_nil |].
  - now apply Inv_set_redoStack.
  - apply stack_of_push; apply I.
Qed.

Lemma splice1_In {A} (k : nat) (l : list A) (v : A) :
  In v (splice1 k l) -> In v l.
Proof.
  revert k. induction l as [| u r IH]; intros [| k]; simpl; auto.
  intros [-> | H]; [now left | right; eauto].
Qed.

Lemma createNode_Inv (type : string) (x y : Q) (label : option string)
    (now : Z) (a : App) :
  Forall (fun r => (r < fresh a)%nat) (nodes a) ->
  well_sized_diagram (diagram a) ->
  Forall (fun r => (r < fresh (snd (createNode type x y label now a)))%nat)
         (nodes (snd (createNode type x y label now a))) /\
  well_sized_diagram (diagram (snd (createNode type x y label now a))).
Proof.
  intros I1 I7. unfold createNode.
  pose proof (default_size_ok type) as Hs.
  destruct (default_size type) as [w h]. simpl in *. split.
  - apply Forall_app. split.
    + eapply Forall_impl; [| exact I1]. simpl. lia.
    + constructor; [lia | constructor].
  - unfold well_sized_diagram, diagram, node_objects in *. simpl in *.
    rewrite Forall_map in *. apply Forall_app. split.
    + rewrite Forall_forall in *. intros r Hr.
      specialize (I1 r Hr). specialize (I7 r Hr).
      replace (Nat.eqb r (fresh a)) with false
        by (symmetry; apply Nat.eqb_neq; lia). exact I7.
    + constructor; [| constructor]. rewrite Nat.eqb_refl.
      unfold well_sized. simpl.
      split; [apply divide_snap|]. split; [apply divide_snap|]. tauto.
Qed.

Lemma Inv_createNode (type : string) (x y : Q) (label : option string)
    (now : Z) (a : App) :
  Inv a -> Inv (snd (createNode type x y label now a)).
Proof.
  intros I.
  destruct (createNode_Inv type x y label now a (inv_refs a I) (inv_nodes a I))
    as [H1 H7].
  destruct I as [I1 I2 I2b I3 I4 I5 I6 I7 I8 I9].
  constructor; try assumption;
    unfold createNode in *; destruct (default_size type); simpl in *;
    assumption.
Qed.

Lemma Inv_deleteSelected (a : App) : Inv a -> Inv (deleteSelected a).
Proof.
  intros I. unfold deleteSelected.
  destruct (negb (truthy (selectedId (state a)))); [exact I|].
  apply Inv_saveHistory, Inv_closeEditors.
  match goal with
  | |- Inv (set_state (set_selectedId None (state ?x)) ?x) =>
      apply (Inv_select_id None x)
  end.
  destruct (findIndex _ (node_objects a)) as [k|].
  - apply Inv_set_edges, Inv_set_nodes; [exact I|].
    intros r. apply splice1_In.
  - destruct (findIndex _ (edges a)); [apply Inv_set_edges|]; exact I.
Qed.

Lemma well_sized_set_x (v : Q) (n : Node.t) :
  well_sized n -> well_sized (Node.set_x (snap v) n).
Proof.
  destruct n. unfold well_sized. simpl. intros (_ & H).
  split; [apply divide_snap | exact H].
Qed.

Lemma well_sized_set_y (v : Q) (n : Node.t) :
  well_sized n -> well_sized (Node.set_y (snap v) n).
Proof.
  destruct n. unfold well_sized. simpl. intros (Hx & _ & H).
  split; [exact Hx|]. split; [apply divide_snap | exact H].
Qed.

Lemma divide_max_snap (m : Z) (v : Q) :
  (GRID_SIZE | m) -> (GRID_SIZE | Math_max m (snap v)).
Proof.
  intros Hm. unfold Math_max.
  destruct (Z.max_spec m (snap v)) as [[_ ->] | [_ ->]];
    [apply divide_snap | exact Hm].
Qed.

Lemma well_sized_set_width (v : Q) (n : Node.t) :
  well_sized n -> well_sized (Node.set_width (Math_max 80 (snap v)) n).
Proof.
  destruct n. unfold well_sized. simpl. intros (Hx & Hy & _ & Hh & _ & H).
  split; [exact Hx|]. split; [exact Hy|].
  split; [apply divide_max_snap; now exists 8|]. split; [exact Hh|].
  split; [unfold Math_max; lia | exact H].
Qed.

Lemma well_sized_set_height (v : Q) (n : Node.t) :
  well_sized n -> well_sized (Node.set_height (Math_max 40 (snap v)) n).
Proof.
  destruct n. unfold well_sized. simpl. intros (Hx & Hy & Hw & _ & H & _).
  split; [exact Hx|]. split; [exact Hy|]. split; [exact Hw|].
  split; [apply divide_max_snap; now exists 4|].
  split; [exact H | unfold Math_max; lia].
Qed.

Lemma mousemove_Inv (rect : DOMRect) (e : MouseEvent) (a : App) :
  Inv a -> exists a', mousemove rect e a = Some a' /\ Inv a'.
Proof.
  intros I. unfold mousemove.
  destruct (mode (state a)) eqn:Em; simpl; try (now exists a).
  - destruct (inv_target a I) as [t Ht]; [congruence|]. rewrite Ht. simpl.
    eexists. split; [reflexivity|].
    apply Inv_write; [intros n; apply well_sized_set_y|].
    apply Inv_write; [intros n; apply well_sized_set_x | exact I].
  - destruct (inv_target a I) as [t Ht]; [congruence|]. rewrite Ht. simpl.
    eexists. split; [reflexivity|].
    apply Inv_write; [intros n; apply well_sized_set_height|].
    apply Inv_write; [intros n; apply well_sized_set_width | exact I].
  - destruct (inv_target a I) as [t Ht]; [congruence|]. rewrite Ht. simpl.
    now exists a.
Qed.

Lemma Inv_idle (a : App) :
  Inv a -> Inv (set_state (set_targetItem None (set_mode IDLE (state a))) a).
Proof.
  intros I. apply Inv_set_state; try apply I; simpl; congruence.
Qed.

Lemma mouseup_Inv (rect : DOMRect) (e : MouseEvent) (now : Z) (a : App) :
  Inv a -> exists a', mouseup rect e now a = Some a' /\ Inv a'.
Proof.
  intros I. unfold mouseup.
  destruct (mode (state a)) eqn:Em; simpl.
  - rewrite Em. simpl. eexists. split; [reflexivity | now apply Inv_idle].
  - rewrite Em. simpl. eexists. split; [reflexivity|].
    now apply Inv_idle, Inv_saveHistory.
  - rewrite Em. simpl. eexists. split; [reflexivity|].
    now apply Inv_idle, Inv_saveHistory.
  - unfold finalizeConnection.
    destruct (inv_target a I) as [t Ht]; [congruence|]. rewrite Ht.
    destruct (find _ (node_objects a)); simpl.
    + rewrite saveHistory_state. simpl. rewrite Em. simpl.
      eexists. split; [reflexivity|].
      now apply Inv_idle, Inv_saveHistory, Inv_saveHistory, Inv_set_edges.
    + rewrite Em. simpl. eexists. split; [reflexivity|].
      now apply Inv_idle, Inv_saveHistory.
  - now destruct (inv_mode a I).
Qed.

Lemma Inv_startDragging (rect : DOMRect) (e : MouseEvent) (node : ref)
    (a : App) : Inv a -> Inv (startDragging rect e node a).
Proof.
  intros I. unfold startDragging.
  assert (I1 : Inv (set_state
                      (set_targetItem (Some node) (set_mode DRAGGING (state a)))
                      a)).
  { apply Inv_set_state; simpl; try apply I; try congruence.
    intros _. now exists node. }
  apply Inv_set_state; simpl; try apply I; try congruence.
  intros _. now exists node.
Qed.

Lemma Inv_startResizing (node : ref) (a : App) :
  Inv a -> Inv (startResizing node a).
Proof.
  intros I. apply Inv_set_state; simpl; try apply I; try congruence.
  intros _. now exists node.
Qed.

Lemma Inv_startConnecting (node : ref) (a : App) :
  Inv a -> Inv (startConnecting node a).
Proof.
  intros I. apply Inv_set_state; simpl; try apply I; try congruence.
  intros _. now exists node.
Qed.

Lemma Inv_node_mousedown (rect : DOMRect) (e : MouseEvent) (node : ref)
    (a : App) : Inv a -> Inv (node_mousedown rect e node a).
Proof.
  intros I. unfold node_mousedown.
  pose proof (Inv_select_id (Some (Node.id (store a node))) a I) as I'.
  unfold select_id in I'.
  destruct (activeTool _);
    [now apply Inv_startDragging | now apply Inv_startConnecting].
Qed.

Lemma closeEditors_session (a : App) : editingItem (state (closeEditors a)) = None.
Proof. reflexivity. Qed.

Lemma Inv_openNodeEditor (node : ref) (a : App) :
  Inv a -> Inv (openNodeEditor node a).
Proof.
  intros I. unfold openNodeEditor.
  destruct (same_item a _); [exact I|].
  pose proof (Inv_closeEditors a I) as I1.
  pose proof (inv_editors _ I1) as He. unfold editors_follow in He.
  rewrite closeEditors_session in He. destruct He as [_ He].
  destruct I1 as [I1 I2 I2b I3 I4 I5 I6 I7 I8 I9].
  constructor; try assumption.
  unfold editors_follow. simpl. split; [reflexivity | exact He].
Qed.

Lemma Inv_openEdgeEditor (edge : Edge.t) (a : App) :
  Inv a -> Inv (openEdgeEditor edge a).
Proof.
  intros I. unfold openEdgeEditor.
  destruct (same_item a _); [exact I|].
  pose proof (Inv_closeEditors a I) as I1.
  pose proof (inv_editors _ I1) as He. unfold editors_follow in He.
  rewrite closeEditors_session in He. destruct He as [He _].
  destruct I1 as [I1 I2 I2b I3 I4 I5 I6 I7 I8 I9].
  constructor; try assumption.
  unfold editors_follow. simpl. split; [exact He | reflexivity].
Qed.

Lemma editor_escape_end (a : App) : editor_escape a = end_session a.
Proof. reflexivity. Qed.

Lemma Inv_type_node_text (v : string) (a : App) :
  Inv a -> Inv (type_node_text v a).
Proof. intros []. constructor; assumption. Qed.

Lemma Inv_type_edge_text (v : string) (a : App) :
  Inv a -> Inv (type_edge_text v a).
Proof. intros []. constructor; assumption. Qed.

Lemma Inv_keydown (ev : KeyEvent) (active : string) (a : App) :
  Inv a -> exists a', keydown ev active a = Some a' /\ Inv a'.
Proof.
  intros I. unfold keydown.
  set (a1 := if (code ev =? "Space")%string then _ else a).
  assert (I1 : Inv a1).
  { unfold a1. destruct (code ev =? "Space")%string; [| exact I].
    apply Inv_set_state; try apply I. reflexivity. }
  set (a2 := if (_ && _)%bool then _ else a1).
  assert (I2 : Inv a2).
  { unfold a2. destruct (_ && _)%bool; [| exact I1].
    destruct (_ && _)%bool; [now apply Inv_deleteSelected | exact I1]. }
  clearbody a2. clear a1 I1.
  destruct (ctrlKey ev || metaKey ev)%bool; [| now exists a2].
  assert (H3 : exists a3, (if (key ev =? "z")%string then undo a2 else Some a2)
                          = Some a3 /\ Inv a3).
  { destruct (key ev =? "z")%string; [now apply undo_Inv | now exists a2]. }
  destruct H3 as (a3 & -> & I3). simpl.
  assert (H4 : exists a4, (if (key ev =? "y")%string then redo a3 else Some a3)
                          = Some a4 /\ Inv a4).
  { destruct (key ev =? "y")%string; [now apply redo_Inv | now exists a3]. }
  destruct H4 as (a4 & -> & I4). simpl.
  eexists. split; [reflexivity|].
  destruct (key ev =? "s")%string; [now apply Inv_persist | exact I4].
Qed.

Lemma Inv_editor_keydown (el : ItemType) (ev : KeyEvent) (a : App) :
  Inv a -> Inv (editor_keydown el ev a).
Proof.
  intros I. unfold editor_keydown.
  set (a1 := if (key ev =? "Enter")%string then _ else a).
  assert (I1 : Inv a1).
  { unfold a1. destruct (key ev =? "Enter")%string; [| exact I].
    destruct (_ || _)%bool; [now apply Inv_closeEditors | exact I]. }
  destruct (key ev =? "Escape")%string; [| exact I1].
  rewrite editor_escape_end. now apply Inv_end_session.
Qed.

Lemma Inv_rename (v : string) (a : App) : Inv a -> Inv (rename v a).
Proof.
  intros I. unfold rename. apply Inv_persist.
  apply Inv_set_state; try apply I; try reflexivity. simpl.
  destruct (v =? EmptyString)%string eqn:E; [discriminate|].
  now apply String.eqb_neq.
Qed.

Lemma Inv_init (now : Z) : Inv (init now initial).
Proof.
  unfold init. simpl.
  destruct (createNode_Inv "lead-source" 320 150 (Some "Start Source") now
              initial) as [H1 H7]; [constructor | constructor |].
  apply saveHistory_Inv; try assumption; try (simpl; congruence).
  - constructor.
  - constructor.
  - split; reflexivity.
Qed.

Lemma handle_Inv (ev : Event) (a : App) :
  Inv a -> exists a', handle ev a = Some a' /\ Inv a'.
Proof.
  intros I. destruct ev; simpl;
    try (eexists; split; [reflexivity|]).
  - now apply Inv_saveHistory, Inv_createNode.
  - now apply Inv_node_mousedown.
  - now apply Inv_startResizing.
  - now apply Inv_deleteSelected, Inv_select_id.
  - now apply Inv_openNodeEditor.
  - now apply Inv_select_id.
  - now apply Inv_openEdgeEditor, Inv_select_id.
  - now apply mousemove_Inv.
  - now apply mouseup_Inv.
  - now apply Inv_select_id, Inv_closeEditors.
  - now apply Inv_keydown.
  - unfold keyup. destruct (code ev =? "Space")%string; [| exact I].
    apply Inv_set_state; try apply I. reflexivity.
  - now apply Inv_editor_keydown.
  - now apply Inv_closeEditors.
  - now apply Inv_type_node_text.
  - now apply Inv_type_edge_text.
  - now apply undo_Inv.
  - now apply redo_Inv.
  - apply Inv_set_state; try apply I. reflexivity.
  - apply Inv_set_state; try apply I. reflexivity.
  - apply Inv_set_state; try apply I. reflexivity.
  - apply Inv_saveHistory, Inv_set_edges, Inv_set_nodes; [exact I|].
    intros r [].
  - apply Inv_set_state; try apply I. reflexivity.
  - now apply Inv_rename.
  - now apply Inv_persist.
Qed.

Lemma run_Inv (evs : list Event) (a : App) :
  Inv a -> exists a', run evs a = Some a' /\ Inv a'.
Proof.
  revert a. induction evs as [| ev r IH]; intros a I; simpl.
  - now exists a.
  - destruct (handle_Inv ev a I) as (a1 & -> & I1). simpl. now apply IH.
Qed.

Lemma session_Inv (now : Z) (evs : list Event) (a : App) :
  session now evs = Some a -> Inv a.
Proof.
  intros H. destruct (run_Inv evs _ (Inv_init now)) as (a' & E & I).
  unfold session in H. congruence.
Qed.

(** X7: no handler throws in a session: every run of events after a
    start-up without stored project ends in a state. *)
Theorem session_never_throws (now : Z) (evs : list Event) :
  exists a, session now evs = Some a.
Proof.
  destruct (run_Inv evs _ (Inv_init now)) as (a & E & _). now exists a.
Qed.

(** X8: in a session the undo stack is never empty, and every entry of
    the two stacks is read back by [JSON.parse] as a diagram. *)
Theorem session_history (now : Z) (evs : list Event) (a : App) :
  session now evs = Some a ->
  historyStack a <> [] /\
  forall j, In j (historyStack a) \/ In j (redoStack a) ->
            exists d, parse j = Some d.
Proof.
  intros H. apply session_Inv in H. split; [apply H|].
  pose proof (inv_undo a H) as Hu. pose proof (inv_redo a H) as Hr.
  unfold well_sized_stack, stack_of in *. rewrite Forall_forall in *.
  intros j [Hj | Hj]; [apply Hu in Hj | apply Hr in Hj];
    destruct Hj as (d & -> & _); exists d; apply parse_stringify.
Qed.

Lemma session_events1 : session 1000 events1 = Some app1.
Proof. vm_compute. reflexivity. Qed.

Lemma session_history_witness :
  session 1000 events1 = Some app1 /\
  historyStack app1 <> [] /\
  forall j, In j (historyStack app1) \/ In j (redoStack app1) ->
            exists d, parse j = Some d.
Proof.
  split; [exact session_events1|].
  exact (session_history 1000 events1 app1 session_events1).
Defined.

(** X9: in a session every node of the diagram has a position and a
    size that are multiples of the grid unit, a width of at least 80 and a
    height of at least 40. *)
Theorem session_well_sized (now : Z) (evs : list Event) (a : App) :
  session now evs = Some a ->
  forall n, In n (node_objects a) ->
    (10 | Node.x n) /\ (10 | Node.y n) /\
    (10 | Node.width n) /\ (10 | Node.height n) /\
    80 <= Node.width n /\ 40 <= Node.height n.
Proof.
  intros H n Hn. apply session_Inv in H.
  pose proof (inv_nodes a H) as Hd.
  unfold well_sized_diagram in Hd. rewrite Forall_forall in Hd.
  exact (Hd n Hn).
Qed.

Lemma session_well_sized_witness :
  session 1000 events1 = Some app1 /\
  forall n, In n (node_objects app1) ->
    (10 | Node.x n) /\ (10 | Node.y n) /\
    (10 | Node.width n) /\ (10 | Node.height n) /\
    80 <= Node.width n /\ 40 <= Node.height n.
Proof.
  split; [exact session_events1|].
  exact (session_well_sized 1000 events1 app1 session_events1).
Defined.

(** X10: in a session the node editor is shown exactly while a session on
    a node is open and the edge editor exactly while a session on an edge is
    open, so that never both are shown; and a target is held exactly while
    the mode is not [IDLE], the mode never being [PANNING]. *)
Theorem session_editors_and_gesture (now : Z) (evs : list Event) (a : App) :
  session now evs = Some a ->
  (shown (nodeEditor a) = true <->
   exists i, editingItem (state a) = Some (mkEditing node_item i)) /\
  (shown (edgeEditor a) = true <->
   exists i, editingItem (state a) = Some (mkEditing edge_item i)) /\
  (targetItem (state a) = None <-> mode (state a) = IDLE) /\
  mode (state a) <> PANNING.
Proof.
  intros H. apply session_Inv in H.
  pose proof (inv_editors a H) as He. unfold editors_follow in He.
  split; [| split; [| split; [| apply H]]].
  - destruct (editingItem (state a)) as [[[|] i]|]; destruct He as [-> _];
      split; intros Hx; try discriminate; try reflexivity;
      try (destruct Hx; discriminate); eexists; reflexivity.
  - destruct (editingItem (state a)) as [[[|] i]|]; destruct He as [_ ->];
      split; intros Hx; try discriminate; try reflexivity;
      try (destruct Hx; discriminate); eexists; reflexivity.
  - split; [| apply H].
    intros Ht. destruct (mode (state a)) eqn:Em; try reflexivity;
      destruct (inv_target a H) as [t Et]; congruence.
Qed.

Lemma session_editors_and_gesture_witness :
  session 1000 events1 = Some app1 /\
  (shown (nodeEditor app1) = true <->
   exists i, editingItem (state app1) = Some (mkEditing node_item i)) /\
  (shown (edgeEditor app1) = true <->
   exists i, editingItem (state app1) = Some (mkEditing edge_item i)) /\
  (targetItem (state app1) = None <-> mode (state app1) = IDLE) /\
  mode (state app1) <> PANNING.
Proof.
  split; [exact session_events1|].
  exact (session_editors_and_gesture 1000 events1 app1 session_events1).
Defined.

(** X11: on stacks of snapshots, [undo] and [redo] return a state, move
    snapshots between the two stacks without changing their total number,
    and leave the undo stack non-empty if it was. *)
Theorem undo_redo_conserve (a : App) :
  snapshots (historyStack a) -> snapshots (redoStack a) ->
  (exists a',
     undo a = Some a' /\
     (List.length (historyStack a') + List.length (redoStack a')
      = List.length (historyStack a) + List.length (redoStack a))%nat /\
     (historyStack a <> [] -> historyStack a' <> [])) /\
  (exists a',
     redo a = Some a' /\
     (List.length (historyStack a') + List.length (redoStack a')
      = List.length (historyStack a) + List.length (redoStack a))%nat /\
     (historyStack a <> [] -> historyStack a' <> [])).
Proof.
  intros Hu Hr. split.
  - destruct (undo_shape _ a Hu) as [[_ ->] | (h & d0 & s & E & _ & ->)].
    + exists a. split; [reflexivity|]. split; [reflexivity | tauto].
    + eexists. split; [reflexivity|]. simpl. rewrite E, !length_push.
      split; [lia | intros _; apply push_not_nil].
  - destruct (redo_shape _ a Hr) as [[_ ->] | (r & d & E & _ & ->)].
    + exists a. split; [reflexivity|]. split; [reflexivity | tauto].
    + eexists. split; [reflexivity|]. simpl. rewrite E, !length_push.
      split; [lia | intros _; apply push_not_nil].
Qed.

Lemma undo_redo_conserve_witness :
  snapshots (historyStack app1) /\ snapshots (redoStack app1) /\
  (exists a',
     undo app1 = Some a' /\
     (List.length (historyStack a') + List.length (redoStack a')
      = List.length (historyStack app1) + List.length (redoStack app1))%nat /\
     (historyStack app1 <> [] -> historyStack a' <> [])) /\
  (exists a',
     redo app1 = Some a' /\
     (List.length (historyStack a') + List.length (redoStack a')
      = List.length (historyStack app1) + List.length (redoStack app1))%nat /\
     (historyStack app1 <> [] -> historyStack a' <> [])).
Proof.
  assert (H1 : snapshots (historyStack app1)).
  { change (historyStack app1)
      with [stringify (diagram app0); stringify (diagram app1)].
    repeat constructor; eexists; (split; [reflexivity | exact I]). }
  assert (H2 : snapshots (redoStack app1)) by constructor.
  split; [exact H1|]. split; [exact H2|].
  exact (undo_redo_conserve app1 H1 H2).
Defined.

(** ** More on the graph model *)

Lemma default_size_other (type : string) :
  ~ In type sized_types -> default_size type = (160, 60).
Proof.
  intros H. unfold default_size.
  repeat match goal with
         | |- context [String.eqb type ?k] =>
             destruct (String.eqb_spec type k) as [-> | _];
             [exfalso; apply H; simpl; tauto|]
         end.
  reflexivity.
Qed.

(** X12: when the references of [nodes] are allocated ones, [createNode]
    appends one node and leaves the other nodes, the edges and the history
    as they are; the new node has the id [node-<now>], the type given, the
    position snapped to the grid, and the size 160 by 60 for a type outside
    the seven sized ones. *)
Theorem createNode_appends (type : string) (x y : Q) (label : option string)
    (now : Z) (a : App) :
  Forall (fun r => (r < fresh a)%nat) (nodes a) ->
  node_objects (snd (createNode type x y label now a)) =
    (node_objects a ++ [created (createNode type x y label now a)])%list /\
  edges (snd (createNode type x y label now a)) = edges a /\
  history (snd (createNode type x y label now a)) = history a /\
  Node.id (created (createNode type x y label now a))
    = ("node-" ++ toString now)%string /\
  Node.type (created (createNode type x y label now a)) = type /\
  Node.x (created (createNode type x y label now a)) = snap x /\
  Node.y (created (createNode type x y label now a)) = snap y /\
  (~ In type sized_types ->
   Node.width (created (createNode type x y label now a)) = 160 /\
   Node.height (created (createNode type x y label now a)) = 60).
Proof.
  intros Hr. pose proof (default_size_other type) as Hs.
  unfold created, createNode, node_objects.
  destruct (default_size type) as [w h]. simpl. rewrite Nat.eqb_refl. simpl.
  split.
  - unfold push. rewrite map_app. simpl. rewrite Nat.eqb_refl. f_equal.
    apply map_ext_in. intros r Hin. rewrite Forall_forall in Hr.
    specialize (Hr r Hin).
    replace (Nat.eqb r (fresh a)) with false
      by (symmetry; apply Nat.eqb_neq; lia). reflexivity.
  - repeat (split; [reflexivity|]). intros H. specialize (Hs H).
    injection Hs as -> ->. split; reflexivity.
Qed.

Lemma createNode_appends_witness :
  Forall (fun r => (r < fresh app0)%nat) (nodes app0) /\
  node_objects (snd (createNode "note" 12 27 None 5 app0)) =
    (node_objects app0 ++ [created (createNode "note" 12 27 None 5 app0)])%list /\
  edges (snd (createNode "note" 12 27 None 5 app0)) = edges app0 /\
  history (snd (createNode "note" 12 27 None 5 app0)) = history app0 /\
  Node.id (created (createNode "note" 12 27 None 5 app0))
    = ("node-" ++ toString 5)%string /\
  Node.type (created (createNode "note" 12 27 None 5 app0)) = "note" /\
  Node.x (created (createNode "note" 12 27 None 5 app0)) = snap 12 /\
  Node.y (created (createNode "note" 12 27 None 5 app0)) = snap 27 /\
  (~ In "note" sized_types ->
   Node.width (created (createNode "note" 12 27 None 5 app0)) = 160 /\
   Node.height (created (createNode "note" 12 27 None 5 app0)) = 60).
Proof.
  assert (H : Forall (fun r => (r < fresh app0)%nat) (nodes app0)).
  { vm_compute. constructor; [| constructor]. apply le_n. }
  split; [exact H|].
  exact (createNode_appends "note" 12 27 None 5 app0 H).
Defined.

Lemma findIndex_split {A} (p : A -> bool) (l : list A) (k : nat) :
  findIndex p l = Some k ->
  exists l1 v l2,
    l = (l1 ++ v :: l2)%list /\ p v = true /\
    (forall m, In m l1 -> p m = false) /\
    splice1 k l = (l1 ++ l2)%list.
Proof.
  revert k. induction l as [| u r IH]; intros k; simpl; [discriminate|].
  destruct (p u) eqn:E.
  - intros [= <-]. exists [], u, r. simpl. tauto.
  - destruct (findIndex p r) as [j|]; [| discriminate]. simpl.
    intros [= <-]. destruct (IH j eq_refl) as (l1 & v & l2 & -> & Hv & Hl & Hs).
    exists (u :: l1), v, l2. simpl. rewrite Hs.
    split; [reflexivity|]. split; [exact Hv|]. split; [| reflexivity].
    intros m [-> | Hm]; [exact E | now apply Hl].
Qed.

Lemma findIndex_None {A} (p : A -> bool) (l : list A) :
  findIndex p l = None -> forall m, In m l -> p m = false.
Proof.
  induction l as [| u r IH]; simpl; [tauto|].
  destruct (p u) eqn:E; [discriminate|].
  destruct (findIndex p r); [discriminate|].
  intros _ m [-> | Hm]; [exact E | now apply IH].
Qed.

Lemma deleteSelected_truthy (a : App) (i : string) :
  i <> EmptyString -> selectedId (state a) = Some i ->
  deleteSelected a =
  saveHistory
    (closeEditors
       (select_id None
          match findIndex (fun n => (Node.id n =? i)%string) (node_objects a) with
          | Some nodeIdx =>
              set_edges
                (filter (fun e => (negb (Edge.source e =? i)%string
                                   && negb (Edge.target e =? i)%string)%bool)
                        (edges a))
                (set_nodes (splice1 nodeIdx (nodes a)) a)
          | None =>
              match findIndex (fun e => (Edge.id e =? i)%string) (edges a) with
              | Some edgeIdx => set_edges (splice1 edgeIdx (edges a)) a
              | None => a
              end
          end)).
Proof.
  intros Hi Hs. unfold deleteSelected. rewrite Hs. simpl.
  apply String.eqb_neq in Hi. rewrite Hi. reflexivity.
Qed.

(** X13: with a non-empty id selected that no node has, [deleteSelected]
    leaves the nodes alone and removes the first edge that has the id, if
    there is one, and no other edge. *)
Theorem deleteSelected_edge (a : App) (i : string) :
  i <> EmptyString ->
  selectedId (state a) = Some i ->
  (forall n, In n (node_objects a) -> Node.id n <> i) ->
  nodes (deleteSelected a) = nodes a /\
  ((exists e, In e (edges a) /\ Edge.id e = i) ->
   exists l1 e l2,
     edges a = (l1 ++ e :: l2)%list /\ Edge.id e = i /\
     (forall m, In m l1 -> Edge.id m <> i) /\
     map endpoints (edges (deleteSelected a)) = map endpoints (l1 ++ l2)%list) /\
  ((forall e, In e (edges a) -> Edge.id e <> i) ->
   map endpoints (edges (deleteSelected a)) = map endpoints (edges a)).
Proof.
  intros Hi Hs Hn. rewrite (deleteSelected_truthy a i Hi Hs).
  rewrite saveHistory_nodes, saveHistory_edges, closeEditors_nodes,
    closeEditors_endpoints.
  destruct (findIndex _ (node_objects a)) as [k|] eqn:Ek.
  { apply findIndex_split in Ek as (l1 & v & l2 & Hl & Hv & _).
    apply String.eqb_eq in Hv. exfalso. apply (Hn v); [| exact Hv].
    rewrite Hl. apply in_elt. }
  destruct (findIndex _ (edges a)) as [k|] eqn:Ee; simpl.
  - apply findIndex_split in Ee as (l1 & v & l2 & Hl & Hv & Hl1 & Hsp).
    apply String.eqb_eq in Hv. split; [reflexivity|]. split.
    + intros _. exists l1, v, l2. split; [exact Hl|]. split; [exact Hv|].
      split; [| now rewrite Hsp].
      intros m Hm. apply String.eqb_neq. now apply Hl1.
    + intros Hnone. exfalso. apply (Hnone v); [| exact Hv].
      rewrite Hl. apply in_elt.
  - split; [reflexivity|]. split; [| reflexivity].
    intros (e & Hin & He). apply String.eqb_eq in He.
    pose proof (findIndex_None _ _ Ee e Hin) as Hf. simpl in Hf. congruence.
Qed.

Lemma deleteSelected_edge_witness :
  "edge-3000" <> EmptyString /\
  selectedId (state app_edge_selected) = Some "edge-3000" /\
  (forall n, In n (node_objects app_edge_selected) -> Node.id n <> "edge-3000") /\
  nodes (deleteSelected app_edge_selected) = nodes app_edge_selected /\
  ((exists e, In e (edges app_edge_selected) /\ Edge.id e = "edge-3000") ->
   exists l1 e l2,
     edges app_edge_selected = (l1 ++ e :: l2)%list /\ Edge.id e = "edge-3000" /\
     (forall m, In m l1 -> Edge.id m <> "edge-3000") /\
     map endpoints (edges (deleteSelected app_edge_selected))
     = map endpoints (l1 ++ l2)%list) /\
  ((forall e, In e (edges app_edge_selected) -> Edge.id e <> "edge-3000") ->
   map endpoints (edges (deleteSelected app_edge_selected))
   = map endpoints (edges app_edge_selected)).
Proof.
  assert (H1 : "edge-3000" <> EmptyString) by discriminate.
  assert (H2 : selectedId (state app_edge_selected) = Some "edge-3000")
    by (vm_compute; reflexivity).
  assert (H3 : forall n, In n (node_objects app_edge_selected) ->
                         Node.id n <> "edge-3000").
  { intros n Hn. vm_compute in Hn. destruct Hn as [<- | [<- | []]]; discriminate. }
  split; [exact H1|]. split; [exact H2|]. split; [exact H3|].
  exact (deleteSelected_edge app_edge_selected "edge-3000" H1 H2 H3).
Defined.

(** X14: with a non-empty id selected, whatever it names, [deleteSelected]
    ends with no selection and no edit session, and with the snapshot of the
    diagram it leaves on top of the undo stack. *)
Theorem deleteSelected_commits (a : App) (i : string) :
  i <> EmptyString ->
  selectedId (state a) = Some i ->
  selectedId (state (deleteSelected a)) = None /\
  editingItem (state (deleteSelected a)) = None /\
  top (historyStack (deleteSelected a))
  = Some (stringify (diagram (deleteSelected a))).
Proof.
  intros Hi Hs. rewrite (deleteSelected_truthy a i Hi Hs).
  rewrite saveHistory_state. split; [| split].
  - match goal with
    | |- context [closeEditors ?x] =>
        destruct (closeEditors_cases x) as (a1 & -> & [-> | [[r ->] | [p ->]]])
    end; simpl; rewrite ?saveHistory_state; reflexivity.
  - reflexivity.
  - apply saveHistory_top.
Qed.

Lemma deleteSelected_commits_witness :
  "edge-3000" <> EmptyString /\
  selectedId (state app_edge_selected) = Some "edge-3000" /\
  selectedId (state (deleteSelected app_edge_selected)) = None /\
  editingItem (state (deleteSelected app_edge_selected)) = None /\
  top (historyStack (deleteSelected app_edge_selected))
  = Some (stringify (diagram (deleteSelected app_edge_selected))).
Proof.
  assert (H1 : "edge-3000" <> EmptyString) by discriminate.
  assert (H2 : selectedId (state app_edge_selected) = Some "edge-3000")
    by (vm_compute; reflexivity).
  split; [exact H1|]. split; [exact H2|].
  exact (deleteSelected_commits app_edge_selected "edge-3000" H1 H2).
Defined.

Lemma map_splice1 {A B} (f : A -> B) (k : nat) (l : list A) :
  map f (splice1 k l) = splice1 k (map f l).
Proof.
  revert k. induction l as [| u r IH]; intros [| k]; simpl; try reflexivity.
  now rewrite IH.
Qed.

Lemma closeEditors_ids (a : App) : node_ids (closeEditors a) = node_ids a.
Proof.
  destruct (closeEditors_cases a) as (a1 & -> & [-> | [[r ->] | [p ->]]]);
    unfold node_ids, node_objects; simpl;
    rewrite ?saveHistory_store, ?saveHistory_nodes; try reflexivity.
  unfold write. simpl. rewrite !map_map. apply map_ext. intros r'.
  destruct (Nat.eqb r' r) eqn:E; [| reflexivity].
  apply Nat.eqb_eq in E. subst r'. now destruct (store a r).
Qed.

Lemma saveHistory_ids (a : App) : node_ids (saveHistory a) = node_ids a.
Proof.
  unfold node_ids, node_objects.
  now rewrite saveHistory_store, saveHistory_nodes.
Qed.

Lemma no_dangling_ext (a b : App) :
  node_ids b = node_ids a ->
  map endpoints (edges b) = map endpoints (edges a) ->
  no_dangling a -> no_dangling b.
Proof.
  intros Hn He H e Hin. rewrite Hn.
  assert (Hep : In (endpoints e) (map endpoints (edges a)))
    by (rewrite <- He; now apply in_map).
  apply in_map_iff in Hep as (e' & E & Hin').
  unfold endpoints in E. injection E as _ Es Et.
  rewrite <- Es, <- Et. now apply H.
Qed.

(** X15: [deleteSelected] keeps the diagram free of dangling edges,
    whatever is selected. *)
Theorem deleteSelected_no_dangling (a : App) :
  no_dangling a -> no_dangling (deleteSelected a).
Proof.
  intros H.
  destruct (selectedId (state a)) as [i|] eqn:Hs;
    [| unfold deleteSelected; now rewrite Hs].
  destruct (String.eqb_spec i EmptyString) as [-> | Hi];
    [unfold deleteSelected; now rewrite Hs|].
  rewrite (deleteSelected_truthy a i Hi Hs).
  match goal with
  | |- no_dangling (saveHistory (closeEditors (select_id None ?x))) =>
      apply (no_dangling_ext x);
        [ now rewrite saveHistory_ids, closeEditors_ids
        | now rewrite saveHistory_edges, closeEditors_endpoints |]
  end.
  destruct (findIndex _ (node_objects a)) as [k|] eqn:Ek.
  - apply findIndex_split in Ek as (l1 & v & l2 & Hl & Hv & _ & Hsp).
    intros e He. simpl in He. apply filter_In in He as [Hin He].
    apply andb_true_iff in He as [H1 H2].
    apply negb_true_iff, String.eqb_neq in H1, H2.
    destruct (H e Hin) as [Hsrc Htgt].
    unfold node_ids, node_objects in *. simpl.
    rewrite map_splice1, Hsp. rewrite Hl in Hsrc, Htgt.
    apply String.eqb_eq in Hv.
    rewrite map_app in *. simpl in Hsrc, Htgt.
    split; apply in_app_iff.
    + apply in_app_iff in Hsrc as [Hx | [Hx | Hx]]; [now left | | now right].
      congruence.
    + apply in_app_iff in Htgt as [Hx | [Hx | Hx]]; [now left | | now right].
      congruence.
  - destruct (findIndex _ (edges a)) as [k|] eqn:Ee; [| exact H].
    intros e He. simpl in He. apply splice1_In in He. now apply H.
Qed.

Lemma no_dangling_app_linked : no_dangling app_linked.
Proof.
  intros e He. vm_compute in He. destruct He as [<- | []].
  vm_compute. split; [left | right; left]; reflexivity.
Qed.

Lemma deleteSelected_no_dangling_witness :
  no_dangling app_linked /\ no_dangling (deleteSelected app_linked).
Proof.
  split; [exact no_dangling_app_linked|].
  exact (deleteSelected_no_dangling app_linked no_dangling_app_linked).
Defined.

Lemma mouseup_connecting_nodes (rect : DOMRect) (e : MouseEvent) (now : Z)
    (a a' : App) :
  mouseup rect e now a = Some a' ->
  store a' = store a /\ nodes a' = nodes a.
Proof.
  unfold mouseup, finalizeConnection.
  destruct (mode_eqb (mode (state a)) CONNECTING).
  - destruct (targetItem (state a)) as [t|].
    + destruct (find _ (node_objects a)); simpl;
        destruct (negb _); intros [= <-]; simpl;
        rewrite ?saveHistory_store, ?saveHistory_nodes; split; reflexivity.
    + destruct (nodes a) eqn:En; [| discriminate]. simpl.
      destruct (negb _); intros [= <-]; simpl;
        rewrite ?saveHistory_store, ?saveHistory_nodes; split; congruence.
  - simpl. destruct (negb _); intros [= <-]; simpl;
      rewrite ?saveHistory_store, ?saveHistory_nodes; split; reflexivity.
Qed.

(** X16: a connect gesture whose source is still a node of the diagram
    keeps the diagram free of dangling edges, and the only edge it can add
    leaves the source, has the empty label and is not a self-loop. *)
Theorem connect_sound (rect : DOMRect) (e : MouseEvent) (now : Z)
    (a : App) (t : ref) :
  mode (state a) = CONNECTING ->
  targetItem (state a) = Some t ->
  In t (nodes a) ->
  no_dangling a ->
  exists a',
    mouseup rect e now a = Some a' /\
    no_dangling a' /\
    forall ed, In ed (edges a') ->
      In ed (edges a) \/
      (Edge.source ed = Node.id (store a t) /\
       Edge.target ed <> Edge.source ed /\
       Edge.label ed = EmptyString).
Proof.
  intros Hm Ht Hin Hnd.
  destruct (mouseup_connecting rect e now a t Hm Ht) as (a' & Hup & He).
  destruct (mouseup_connecting_nodes _ _ _ _ _ Hup) as [Hst Hn].
  exists a'. split; [exact Hup|].
  assert (Hids : node_ids a' = node_ids a)
    by (unfold node_ids, node_objects; now rewrite Hst, Hn).
  destruct (find _ (node_objects a)) as [n|] eqn:Ef.
  - apply find_some in Ef as [Hn_in Hhit]. apply hit_spec in Hhit as [Hid _].
    split.
    + intros ed Hed. rewrite He in Hed. rewrite Hids.
      apply in_app_iff in Hed as [Hed | [<- | []]]; [now apply Hnd|].
      simpl. split; apply in_map_iff.
      * exists (store a t). split; [reflexivity | now apply in_map].
      * now exists n.
    + intros ed Hed. rewrite He in Hed.
      apply in_app_iff in Hed as [Hed | [<- | []]]; [now left | right].
      simpl. tauto.
  - split.
    + intros ed Hed. rewrite He in Hed. rewrite Hids. now apply Hnd.
    + intros ed Hed. rewrite He in Hed. now left.
Qed.

Lemma connect_sound_witness :
  mode (state app_connecting) = CONNECTING /\
  targetItem (state app_connecting) = Some N0 /\
  In N0 (nodes app_connecting) /\
  no_dangling app_connecting /\
  exists a',
    mouseup rect0 (mkEvent 510 410) 3000 app_connecting = Some a' /\
    no_dangling a' /\
    forall ed, In ed (edges a') ->
      In ed (edges app_connecting) \/
      (Edge.source ed = Node.id (store app_connecting N0) /\
       Edge.target ed <> Edge.source ed /\
       Edge.label ed = EmptyString).
Proof.
  assert (H3 : In N0 (nodes app_connecting)) by (vm_compute; now left).
  assert (H4 : no_dangling app_connecting)
    by (intros ed Hed; vm_compute in Hed; destruct Hed).
  split; [reflexivity|]. split; [reflexivity|]. split; [exact H3|].
  split; [exact H4|].
  exact (connect_sound rect0 (mkEvent 510 410) 3000 app_connecting N0
                       eq_refl eq_refl H3 H4).
Defined.

(** X17: a connect gesture takes the id of its source from the object
    captured at the press: when no node of the diagram has that id any more
    (the source was deleted during the gesture) and the release hits a
    node, the edge that is added dangles. *)
Theorem connect_from_deleted (rect : DOMRect) (e : MouseEvent) (now : Z)
    (a : App) (t : ref) :
  mode (state a) = CONNECTING ->
  targetItem (state a) = Some t ->
  ~ In (Node.id (store a t)) (node_ids a) ->
  (exists n, In n (node_objects a) /\
             candidate (store a t) (getSVGCoords rect e a) n) ->
  exists a' ed,
    mouseup rect e now a = Some a' /\
    In ed (edges a') /\
    Edge.source ed = Node.id (store a t) /\
    ~ In (Edge.source ed) (node_ids a') /\
    ~ no_dangling a'.
Proof.
  intros Hm Ht Hgone (n & Hn & Hc).
  destruct (mouseup_connecting rect e now a t Hm Ht) as (a' & Hup & He).
  destruct (mouseup_connecting_nodes _ _ _ _ _ Hup) as [Hst Hnodes].
  assert (Hids : node_ids a' = node_ids a)
    by (unfold node_ids, node_objects; now rewrite Hst, Hnodes).
  destruct (find _ (node_objects a)) as [m|] eqn:Ef.
  - exists a'. eexists. split; [exact Hup|].
    assert (Hin : In (Edge.mk ("edge-" ++ toString now) (Node.id (store a t))
                              (Node.id m) EmptyString) (edges a'))
      by (rewrite He; apply in_app_iff; right; now left).
    split; [exact Hin|]. split; [reflexivity|].
    split; [simpl; now rewrite Hids|].
    intros Hnd. apply Hnd in Hin as [Hsrc _]. simpl in Hsrc.
    now rewrite Hids in Hsrc.
  - apply hit_spec in Hc. rewrite (find_none _ _ Ef n Hn) in Hc. discriminate.
Qed.

Lemma connect_from_deleted_witness :
  mode (state app_orphan) = CONNECTING /\
  targetItem (state app_orphan) = Some N0 /\
  ~ In (Node.id (store app_orphan N0)) (node_ids app_orphan) /\
  (exists n, In n (node_objects app_orphan) /\
             candidate (store app_orphan N0)
               (getSVGCoords rect0 (mkEvent 510 410) app_orphan) n) /\
  exists a' ed,
    mouseup rect0 (mkEvent 510 410) 4000 app_orphan = Some a' /\
    In ed (edges a') /\
    Edge.source ed = Node.id (store app_orphan N0) /\
    ~ In (Edge.source ed) (node_ids a') /\
    ~ no_dangling a'.
Proof.
  assert (H1 : mode (state app_orphan) = CONNECTING) by (vm_compute; reflexivity).
  assert (H2 : targetItem (state app_orphan) = Some N0)
    by (vm_compute; reflexivity).
  assert (H3 : ~ In (Node.id (store app_orphan N0)) (node_ids app_orphan)).
  { intros H. vm_compute in H. destruct H as [H | []]. discriminate H. }
  assert (H4 : exists n, In n (node_objects app_orphan) /\
                         candidate (store app_orphan N0)
                           (getSVGCoords rect0 (mkEvent 510 410) app_orphan) n).
  { eexists. split; [vm_compute; left; reflexivity|].
    apply hit_spec. vm_compute. reflexivity. }
  split; [exact H1|]. split; [exact H2|]. split; [exact H3|].
  split; [exact H4|].
  exact (connect_from_deleted rect0 (mkEvent 510 410) 4000 app_orphan N0
                              H1 H2 H3 H4).
Defined.

(** ** More on the gestures *)

(** X18: a release ends every gesture: the mode is [IDLE] and no target
    is held, the nodes are as before; after a gesture the snapshot of the
    diagram is on top of the undo stack, and a release with no gesture
    under way changes neither the edges nor the history. *)
Theorem release_commits (rect : DOMRect) (e : MouseEvent) (now : Z)
    (a a' : App) :
  mouseup rect e now a = Some a' ->
  mode (state a') = IDLE /\
  targetItem (state a') = None /\
  node_objects a' = node_objects a /\
  (mode (state a) <> IDLE ->
   top (historyStack a') = Some (stringify (diagram a'))) /\
  (mode (state a) = IDLE ->
   edges a' = edges a /\ history a' = history a).
Proof.
  intros Hup.
  destruct (mouseup_connecting_nodes _ _ _ _ _ Hup) as [Hst Hn].
  revert Hup. unfold mouseup.
  destruct (mode_eqb (mode (state a)) CONNECTING) eqn:Ec.
  - destruct (finalizeConnection rect e now a) as [a1|] eqn:Ef;
      [| discriminate]. simpl.
    assert (Hs : state a1 = state a).
    { revert Ef. unfold finalizeConnection.
      destruct (targetItem (state a)).
      - destruct (find _ _); intros [= <-];
          [now rewrite saveHistory_state | reflexivity].
      - destruct (nodes a); [| discriminate]. now intros [= <-]. }
    rewrite Hs. destruct (mode (state a)); try discriminate. simpl.
    intros [= <-]. simpl. split; [reflexivity|]. split; [reflexivity|].
    split; [unfold node_objects; simpl in *; now rewrite Hst, Hn|].
    split; [| discriminate]. intros _.
    change (diagram (set_state (set_targetItem None (set_mode IDLE (state a1)))
                               (saveHistory a1)))
      with (diagram (saveHistory a1)).
    apply saveHistory_top.
  - simpl. destruct (mode (state a)) eqn:Em; try discriminate; simpl;
      intros [= <-]; simpl;
      (split; [reflexivity|]); (split; [reflexivity|]);
      (split; [unfold node_objects; simpl;
               now rewrite ?saveHistory_store, ?saveHistory_nodes|]).
    + split; [congruence |]. intros _. split; reflexivity.
    + split; [| discriminate]. intros _.
      change (diagram (set_state
                         (set_targetItem None (set_mode IDLE (state a)))
                         (saveHistory a)))
        with (diagram (saveHistory a)).
      apply saveHistory_top.
    + split; [| discriminate]. intros _.
      change (diagram (set_state
                         (set_targetItem None (set_mode IDLE (state a)))
                         (saveHistory a)))
        with (diagram (saveHistory a)).
      apply saveHistory_top.
    + split; [| discriminate]. intros _.
      change (diagram (set_state
                         (set_targetItem None (set_mode IDLE (state a)))
                         (saveHistory a)))
        with (diagram (saveHistory a)).
      apply saveHistory_top.
Qed.

Lemma release_commits_witness :
  mouseup rect0 (mkEvent 510 410) 3000 app_connecting = Some app_linked /\
  mode (state app_linked) = IDLE /\
  targetItem (state app_linked) = None /\
  node_objects app_linked = node_objects app_connecting /\
  (mode (state app_connecting) <> IDLE ->
   top (historyStack app_linked) = Some (stringify (diagram app_linked))) /\
  (mode (state app_connecting) = IDLE ->
   edges app_linked = edges app_connecting /\
   history app_linked = history app_connecting).
Proof.
  assert (H : mouseup rect0 (mkEvent 510 410) 3000 app_connecting
              = Some app_linked) by (vm_compute; reflexivity).
  split; [exact H|].
  exact (release_commits rect0 (mkEvent 510 410) 3000 app_connecting
                         app_linked H).
Defined.

(** X19: with the select tool, a press on a node followed by a release
    without a move in between selects the node and changes neither the
    diagram nor, when the snapshot of the diagram is on top of the undo
    stack, the history. *)
Theorem click_selects (rect rect' : DOMRect) (e e' : MouseEvent) (now : Z)
    (node : ref) (a : App) :
  activeTool (state a) = select ->
  top (historyStack a) = Some (stringify (diagram a)) ->
  exists a',
    mouseup rect' e' now (node_mousedown rect e node a) = Some a' /\
    diagram a' = diagram a /\
    history a' = history a /\
    selectedId (state a') = Some (Node.id (store a node)) /\
    mode (state a') = IDLE /\
    targetItem (state a') = None.
Proof.
  intros Htool Htop. unfold node_mousedown. simpl. rewrite Htool.
  unfold mouseup. simpl.
  rewrite saveHistory_skip by exact Htop.
  eexists. split; [reflexivity|]. repeat split.
Qed.

Lemma click_selects_witness :
  activeTool (state app1) = select /\
  top (historyStack app1) = Some (stringify (diagram app1)) /\
  exists a',
    mouseup rect0 (mkEvent 331 161) 2500
            (node_mousedown rect0 (mkEvent 330 160) N0 app1) = Some a' /\
    diagram a' = diagram app1 /\
    history a' = history app1 /\
    selectedId (state a') = Some (Node.id (store app1 N0)) /\
    mode (state a') = IDLE /\
    targetItem (state a') = None.
Proof.
  assert (H : top (historyStack app1) = Some (stringify (diagram app1)))
    by (vm_compute; reflexivity).
  split; [reflexivity|]. split; [exact H|].
  exact (click_selects rect0 rect0 (mkEvent 330 160) (mkEvent 331 161) 2500
                       N0 app1 eq_refl H).
Defined.

(** X20: a drag keeps the place of the node: after the press and any
    moves, a move with the pointer back at the point of the press, the
    canvas rectangle being the one of the press and the zoom not zero, puts
    a node that was on the grid back where it was at the press, in x and in
    y separately. *)
Theorem drag_returns (rect : DOMRect) (e0 e : MouseEvent) (t : ref)
    (a : App) (es : list (DOMRect * MouseEvent)) :
  ~ (zoom (state a) == 0)%Q ->
  exists a2 a3,
    moves es (startDragging rect e0 t a) = Some a2 /\
    mousemove rect e a2 = Some a3 /\
    ((10 | Node.x (store a t)) -> (clientX e == clientX e0)%Q ->
     Node.x (store a3 t) = Node.x (store a t)) /\
    ((10 | Node.y (store a t)) -> (clientY e == clientY e0)%Q ->
     Node.y (store a3 t) = Node.y (store a t)).
Proof.
  intros Hz.
  destruct (moves_dragging es (startDragging rect e0 t a) t eq_refl eq_refl)
    as (a2 & Hmv & Hs).
  assert (Hm : mode (state a2) = DRAGGING) by now rewrite Hs.
  assert (Ht : targetItem (state a2) = Some t) by now rewrite Hs.
  destruct (mousemove_dragging rect e a2 t Hm Ht) as (a3 & Hmove & _ & Hst).
  exists a2, a3. split; [exact Hmv|]. split; [exact Hmove|].
  assert (Hc : getSVGCoords rect e a2 = getSVGCoords rect e a)
    by (apply getSVGCoords_state; now rewrite Hs).
  rewrite Hst, Hc, Hs. simpl. split.
  - intros Hd He. rewrite <- (snap_grid_point _ Hd) at 2.
    apply snap_comp. rewrite He. field. exact Hz.
  - intros Hd He. rewrite <- (snap_grid_point _ Hd) at 2.
    apply snap_comp. rewrite He. field. exact Hz.
Qed.

Lemma drag_returns_witness :
  ~ (zoom (state app1) == 0)%Q /\
  (10 | Node.x (store app1 N0)) /\ (10 | Node.y (store app1 N0)) /\
  exists a2 a3,
    moves [(rect0, mkEvent 343 187)]
          (startDragging rect0 (mkEvent 330 160) N0 app1) = Some a2 /\
    mousemove rect0 (mkEvent 330 160) a2 = Some a3 /\
    Node.x (store a3 N0) = 320 /\ Node.y (store a3 N0) = 150.
Proof.
  assert (H : ~ (zoom (state app1) == 0)%Q) by (vm_compute; discriminate).
  assert (Hx : (10 | Node.x (store app1 N0))) by (exists 32; reflexivity).
  assert (Hy : (10 | Node.y (store app1 N0))) by (exists 15; reflexivity).
  split; [exact H|]. split; [exact Hx|]. split; [exact Hy|].
  destruct (drag_returns rect0 (mkEvent 330 160) (mkEvent 330 160) N0 app1
                         [(rect0, mkEvent 343 187)] H)
    as (a2 & a3 & H1 & H2 & H3 & H4).
  exists a2, a3. split; [exact H1|]. split; [exact H2|]. split.
  - exact (H3 Hx (Qeq_refl _)).
  - exact (H4 Hy (Qeq_refl _)).
Defined.

Lemma write_outside (t : ref) (f : Node.t -> Node.t) (a : App) :
  ~ In t (nodes a) -> node_objects (write t f a) = node_objects a.
Proof.
  intros H. unfold node_objects, write. simpl. apply map_ext_in.
  intros r Hr. destruct (Nat.eqb r t) eqn:E; [| reflexivity].
  apply Nat.eqb_eq in E. congruence.
Qed.

(** X21: an undo during a drag detaches the node from the gesture: the
    diagram it restores is made of new objects, the target still is the old
    one, and the moves that follow no longer change the diagram. *)
Theorem undo_detaches_target (rect : DOMRect) (e : MouseEvent)
    (a a' : App) (t : ref) :
  mode (state a) = DRAGGING ->
  targetItem (state a) = Some t ->
  (t < fresh a)%nat ->
  (2 <= List.length (historyStack a))%nat ->
  undo a = Some a' ->
  ~ In t (nodes a') /\
  exists a'',
    mousemove rect e a' = Some a'' /\
    diagram a'' = diagram a'.
Proof.
  intros Hm Ht Hlt Hlen Hu. unfold undo in Hu.
  replace (Nat.leb (List.length (historyStack a)) 1) with false in Hu
    by (symmetry; apply Nat.leb_gt; lia).
  destruct (pop (historyStack a)) as [[s h]|]; [| discriminate].
  simpl in Hu. destruct (top h) as [s0|]; [| discriminate]. simpl in Hu.
  destruct (parse s0) as [d|]; [| discriminate]. simpl in Hu.
  injection Hu as <-.
  assert (Hout : ~ In t (seq (fresh a) (List.length (d_nodes d)))).
  { intros H. apply in_seq in H. lia. }
  split; [exact Hout|].
  destruct (mousemove_dragging rect e
              (applyState d
                 (set_redoStack (push (redoStack a) s) (set_historyStack h a)))
              t Hm Ht) as (a'' & Hmove & _ & _).
  exists a''. split; [exact Hmove|].
  revert Hmove. unfold mousemove. simpl. rewrite Hm, Ht. simpl.
  intros [= <-]. unfold diagram. f_equal.
  rewrite write_outside; [apply write_outside|]; exact Hout.
Qed.

Lemma undo_detaches_target_witness :
  mode (state app_dragging) = DRAGGING /\
  targetItem (state app_dragging) = Some N0 /\
  (N0 < fresh app_dragging)%nat /\
  (2 <= List.length (historyStack app_dragging))%nat /\
  exists a',
    undo app_dragging = Some a' /\
    ~ In N0 (nodes a') /\
    exists a'',
      mousemove rect0 (mkEvent 400 200) a' = Some a'' /\
      diagram a'' = diagram a'.
Proof.
  assert (H3 : (N0 < fresh app_dragging)%nat) by (vm_compute; repeat constructor).
  assert (H4 : (2 <= List.length (historyStack app_dragging))%nat)
    by (vm_compute; repeat constructor).
  split; [reflexivity|]. split; [reflexivity|]. split; [exact H3|].
  split; [exact H4|].
  eexists. split; [vm_compute; reflexivity|].
  eapply (undo_detaches_target rect0 (mkEvent 400 200) app_dragging _ N0
            eq_refl eq_refl H3 H4).
  vm_compute. reflexivity.
Defined.

(** ** More on the label editor *)

Lemma find_at {A} (p : A -> bool) (l1 l2 : list A) (v : A) :
  (forall m, In m l1 -> p m = false) -> p v = true ->
  find p (l1 ++ v :: l2) = Some v.
Proof.
  intros Hl Hv. induction l1 as [| u r IH]; simpl.
  - now rewrite Hv.
  - rewrite (Hl u) by now left. apply IH. intros m Hm. apply Hl. now right.
Qed.

Lemma closeEditors_id_at (a : App) (r : ref) :
  Node.id (store (closeEditors a) r) = Node.id (store a r).
Proof.
  destruct (closeEditors_cases a) as (a1 & -> & [-> | [[r0 ->] | [p ->]]]);
    simpl; rewrite ?saveHistory_store; try reflexivity.
  unfold write. simpl. destruct (Nat.eqb r r0) eqn:E; [| reflexivity].
  apply Nat.eqb_eq in E. subst r0. now destruct (store a r).
Qed.

Lemma closeEditors_node (a : App) (i : string) (r : ref) :
  editingItem (state a) = Some (mkEditing node_item i) ->
  find (fun r' => (Node.id (store a r') =? i)%string) (nodes a) = Some r ->
  closeEditors a =
  end_session (saveHistory (write r (Node.set_label (value (nodeEditor a))) a)).
Proof.
  intros He Hf. unfold closeEditors. rewrite He. simpl. now rewrite Hf.
Qed.

(** X22: an edit of a node label, on the first node of [nodes] that has
    its id and with no session open on that id: closed, the label of the
    node is the text typed, the other node objects are as [closeEditors]
    alone leaves them, no session is open and the snapshot of the diagram is
    on top of the undo stack; escaped instead, the diagram and the history
    are as [closeEditors] alone leaves them. *)
Theorem node_label_edit (node : ref) (v : string) (a : App)
    (l1 l2 : list ref) :
  same_item a (Node.id (store a node)) = false ->
  nodes a = (l1 ++ node :: l2)%list ->
  (forall m, In m l1 -> Node.id (store a m) <> Node.id (store a node)) ->
  Node.label (store (closeEditors (node_edit node v a)) node) = v /\
  (forall r, r <> node ->
     store (closeEditors (node_edit node v a)) r = store (closeEditors a) r) /\
  editingItem (state (closeEditors (node_edit node v a))) = None /\
  top (historyStack (closeEditors (node_edit node v a)))
  = Some (stringify (diagram (closeEditors (node_edit node v a)))) /\
  diagram (editor_escape (node_edit node v a)) = diagram (closeEditors a) /\
  history (editor_escape (node_edit node v a)) = history (closeEditors a).
Proof.
  intros Hsame Hn Hl1. unfold node_edit, openNodeEditor. rewrite Hsame.
  set (a1 := closeEditors a).
  set (opened := type_node_text v _).
  assert (Hclose : closeEditors opened =
                   end_session
                     (saveHistory (write node (Node.set_label v) opened))).
  { apply (closeEditors_node opened (Node.id (store a1 node)) node);
      [reflexivity|].
    change (nodes opened) with (nodes a1). change (store opened) with (store a1).
    unfold a1. rewrite closeEditors_nodes, Hn. apply find_at.
    - intros m Hm. rewrite !closeEditors_id_at. apply String.eqb_neq.
      now apply Hl1.
    - apply String.eqb_refl. }
  rewrite Hclose. simpl. rewrite saveHistory_store.
  split; [now rewrite store_write|].
  split; [intros r Hr; now rewrite store_write_other|].
  split; [reflexivity|].
  split; [| split; reflexivity].
  change (diagram (end_session
                     (saveHistory (write node (Node.set_label v) opened))))
    with (diagram (saveHistory (write node (Node.set_label v) opened))).
  apply saveHistory_top.
Qed.

Lemma node_label_edit_witness :
  same_item app1 (Node.id (store app1 N1)) = false /\
  nodes app1 = ([N0] ++ N1 :: [])%list /\
  (forall m, In m [N0] -> Node.id (store app1 m) <> Node.id (store app1 N1)) /\
  Node.label (store (closeEditors (node_edit N1 "Ready?" app1)) N1) = "Ready?" /\
  (forall r, r <> N1 ->
     store (closeEditors (node_edit N1 "Ready?" app1)) r
     = store (closeEditors app1) r) /\
  editingItem (state (closeEditors (node_edit N1 "Ready?" app1))) = None /\
  top (historyStack (closeEditors (node_edit N1 "Ready?" app1)))
  = Some (stringify (diagram (closeEditors (node_edit N1 "Ready?" app1)))) /\
  diagram (editor_escape (node_edit N1 "Ready?" app1))
  = diagram (closeEditors app1) /\
  history (editor_escape (node_edit N1 "Ready?" app1))
  = history (closeEditors app1).
Proof.
  assert (H1 : same_item app1 (Node.id (store app1 N1)) = false)
    by (vm_compute; reflexivity).
  assert (H2 : nodes app1 = ([N0] ++ N1 :: [])%list)
    by (vm_compute; reflexivity).
  assert (H3 : forall m, In m [N0] ->
                         Node.id (store app1 m) <> Node.id (store app1 N1)).
  { intros m [<- | []]. vm_compute. discriminate. }
  split; [exact H1|]. split; [exact H2|]. split; [exact H3|].
  exact (node_label_edit N1 "Ready?" app1 [N0] [] H1 H2 H3).
Defined.



(** ** Start-up with a stored project *)

Lemma read_stored_project (a : App) :
  read_stored (stringify_project a) =
  Stored_project (node_objects a) (edges a)
    (if (projectName (state a) =? EmptyString)%string then "My Flowchart"
     else projectName (state a)).
Proof.
  unfold read_stored, stringify_project, field_or. simpl.
  unfold read_nodes, read_edges.
  rewrite (mapM_roundtrip _ _ node_roundtrip).
  rewrite (mapM_roundtrip _ _ edge_roundtrip).
  now destruct (projectName (state a) =? EmptyString)%string.
Qed.

(** X24: what [persistToBrowser] stores, a start-up reads back: after a
    reload the edges and the non-empty project name are those stored; the
    nodes are those stored if there are any, with one snapshot on the undo
    stack, and the seeded node if there are none. *)
Theorem reload_restores (now : Z) (a : App) :
  projectName (state a) <> EmptyString ->
  exists a',
    init_stored now (reloaded (persistToBrowser a)) = Some a' /\
    edges a' = edges a /\
    projectName (state a') = projectName (state a) /\
    (nodes a <> [] ->
     diagram a' = diagram a /\ historyStack a' = [stringify (diagram a)]) /\
    (nodes a = [] ->
     node_objects a' =
     [Node.mk ("node-" ++ toString now) "lead-source" 320 150 180 50
              "Start Source"]).
Proof.
  intros Hname. unfold init_stored.
  change (localStorage (reloaded (persistToBrowser a)))
    with (Some (stringify_project a)).
  cbv beta iota. rewrite read_stored_project.
  apply String.eqb_neq in Hname. rewrite Hname.
  set (a1 := set_state _ (applyState _ _)).
  cbv beta iota delta [bind].
  assert (Hd : diagram a1 = diagram a)
    by (unfold a1; apply applyState_diagram).
  assert (Hlen : List.length (nodes a1) = List.length (nodes a)).
  { unfold a1. simpl. rewrite length_seq. unfold node_objects.
    apply length_map. }
  assert (He : edges a1 = edges a) by reflexivity.
  assert (Hp : projectName (state a1) = projectName (state a)) by reflexivity.
  assert (Hh : historyStack a1 = []) by reflexivity.
  assert (Hnil : nodes a = [] -> nodes a1 = [] /\ fresh a1 = O).
  { intros E. unfold a1. simpl. unfold node_objects. now rewrite E. }
  clearbody a1. rewrite Hlen.
  eexists. split; [reflexivity|].
  rewrite saveHistory_edges, saveHistory_state.
  destruct (nodes a) as [| r l] eqn:En; simpl.
  - split; [exact He|]. split; [exact Hp|].
    split; [intros H; now destruct H|]. intros _.
    destruct (Hnil eq_refl) as [Hn Hf].
    unfold node_objects. rewrite saveHistory_store, saveHistory_nodes.
    simpl. rewrite Hn, Hf. simpl. reflexivity.
  - split; [exact He|]. split; [exact Hp|].
    split; [| discriminate]. intros _.
    rewrite saveHistory_diagram. split; [exact Hd|].
    rewrite saveHistory_record by (rewrite Hh; discriminate).
    simpl. now rewrite Hh, Hd.
Qed.

Lemma reload_restores_witness :
  projectName (state app_linked) <> EmptyString /\
  exists a',
    init_stored 9000 (reloaded (persistToBrowser app_linked)) = Some a' /\
    edges a' = edges app_linked /\
    projectName (state a') = projectName (state app_linked) /\
    (nodes app_linked <> [] ->
     diagram a' = diagram app_linked /\
     historyStack a' = [stringify (diagram app_linked)]) /\
    (nodes app_linked = [] ->
     node_objects a' =
     [Node.mk ("node-" ++ toString 9000) "lead-source" 320 150 180 50
              "Start Source"]).
Proof.
  assert (H : projectName (state app_linked) <> EmptyString)
    by (vm_compute; discriminate).
  split; [exact H|]. exact (reload_restores 9000 app_linked H).
Defined.

(** ** Drawing the edges *)

Lemma find_id (a : App) (i : string) :
  In i (node_ids a) ->
  exists n, find (fun n => (Node.id n =? i)%string) (node_objects a) = Some n.
Proof.
  unfold node_ids. intros H. apply in_map_iff in H as (n & Hn & Hin).
  destruct (find (fun n => (Node.id n =? i)%string) (node_objects a))
    as [m|] eqn:E; [now exists m|].
  pose proof (find_none _ _ E n Hin) as Hf. simpl in Hf.
  apply String.eqb_neq in Hf. congruence.
Qed.

(** X25: when no edge dangles, [renderEdges] draws every edge of the
    diagram once, in the order of [edges]. *)
Theorem renderEdges_complete (a : App) :
  no_dangling a -> map view_edge (renderEdges a) = edges a.
Proof.
  unfold no_dangling, renderEdges. intros H.
  induction (edges a) as [| ed r IH]; simpl; [reflexivity|].
  destruct (H ed (or_introl eq_refl)) as [Hs Ht].
  destruct (find_id a _ Hs) as [s ->]. destruct (find_id a _ Ht) as [t ->].
  simpl. f_equal. apply IH. intros e He. apply H. now right.
Qed.

Lemma renderEdges_complete_witness :
  no_dangling app_linked /\
  map view_edge (renderEdges app_linked) = edges app_linked.
Proof.
  split; [exact no_dangling_app_linked|].
  exact (renderEdges_complete app_linked no_dangling_app_linked).
Defined.

(** X26: whatever [renderEdges] draws is drawn for an edge of the diagram
    whose source and target are ids of nodes (a dangling edge is skipped);
    the label sits half way between the two end points of the curve, its
    text is not empty and its box is at least 24 wide. *)
Theorem renderEdges_views (a : App) (v : EdgeView) :
  In v (renderEdges a) ->
  In (view_edge v) (edges a) /\
  In (Edge.source (view_edge v)) (node_ids a) /\
  In (Edge.target (view_edge v)) (node_ids a) /\
  (midX v == (x1 v + x2 v) / 2)%Q /\
  (midY v == (y1 v + y2 v) / 2)%Q /\
  text v <> EmptyString /\
  24 <= box_width v.
Proof.
  unfold renderEdges. intros H. apply in_flat_map in H as (ed & Hed & Hv).
  destruct (find _ (node_objects a)) as [s|] eqn:Es; [| destruct Hv].
  destruct (find (fun n => (Node.id n =? Edge.target ed)%string) _)
    as [t|] eqn:Et; [| destruct Hv].
  destruct Hv as [<- | []]. simpl.
  apply find_some in Es as [Hs Es]. apply find_some in Et as [Ht Et].
  apply String.eqb_eq in Es, Et.
  split; [exact Hed|].
  split; [rewrite <- Es; now apply in_map|].
  split; [rewrite <- Et; now apply in_map|].
  split; [reflexivity|]. split; [field|]. split.
  - destruct (Edge.label ed =? EmptyString)%string eqn:E; [discriminate|].
    now apply String.eqb_neq.
  - unfold Math_max. lia.
Qed.

Lemma renderEdges_views_witness :
  In (edge_view app_linked
        (Edge.mk "edge-3000" "node-1000" "node-2000" EmptyString)
        (store app_linked N0) (store app_linked N1))
     (renderEdges app_linked) /\
  In (Edge.mk "edge-3000" "node-1000" "node-2000" EmptyString)
     (edges app_linked) /\
  In "node-1000" (node_ids app_linked) /\
  In "node-2000" (node_ids app_linked) /\
  (midX (edge_view app_linked
           (Edge.mk "edge-3000" "node-1000" "node-2000" EmptyString)
           (store app_linked N0) (store app_linked N1))
   == (x1 (edge_view app_linked
             (Edge.mk "edge-3000" "node-1000" "node-2000" EmptyString)
             (store app_linked N0) (store app_linked N1))
       + x2 (edge_view app_linked
               (Edge.mk "edge-3000" "node-1000" "node-2000" EmptyString)
               (store app_linked N0) (store app_linked N1))) / 2)%Q /\
  (midY (edge_view app_linked
           (Edge.mk "edge-3000" "node-1000" "node-2000" EmptyString)
           (store app_linked N0) (store app_linked N1))
   == (y1 (edge_view app_linked
             (Edge.mk "edge-3000" "node-1000" "node-2000" EmptyString)
             (store app_linked N0) (store app_linked N1))
       + y2 (edge_view app_linked
               (Edge.mk "edge-3000" "node-1000" "node-2000" EmptyString)
               (store app_linked N0) (store app_linked N1))) / 2)%Q /\
  text (edge_view app_linked
          (Edge.mk "edge-3000" "node-1000" "node-2000" EmptyString)
          (store app_linked N0) (store app_linked N1)) <> EmptyString /\
  24 <= box_width
          (edge_view app_linked
             (Edge.mk "edge-3000" "node-1000" "node-2000" EmptyString)
             (store app_linked N0) (store app_linked N1)).
Proof.
  assert (H : In (edge_view app_linked
                    (Edge.mk "edge-3000" "node-1000" "node-2000" EmptyString)
                    (store app_linked N0) (store app_linked N1))
                 (renderEdges app_linked)).
  { vm_compute. left. reflexivity. }
  split; [exact H|]. exact (renderEdges_views app_linked _ H).
Defined.

(** ** Generated ids *)

Lemma toString_inj (n m : Z) : toString n = toString m -> n = m.
Proof.
  unfold toString. intros H.
  assert (Hnil : forall z, Z.to_int z <> Decimal.Pos Decimal.Nil
                           /\ Z.to_int z <> Decimal.Neg Decimal.Nil).
  { intros [| p | p]; simpl; split; try discriminate;
      intros [= E]; now apply (DecimalPos.Unsigned.to_uint_nonnil p). }
  apply (f_equal NilZero.int_of_string) in H.
  rewrite !NilZero.isi in H by apply Hnil.
  injection H as H. apply (f_equal Z.of_int) in H.
  now rewrite !DecimalZ.of_to in H.
Qed.

Lemma prefix_node_edge (s t : string) :
  ("node-" ++ s)%string <> ("edge-" ++ t)%string.
Proof. discriminate. Qed.

(** X27: [createNode] keeps the ids of the nodes pairwise different when
    every node of the diagram carries the id of another time than [now];
    and an id made for a node is never an id made for an edge. *)
Theorem createNode_fresh_id (type : string) (x y : Q) (label : option string)
    (now : Z) (a : App) :
  Forall (fun r => (r < fresh a)%nat) (nodes a) ->
  NoDup (node_ids a) ->
  (forall n, In n (node_objects a) ->
     exists t, Node.id n = ("node-" ++ toString t)%string /\ t <> now) ->
  NoDup (node_ids (snd (createNode type x y label now a))) /\
  forall t, Node.id (created (createNode type x y label now a))
            <> ("edge-" ++ toString t)%string.
Proof.
  intros Hr Hnd Hold.
  assert (Hobjs : node_objects (snd (createNode type x y label now a)) =
                  (node_objects a ++ [created (createNode type x y label now a)])%list
                  /\ Node.id (created (createNode type x y label now a))
                     = ("node-" ++ toString now)%string).
  { unfold created, createNode, node_objects.
    destruct (default_size type) as [w h]. simpl. rewrite Nat.eqb_refl.
    split; [| reflexivity].
    unfold push. rewrite map_app. simpl. rewrite Nat.eqb_refl. f_equal.
    apply map_ext_in. intros r Hin. rewrite Forall_forall in Hr.
    specialize (Hr r Hin).
    replace (Nat.eqb r (fresh a)) with false
      by (symmetry; apply Nat.eqb_neq; lia). reflexivity. }
  destruct Hobjs as [Hobjs Hid]. split.
  - unfold node_ids. rewrite Hobjs, map_app. simpl. rewrite Hid.
    apply NoDup_app; [exact Hnd | repeat constructor; intros [] |].
    intros i Hi Hnew. destruct Hnew as [<- | []].
    apply in_map_iff in Hi as (n & Hn & Hin).
    destruct (Hold n Hin) as (t & Ht & Hne). rewrite Ht in Hn.
    injection Hn as Hn. apply toString_inj in Hn. congruence.
  - intros t. rewrite Hid. apply prefix_node_edge.
Qed.

Lemma createNode_fresh_id_witness :
  Forall (fun r => (r < fresh app0)%nat) (nodes app0) /\
  NoDup (node_ids app0) /\
  (forall n, In n (node_objects app0) ->
     exists t, Node.id n = ("node-" ++ toString t)%string /\ t <> 2000) /\
  NoDup (node_ids (snd (createNode "decision" 500 400 None 2000 app0))) /\
  forall t, Node.id (created (createNode "decision" 500 400 None 2000 app0))
            <> ("edge-" ++ toString t)%string.
Proof.
  assert (H1 : Forall (fun r => (r < fresh app0)%nat) (nodes app0)).
  { vm_compute. constructor; [| constructor]. apply le_n. }
  assert (H2 : NoDup (node_ids app0)).
  { vm_compute. constructor; [intros [] | constructor]. }
  assert (H3 : forall n, In n (node_objects app0) ->
                 exists t, Node.id n = ("node-" ++ toString t)%string
                           /\ t <> 2000).
  { intros n Hn. vm_compute in Hn. destruct Hn as [<- | []].
    exists 1000. split; [reflexivity | discriminate]. }
  split; [exact H1|]. split; [exact H2|]. split; [exact H3|].
  exact (createNode_fresh_id "decision" 500 400 None 2000 app0 H1 H2 H3).
Defined.

(** ** Undo after a gesture and after a deletion *)

Lemma undo_after_commit (a b c : App) :
  top (historyStack a) = Some (stringify (diagram a)) ->
  historyStack b = historyStack a ->
  diagram b <> diagram a ->
  historyStack c = historyStack (saveHistory b) ->
  exists a', undo c = Some a' /\ diagram a' = diagram a.
Proof.
  intros Ht Hh Hd Hc. rewrite <- Hh in Ht.
  assert (Hne : top (historyStack b) <> Some (stringify (diagram b))).
  { rewrite Ht. intros E. apply Hd. apply stringify_inj. congruence. }
  destruct (pushed_two _ _ (stringify (diagram b)) Ht) as [h' Hp].
  rewrite (saveHistory_record b Hne) in Hc. simpl in Hc. rewrite Hp in Hc.
  rewrite (undo_step c _ _ _ (diagram a) Hc (parse_stringify _)).
  eexists. split; [reflexivity | apply applyState_diagram].
Qed.

Lemma mousemove_stacks (rect : DOMRect) (e : MouseEvent) (a a' : App) :
  mousemove rect e a = Some a' -> same_stacks a a'.
Proof.
  unfold mousemove, same_stacks.
  destruct (mode (state a)); simpl; try (now intros [= <-]);
    destruct (targetItem (state a)); simpl; try discriminate;
    now intros [= <-].
Qed.

Lemma moves_stacks (es : list (DOMRect * MouseEvent)) (a a' : App) :
  moves es a = Some a' -> same_stacks a a'.
Proof.
  revert a. induction es as [| [rect e] r IH]; intros a; simpl.
  - intros [= <-]. now split.
  - destruct (mousemove rect e a) as [a1|] eqn:E; [| discriminate]. simpl.
    intros H. destruct (IH _ H) as [H1 H2].
    destruct (mousemove_stacks rect e _ _ E) as [H3 H4].
    split; congruence.
Qed.

(** X28: a drag started when the snapshot of the diagram is on top of the
    undo stack, whatever its moves: if it leaves the diagram as it was, the
    release leaves the two stacks as they were; if it changes the diagram,
    an undo after the release brings back the diagram of before the drag. *)
Theorem drag_then_undo (rect0' rect : DOMRect) (e0 e : MouseEvent) (now : Z)
    (t : ref) (a : App) (es : list (DOMRect * MouseEvent)) :
  top (historyStack a) = Some (stringify (diagram a)) ->
  exists a2 a3,
    moves es (startDragging rect0' e0 t a) = Some a2 /\
    mouseup rect e now a2 = Some a3 /\
    (diagram a3 = diagram a ->
     historyStack a3 = historyStack a /\ redoStack a3 = redoStack a) /\
    (diagram a3 <> diagram a ->
     exists a4, undo a3 = Some a4 /\ diagram a4 = diagram a).
Proof.
  intros Ht.
  destruct (moves_dragging es (startDragging rect0' e0 t a) t eq_refl eq_refl)
    as (a2 & Hmv & Hs).
  destruct (moves_stacks _ _ _ Hmv) as [Hh Hr]. simpl in Hh, Hr.
  exists a2,
    (set_state (set_targetItem None (set_mode IDLE (state (saveHistory a2))))
               (saveHistory a2)).
  split; [exact Hmv|].
  split; [unfold mouseup; rewrite Hs; simpl; rewrite Hs; reflexivity|].
  change (diagram (set_state
                     (set_targetItem None
                        (set_mode IDLE (state (saveHistory a2))))
                     (saveHistory a2)))
    with (diagram (saveHistory a2)).
  rewrite saveHistory_diagram. split.
  - intros Hd. simpl. rewrite saveHistory_skip by (rewrite Hh, Hd; exact Ht).
    split; assumption.
  - intros Hd. apply (undo_after_commit a a2); try assumption. reflexivity.
Qed.

Lemma drag_then_undo_witness :
  top (historyStack app1) = Some (stringify (diagram app1)) /\
  exists a2 a3,
    moves [(rect0, mkEvent 343 187)]
          (startDragging rect0 (mkEvent 330 160) N0 app1) = Some a2 /\
    mouseup rect0 (mkEvent 343 187) 2500 a2 = Some a3 /\
    (diagram a3 = diagram app1 ->
     historyStack a3 = historyStack app1 /\ redoStack a3 = redoStack app1) /\
    (diagram a3 <> diagram app1 ->
     exists a4, undo a3 = Some a4 /\ diagram a4 = diagram app1).
Proof.
  assert (H : top (historyStack app1) = Some (stringify (diagram app1)))
    by (vm_compute; reflexivity).
  split; [exact H|].
  exact (drag_then_undo rect0 rect0 (mkEvent 330 160) (mkEvent 343 187) 2500
                        N0 app1 [(rect0, mkEvent 343 187)] H).
Defined.

Lemma splice1_shorter {A} (p : A -> bool) (l : list A) (k : nat) :
  findIndex p l = Some k -> List.length (splice1 k l) <> List.length l.
Proof.
  intros H. apply findIndex_split in H as (l1 & v & l2 & -> & _ & _ & ->).
  rewrite !length_app. simpl. lia.
Qed.

(** X29: with no edit session open and the snapshot of the diagram on top
    of the undo stack, deleting a node of non-empty id and then undoing
    brings back the diagram of before the deletion, node and edges. *)
Theorem delete_then_undo (a : App) (i : string) :
  top (historyStack a) = Some (stringify (diagram a)) ->
  editingItem (state a) = None ->
  i <> EmptyString ->
  selectedId (state a) = Some i ->
  In i (node_ids a) ->
  diagram (deleteSelected a) <> diagram a /\
  exists a', undo (deleteSelected a) = Some a' /\ diagram a' = diagram a.
Proof.
  intros Ht He Hi Hs Hin.
  rewrite (deleteSelected_truthy a i Hi Hs).
  unfold node_ids in Hin. apply in_map_iff in Hin as (n & Hn & Hin).
  destruct (findIndex_In (fun n => (Node.id n =? i)%string) _ n Hin)
    as [k Hk]; [now apply String.eqb_eq|].
  rewrite Hk.
  set (a1 := set_edges _ (set_nodes _ a)).
  assert (Hc : closeEditors (select_id None a1)
               = end_session (select_id None a1))
    by (unfold closeEditors; simpl; now rewrite He).
  rewrite Hc.
  assert (Hd : diagram (end_session (select_id None a1)) <> diagram a).
  { intros E. apply (f_equal (fun d => List.length (d_nodes d))) in E.
    simpl in E. unfold node_objects in E. simpl in E.
    rewrite map_splice1 in E. now apply (splice1_shorter _ _ _ Hk). }
  split; [now rewrite saveHistory_diagram|].
  apply (undo_after_commit a (end_session (select_id None a1)));
    try assumption; reflexivity.
Qed.

Lemma delete_then_undo_witness :
  top (historyStack app_linked) = Some (stringify (diagram app_linked)) /\
  editingItem (state app_linked) = None /\
  "node-1000" <> EmptyString /\
  selectedId (state app_linked) = Some "node-1000" /\
  In "node-1000" (node_ids app_linked) /\
  diagram (deleteSelected app_linked) <> diagram app_linked /\
  exists a', undo (deleteSelected app_linked) = Some a' /\
             diagram a' = diagram app_linked.
Proof.
  assert (H1 : top (historyStack app_linked)
               = Some (stringify (diagram app_linked)))
    by (vm_compute; reflexivity).
  assert (H2 : editingItem (state app_linked) = None)
    by (vm_compute; reflexivity).
  assert (H3 : "node-1000" <> EmptyString) by discriminate.
  assert (H4 : selectedId (state app_linked) = Some "node-1000")
    by (vm_compute; reflexivity).
  assert (H5 : In "node-1000" (node_ids app_linked))
    by (vm_compute; left; reflexivity).
  split; [exact H1|]. split; [exact H2|]. split; [exact H3|].
  split; [exact H4|]. split; [exact H5|].
  exact (delete_then_undo app_linked "node-1000" H1 H2 H3 H4 H5).
Defined.

(** ** Node ids in a session *)

Lemma issued_ext (n m : Node.t) : Node.id m = Node.id n -> issued n -> issued m.
Proof. intros E [t H]. exists t. congruence. Qed.

Lemma Ids_saveHistory (a : App) : Ids a -> Ids (saveHistory a).
Proof.
  intros [I1 I2 I3].
  destruct (saveHistory_shape a) as (h & r & ls & -> & _ & Hh & Hr).
  constructor; simpl.
  - exact I1.
  - apply Forall_forall. intros j Hj. destruct (Hh j Hj) as [Hin | ->].
    + unfold stack_of in I2. rewrite Forall_forall in I2. now apply I2.
    + eexists. split; [reflexivity | exact I1].
  - apply Forall_forall. intros j Hj. apply Hr in Hj.
    unfold stack_of in I3. rewrite Forall_forall in I3. now apply I3.
Qed.

Lemma Ids_write (r : ref) (f : Node.t -> Node.t) (a : App) :
  (forall n, Node.id (f n) = Node.id n) -> Ids a -> Ids (write r f a).
Proof.
  intros Hf [I1 I2 I3]. constructor; try assumption.
  unfold issued_diagram, diagram, node_objects in *. simpl in *.
  rewrite Forall_map in *. rewrite Forall_forall in *.
  intros r' Hr'. destruct (Nat.eqb r' r) eqn:E.
  - apply Nat.eqb_eq in E. subst r'.
    apply (issued_ext (store a r)); [apply Hf | now apply I1].
  - now apply I1.
Qed.

Lemma Ids_set_edges (es : list Edge.t) (a : App) : Ids a -> Ids (set_edges es a).
Proof. intros []. constructor; assumption. Qed.

Lemma Ids_set_state (s : State) (a : App) : Ids a -> Ids (set_state s a).
Proof. intros []. constructor; assumption. Qed.

Lemma Ids_end_session (a : App) : Ids a -> Ids (end_session a).
Proof. intros []. constructor; assumption. Qed.

Lemma Ids_persist (a : App) : Ids a -> Ids (persistToBrowser a).
Proof. intros []. constructor; assumption. Qed.

Lemma Ids_set_nodes (ns : list ref) (a : App) :
  Ids a -> (forall r, In r ns -> In r (nodes a)) -> Ids (set_nodes ns a).
Proof.
  intros [I1 I2 I3] H. constructor; try assumption.
  unfold issued_diagram, diagram, node_objects in *. simpl in *.
  rewrite Forall_map in *. rewrite Forall_forall in *.
  intros r Hr. now apply I1, H.
Qed.

Lemma Ids_closeEditors (a : App) : Ids a -> Ids (closeEditors a).
Proof.
  intros I. destruct (closeEditors_cases a) as (a1 & -> & H).
  apply Ids_end_session.
  destruct H as [-> | [[r ->] | [p ->]]]; [exact I | |].
  - apply Ids_saveHistory, Ids_write; [| exact I]. now intros [].
  - apply Ids_saveHistory, Ids_set_edges, I.
Qed.

Lemma Ids_applyState (d : Diagram) (a : App) :
  Ids a -> issued_diagram d -> Ids (applyState d a).
Proof.
  intros [I1 I2 I3] Hd. constructor; try assumption.
  now rewrite applyState_diagram.
Qed.

Lemma Ids_undo (a a' : App) : Ids a -> undo a = Some a' -> Ids a'.
Proof.
  intros I. destruct (undo_shape _ a (ids_undo a I))
    as [[_ ->] | (h & d0 & s & E & Hd & ->)]; intros [= <-]; [exact I|].
  pose proof (ids_undo a I) as Hu. rewrite E in Hu.
  apply stack_of_push_inv in Hu as [Hu (d & -> & Hs)].
  apply Ids_applyState; [| exact Hd].
  destruct I as [I1 I2 I3]. constructor; simpl.
  - exact I1.
  - exact Hu.
  - now apply stack_of_push.
Qed.

Lemma Ids_redo (a a' : App) : Ids a -> redo a = Some a' -> Ids a'.
Proof.
  intros I. destruct (redo_shape _ a (ids_redo a I))
    as [[_ ->] | (r & d & E & Hd & ->)]; intros [= <-]; [exact I|].
  pose proof (ids_redo a I) as Hr. rewrite E in Hr.
  apply stack_of_push_inv in Hr as [Hr _].
  apply Ids_applyState; [| exact Hd].
  destruct I as [I1 I2 I3]. constructor; simpl.
  - exact I1.
  - now apply stack_of_push.
  - exact Hr.
Qed.

Lemma Ids_createNode (type : string) (x y : Q) (label : option string)
    (now : Z) (a : App) :
  Forall (fun r => (r < fresh a)%nat) (nodes a) ->
  Ids a -> Ids (snd (createNode type x y label now a)).
Proof.
  intros Hr [I1 I2 I3]. unfold createNode.
  destruct (default_size type) as [w h]. constructor; simpl; try assumption.
  unfold issued_diagram, diagram, node_objects in *. simpl in *.
  rewrite Forall_map in *. apply Forall_app. split.
  - rewrite Forall_forall in *. intros r Hin.
    specialize (Hr r Hin). specialize (I1 r Hin).
    replace (Nat.eqb r (fresh a)) with false
      by (symmetry; apply Nat.eqb_neq; lia). exact I1.
  - constructor; [| constructor]. rewrite Nat.eqb_refl. now exists now.
Qed.

Lemma Ids_deleteSelected (a : App) : Ids a -> Ids (deleteSelected a).
Proof.
  intros I. unfold deleteSelected.
  destruct (negb (truthy (selectedId (state a)))); [exact I|].
  apply Ids_saveHistory, Ids_closeEditors, Ids_set_state.
  destruct (findIndex _ (node_objects a)) as [k|].
  - apply Ids_set_edges, Ids_set_nodes; [exact I|].
    intros r. apply splice1_In.
  - destruct (findIndex _ (edges a)); [apply Ids_set_edges|]; exact I.
Qed.

Lemma Ids_mousemove (rect : DOMRect) (e : MouseEvent) (a a' : App) :
  Ids a -> mousemove rect e a = Some a' -> Ids a'.
Proof.
  intros I. unfold mousemove.
  destruct (mode (state a)); simpl; try (intros [= <-]; exact I);
    destruct (targetItem (state a)) as [t|]; simpl; try discriminate;
    intros [= <-]; try exact I;
    (apply Ids_write; [now intros [] |]);
    (apply Ids_write; [now intros [] | exact I]).
Qed.

Lemma Ids_mouseup (rect : DOMRect) (e : MouseEvent) (now : Z) (a a' : App) :
  Ids a -> mouseup rect e now a = Some a' -> Ids a'.
Proof.
  intros I. unfold mouseup.
  assert (H : forall a1,
             (if mode_eqb (mode (state a)) CONNECTING
              then finalizeConnection rect e now a else Some a) = Some a1 ->
             Ids a1).
  { intros a1. destruct (mode_eqb _ _); [| intros [= <-]; exact I].
    unfold finalizeConnection.
    destruct (targetItem (state a)) as [t|].
    - destruct (find _ (node_objects a)); intros [= <-]; [| exact I].
      now apply Ids_saveHistory, Ids_set_edges.
    - destruct (nodes a); [intros [= <-]; exact I | discriminate]. }
  destruct (if mode_eqb _ _ then _ else _) as [a1|]; [| discriminate].
  specialize (H a1 eq_refl). simpl. intros [= <-].
  apply Ids_set_state. destruct (negb _); [now apply Ids_saveHistory | exact H].
Qed.

Lemma Ids_openNodeEditor (node : ref) (a : App) :
  Ids a -> Ids (openNodeEditor node a).
Proof.
  intros I. unfold openNodeEditor. destruct (same_item a _); [exact I|].
  destruct (Ids_closeEditors a I). constructor; assumption.
Qed.

Lemma Ids_openEdgeEditor (edge : Edge.t) (a : App) :
  Ids a -> Ids (openEdgeEditor edge a).
Proof.
  intros I. unfold openEdgeEditor. destruct (same_item a _); [exact I|].
  destruct (Ids_closeEditors a I). constructor; assumption.
Qed.

Lemma Ids_keydown (ev : KeyEvent) (active : string) (a a' : App) :
  Ids a -> keydown ev active a = Some a' -> Ids a'.
Proof.
  intros I. unfold keydown.
  set (a1 := if (code ev =? "Space")%string then _ else a).
  assert (I1 : Ids a1).
  { unfold a1. destruct (code ev =? "Space")%string; [| exact I].
    now apply Ids_set_state. }
  set (a2 := if (_ && _)%bool then _ else a1).
  assert (I2 : Ids a2).
  { unfold a2. destruct (_ && _)%bool; [| exact I1].
    destruct (_ && _)%bool; [now apply Ids_deleteSelected | exact I1]. }
  clearbody a2. clear a1 I1.
  destruct (ctrlKey ev || metaKey ev)%bool; [| intros [= <-]; exact I2].
  destruct (if (key ev =? "z")%string then undo a2 else Some a2) as [a3|] eqn:E3;
    [| discriminate].
  assert (I3 : Ids a3).
  { destruct (key ev =? "z")%string; [exact (Ids_undo a2 a3 I2 E3)|].
    now injection E3 as <-. }
  simpl.
  destruct (if (key ev =? "y")%string then redo a3 else Some a3) as [a4|] eqn:E4;
    [| discriminate].
  assert (I4 : Ids a4).
  { destruct (key ev =? "y")%string; [exact (Ids_redo a3 a4 I3 E4)|].
    now injection E4 as <-. }
  simpl. intros [= <-].
  destruct (key ev =? "s")%string; [now apply Ids_persist | exact I4].
Qed.

Lemma Ids_editor_keydown (el : ItemType) (ev : KeyEvent) (a : App) :
  Ids a -> Ids (editor_keydown el ev a).
Proof.
  intros I. unfold editor_keydown.
  set (a1 := if (key ev =? "Enter")%string then _ else a).
  assert (I1 : Ids a1).
  { unfold a1. destruct (key ev =? "Enter")%string; [| exact I].
    destruct (_ || _)%bool; [now apply Ids_closeEditors | exact I]. }
  destruct (key ev =? "Escape")%string; [| exact I1].
  rewrite editor_escape_end. now apply Ids_end_session.
Qed.

Lemma Ids_init (now : Z) : Ids (init now initial).
Proof.
  unfold init. simpl. apply Ids_saveHistory.
  apply (Ids_createNode "lead-source" 320 150 (Some "Start Source") now initial);
    constructor; constructor.
Qed.

Lemma handle_Ids (ev : Event) (a a' : App) :
  Inv a -> Ids a -> handle ev a = Some a' -> Ids a'.
Proof.
  intros J I. destruct ev; simpl; try (intros [= <-]).
  - apply Ids_saveHistory, Ids_createNode; [apply J | exact I].
  - unfold node_mousedown. destruct (activeTool _);
      [unfold startDragging | unfold startConnecting];
      repeat apply Ids_set_state; exact I.
  - now apply Ids_set_state.
  - now apply Ids_deleteSelected, Ids_set_state.
  - now apply Ids_openNodeEditor.
  - now apply Ids_set_state.
  - now apply Ids_openEdgeEditor, Ids_set_state.
  - now apply Ids_mousemove.
  - now apply Ids_mouseup.
  - now apply Ids_set_state, Ids_closeEditors.
  - now apply Ids_keydown.
  - unfold keyup. destruct (code ev =? "Space")%string; [| exact I].
    now apply Ids_set_state.
  - now apply Ids_editor_keydown.
  - now apply Ids_closeEditors.
  - destruct I. constructor; assumption.
  - destruct I. constructor; assumption.
  - now apply Ids_undo.
  - now apply Ids_redo.
  - now apply Ids_set_state.
  - now apply Ids_set_state.
  - now apply Ids_set_state.
  - apply Ids_saveHistory, Ids_set_edges, Ids_set_nodes; [exact I|].
    intros r [].
  - now apply Ids_set_state.
  - unfold rename. now apply Ids_persist, Ids_set_state.
  - now apply Ids_persist.
Qed.

Lemma run_Ids (evs : list Event) (a a' : App) :
  Inv a -> Ids a -> run evs a = Some a' -> Ids a'.
Proof.
  revert a. induction evs as [| ev r IH]; intros a J I; simpl.
  - now intros [= <-].
  - destruct (handle_Inv ev a J) as (a1 & E & J1). rewrite E. simpl.
    apply IH; [exact J1|]. exact (handle_Ids ev a a1 J I E).
Qed.

Lemma prefix_nonempty (t : Z) : ("node-" ++ toString t)%string <> EmptyString.
Proof. discriminate. Qed.

Lemma session_Ids (now : Z) (evs : list Event) (a : App) :
  session now evs = Some a -> Ids a.
Proof.
  intros H. unfold session in H.
  exact (run_Ids evs _ a (Inv_init now) (Ids_init now) H).
Qed.

(** X30: in a session, started without a stored project, every node of
    the diagram carries an id that [createNode] gave, [node-] followed by a
    time, whatever was undone, redone, deleted or cleared on the way; no
    node has the empty id, the one that [deleteSelected] takes for no
    selection. *)
Theorem session_node_ids (now : Z) (evs : list Event) (a : App)
    (n : Node.t) :
  session now evs = Some a ->
  In n (node_objects a) ->
  (exists t, Node.id n = ("node-" ++ toString t)%string) /\
  Node.id n <> EmptyString.
Proof.
  intros H Hin. pose proof (ids_nodes a (session_Ids now evs a H)) as Hd.
  unfold issued_diagram, diagram in Hd. simpl in Hd.
  rewrite Forall_forall in Hd. destruct (Hd n Hin) as [t Ht].
  split; [now exists t|]. rewrite Ht. apply prefix_nonempty.
Qed.

Lemma session_node_ids_witness :
  session 1000 events1 = Some app1 /\
  In (store app1 N0) (node_objects app1) /\
  (exists t, Node.id (store app1 N0) = ("node-" ++ toString t)%string) /\
  Node.id (store app1 N0) <> EmptyString.
Proof.
  assert (H1 : session 1000 events1 = Some app1) by exact session_events1.
  assert (H2 : In (store app1 N0) (node_objects app1))
    by (vm_compute; left; reflexivity).
  split; [exact H1|]. split; [exact H2|].
  exact (session_node_ids 1000 events1 app1 (store app1 N0) H1 H2).
Defined.
